(** * mass-rmv-appointment-sniper: scrape / normalise / alert pipeline

    A shallow embedding of [browse.py] and [alert.py] and the properties
    that the specification states about them.

    Modelling conventions.
    - Python [str] values are Rocq [string]s; the model covers ASCII text.
    - Python [int]s are [Z].
    - A Python [dict] that is iterated (the JSON snapshot read by
      [alert.py], the locations walked and the snapshot built by
      [transform_data]) is the list of its items in insertion order, see
      [Module PyDict].
    - A Python [set] of strings is a [gset string].
    - [datetime.strptime] is the regular-expression matcher of CPython's
      [Lib/_strptime.py] (C / en_US locale) restricted to the three formats
      the program uses; [re.search] on the column label is run by the same
      small backtracking engine.
    - Files and the browser are external: a file is its content when it
      exists ([option]), a rendered page is a tree of columns, groups and
      slots, and the navigation outcomes of a run are a script. *)

From Stdlib Require Import Strings.String Strings.Ascii.
From stdpp Require Import base option list gmap strings sorting.

Local Open Scope string_scope.
Local Open Scope Z_scope.
Local Open Scope list_scope.

(** ** Characters *)

Definition ord (c : ascii) : Z := Z.of_N (N_of_ascii c).

Definition in_range (lo hi : Z) (c : ascii) : bool :=
  (lo <=? ord c) && (ord c <=? hi).

(** [\d] on ASCII text. *)
Definition is_digit (c : ascii) : bool := in_range 48 57 c.

(** [[A-Za-z]]. *)
Definition is_alpha (c : ascii) : bool := in_range 65 90 c || in_range 97 122 c.

(** [str.isspace] / [\s] on ASCII: TAB, LF, VT, FF, CR, FS, GS, RS, US, SPACE. *)
Definition is_space (c : ascii) : bool :=
  in_range 9 13 c || in_range 28 31 c || (ord c =? 32).

(** [str.lower] on one ASCII character. *)
Definition lower (c : ascii) : ascii :=
  if in_range 65 90 c then ascii_of_N (Z.to_N (ord c + 32)) else c.

Definition is_char (a c : ascii) : bool := Ascii.eqb a c.

(** Literal character under [re.IGNORECASE]. *)
Definition is_char_ci (a c : ascii) : bool := Ascii.eqb (lower a) (lower c).

(** The character of a decimal digit [d < 10]. *)
Definition digit_char (d : Z) : ascii := ascii_of_N (Z.to_N (48 + d)).

Definition digit_val (c : ascii) : Z := ord c - 48.

(** ** Strings *)

Fixpoint string_rev_onto (s acc : string) : string :=
  match s with
  | EmptyString => acc
  | String c s' => string_rev_onto s' (String c acc)
  end.

Definition string_rev (s : string) : string := string_rev_onto s "".

(** [str.lstrip()] *)
Fixpoint lstrip (s : string) : string :=
  match s with
  | String c s' => if is_space c then lstrip s' else s
  | EmptyString => EmptyString
  end.

(** [str.rstrip()] *)
Definition rstrip (s : string) : string := string_rev (lstrip (string_rev s)).

(** [str.strip()] *)
Definition strip (s : string) : string := rstrip (lstrip s).

(** The lines a text file yields when iterated: each line keeps its
    terminating newline, a last unterminated line is yielded when it is
    not empty. *)
Fixpoint readlines_from (cur : string) (s : string) : list string :=
  match s with
  | EmptyString => if String.eqb cur "" then [] else [string_rev cur]
  | String c s' =>
      if Ascii.eqb c "010"%char
      then string_rev (String c cur) :: readlines_from "" s'
      else readlines_from (String c cur) s'
  end.

Definition readlines (content : string) : list string := readlines_from "" content.

(** [int(s)] for a string of decimal digits, leading blanks allowed. *)
Fixpoint int_digits (acc : Z) (s : string) : Z :=
  match s with
  | EmptyString => acc
  | String c s' => int_digits (10 * acc + digit_val c) s'
  end.

Definition int_of_string (s : string) : Z := int_digits 0 (lstrip s).

(** Zero-padded decimal rendering, as [%02d] and [%04d]. *)
Definition pad2 (n : Z) : string :=
  String (digit_char (n / 10 mod 10)) (String (digit_char (n mod 10)) "").

Definition pad4 (n : Z) : string :=
  String (digit_char (n / 1000 mod 10))
    (String (digit_char (n / 100 mod 10)) (pad2 n)).

(** ** A backtracking matcher for the regular expressions in use

    Ordered alternation and greedy repetition with backtracking, as in
    Python's [re]; written in continuation-passing style so that a later
    failure re-enters the earlier choice points. *)

Inductive regex : Type :=
| Eps
| Chr (p : ascii → bool)
| Seq (r1 r2 : regex)
| Alt (r1 r2 : regex)
| Plus (p : ascii → bool)
| Group (name : string) (r : regex).

Definition captures : Type := list (string * string).

Fixpoint plus_match {A} (p : ascii → bool) (s : string)
    (k : string → option A) : option A :=
  match s with
  | String c s' =>
      if p c then
        match plus_match p s' k with
        | Some a => Some a
        | None => k s'
        end
      else None
  | EmptyString => None
  end.

(** The text consumed between [s] and its suffix [s']. *)
Definition consumed (s s' : string) : string :=
  substring 0 (String.length s - String.length s')%nat s.

Fixpoint re_match {A} (r : regex) (s : string) (caps : captures)
    (k : string → captures → option A) : option A :=
  match r with
  | Eps => k s caps
  | Chr p =>
      match s with
      | String c s' => if p c then k s' caps else None
      | EmptyString => None
      end
  | Seq r1 r2 => re_match r1 s caps (λ s' caps', re_match r2 s' caps' k)
  | Alt r1 r2 =>
      match re_match r1 s caps k with
      | Some a => Some a
      | None => re_match r2 s caps k
      end
  | Plus p => plus_match p s (λ s', k s' caps)
  | Group name r =>
      re_match r s caps (λ s' caps', k s' ((name, consumed s s') :: caps'))
  end.

(** [pattern.match(s)]: the first match anchored at the start of [s];
    it returns the unmatched rest and the groups. *)
Definition re_match_prefix (r : regex) (s : string) : option (string * captures) :=
  re_match r s [] (λ s' caps, Some (s', caps)).

(** [pattern.search(s)]: the leftmost match. *)
Fixpoint re_search (r : regex) (s : string) : option captures :=
  match re_match_prefix r s with
  | Some (_, caps) => Some caps
  | None =>
      match s with
      | String _ s' => re_search r s'
      | EmptyString => None
      end
  end.

Fixpoint group (name : string) (caps : captures) : string :=
  match caps with
  | [] => ""
  | (n, v) :: caps' => if String.eqb n name then v else group name caps'
  end.

(** Regex builders. *)
Fixpoint lit (s : string) : regex :=
  match s with
  | EmptyString => Eps
  | String c s' => Seq (Chr (is_char c)) (lit s')
  end.

Fixpoint lit_ci (s : string) : regex :=
  match s with
  | EmptyString => Eps
  | String c s' => Seq (Chr (is_char_ci c)) (lit_ci s')
  end.

Definition rng (lo hi : ascii) : regex := Chr (in_range (ord lo) (ord hi)).
Definition dig : regex := Chr is_digit.

Fixpoint alts (rs : list regex) : regex :=
  match rs with
  | [] => Chr (λ _, false)
  | [r] => r
  | r :: rs' => Alt r (alts rs')
  end.

Fixpoint seqs (rs : list regex) : regex :=
  match rs with
  | [] => Eps
  | [r] => r
  | r :: rs' => Seq r (seqs rs')
  end.

(** ** [datetime] values *)

Record datetime : Type := Datetime {
  year : Z; month : Z; day : Z;
  hour : Z; minute : Z; second : Z
}.

Definition is_leap (y : Z) : bool :=
  (y mod 4 =? 0) && (negb (y mod 100 =? 0) || (y mod 400 =? 0)).

Definition days_in_month (y m : Z) : Z :=
  match m with
  | 1 | 3 | 5 | 7 | 8 | 10 | 12 => 31
  | 4 | 6 | 9 | 11 => 30
  | 2 => if is_leap y then 29 else 28
  | _ => 0
  end.

(** The range checks of the [date] constructor ([MINYEAR = 1],
    [MAXYEAR = 9999]). *)
Definition valid_date (y m d : Z) : bool :=
  (1 <=? y) && (y <=? 9999) && (1 <=? m) && (m <=? 12) &&
  (1 <=? d) && (d <=? days_in_month y m).

Definition valid_time (H M S : Z) : bool :=
  (0 <=? H) && (H <=? 23) && (M <=? 59) && (S <=? 59).

(** [datetime(y, m, d, H, M, S)]; [None] is [ValueError]. *)
Definition mk_datetime (y m d H M S : Z) : option datetime :=
  if valid_date y m d && valid_time H M S
  then Some (Datetime y m d H M S) else None.

(** Python compares datetimes as the tuples of their fields. *)
Fixpoint lex_compare (a b : list Z) : comparison :=
  match a, b with
  | x :: a', y :: b' =>
      match Z.compare x y with
      | Eq => lex_compare a' b'
      | c => c
      end
  | [], [] => Eq
  | [], _ :: _ => Lt
  | _ :: _, [] => Gt
  end.

Definition fields (t : datetime) : list Z :=
  [year t; month t; day t; hour t; minute t; second t].

Definition dt_compare (a b : datetime) : comparison :=
  lex_compare (fields a) (fields b).

(** [a <= b] and [a < b] on datetimes. *)
Definition dt_le (a b : datetime) : bool :=
  match dt_compare a b with Gt => false | _ => true end.

Definition dt_lt (a b : datetime) : bool :=
  match dt_compare a b with Lt => true | _ => false end.

(** ** [strptime] and [strftime] for the formats of the program *)

Definition ws : regex := Plus is_space.

Definition re_month_number (name : string) : regex :=
  Group name (alts [Seq (lit "1") (rng "0" "2");
                    Seq (lit "0") (rng "1" "9");
                    rng "1" "9"]).

(** [%m]: [1[0-2]|0[1-9]|[1-9]] *)
Definition re_m : regex := re_month_number "m".

(** [%I]: [1[0-2]|0[1-9]|[1-9]] *)
Definition re_I : regex := re_month_number "I".

(** [%d]: [3[0-1]|[1-2]\d|0[1-9]|[1-9]| [1-9]] *)
Definition re_d : regex :=
  Group "d" (alts [Seq (lit "3") (rng "0" "1");
                   Seq (rng "1" "2") dig;
                   Seq (lit "0") (rng "1" "9");
                   rng "1" "9";
                   Seq (lit " ") (rng "1" "9")]).

(** [%Y]: [\d\d\d\d] *)
Definition re_Y : regex := Group "Y" (seqs [dig; dig; dig; dig]).

(** [%M]: [[0-5]\d|\d] *)
Definition re_M : regex := Group "M" (alts [Seq (rng "0" "5") dig; dig]).

(** [%S]: [6[0-1]|[0-5]\d|\d] *)
Definition re_S : regex :=
  Group "S" (alts [Seq (lit "6") (rng "0" "1"); Seq (rng "0" "5") dig; dig]).

Definition a_month : list string :=
  ["jan"; "feb"; "mar"; "apr"; "may"; "jun";
   "jul"; "aug"; "sep"; "oct"; "nov"; "dec"].

(** [%b]: the abbreviated month names, case-insensitive. *)
Definition re_b : regex := Group "b" (alts (lit_ci <$> a_month)).

(** [%p]: [am|pm], case-insensitive. *)
Definition re_p : regex := Group "p" (alts [lit_ci "am"; lit_ci "pm"]).

(** ['%Y-%m-%d'] *)
Definition re_Y_m_d : regex := seqs [re_Y; lit "-"; re_m; lit "-"; re_d].

(** ['%b %d, %Y']: blanks of the format become [\s+]. *)
Definition re_b_d_Y : regex := seqs [re_b; ws; re_d; lit ","; ws; re_Y].

(** ['%m/%d/%Y %I:%M:%S %p'] *)
Definition re_mdY_IMS_p : regex :=
  seqs [re_m; lit "/"; re_d; lit "/"; re_Y; ws;
        re_I; lit ":"; re_M; lit ":"; re_S; ws; re_p].

Definition string_lower (s : string) : string :=
  string_of_list_ascii (lower <$> list_ascii_of_string s).

(** [a_month.index(name)], counted from January = 1. *)
Fixpoint month_index (name : string) (names : list string) (i : Z) : Z :=
  match names with
  | [] => 0
  | n :: names' => if String.eqb n name then i else month_index name names' (i + 1)
  end.

(** The whole input must be consumed by the first match, otherwise
    [strptime] raises [ValueError] ("unconverted data remains"). *)
Definition full_match (r : regex) (s : string) : option captures :=
  match re_match_prefix r s with
  | Some (EmptyString, caps) => Some caps
  | _ => None
  end.

(** [datetime.strptime(s, '%Y-%m-%d')]; [None] is [ValueError]. *)
Definition strptime_Y_m_d (s : string) : option datetime :=
  caps ← full_match re_Y_m_d s;
  mk_datetime (int_of_string (group "Y" caps)) (int_of_string (group "m" caps))
              (int_of_string (group "d" caps)) 0 0 0.

(** [datetime.strptime(s, '%b %d, %Y')] *)
Definition strptime_b_d_Y (s : string) : option datetime :=
  caps ← full_match re_b_d_Y s;
  mk_datetime (int_of_string (group "Y" caps))
              (month_index (string_lower (group "b" caps)) a_month 1)
              (int_of_string (group "d" caps)) 0 0 0.

(** The 12-hour clock of [%I] with [%p]. *)
Definition hour_of (I : Z) (ampm : string) : Z :=
  if String.eqb ampm "am" then (if I =? 12 then 0 else I)
  else (if I =? 12 then 12 else I + 12).

(** [datetime.strptime(s, '%m/%d/%Y %I:%M:%S %p')] *)
Definition strptime_mdY_IMS_p (s : string) : option datetime :=
  caps ← full_match re_mdY_IMS_p s;
  mk_datetime (int_of_string (group "Y" caps)) (int_of_string (group "m" caps))
              (int_of_string (group "d" caps))
              (hour_of (int_of_string (group "I" caps))
                       (string_lower (group "p" caps)))
              (int_of_string (group "M" caps)) (int_of_string (group "S" caps)).

(** [t.strftime('%Y-%m-%d')]; a year below 1000 is taken as padded to
    four digits (the C library decides this). *)
Definition strftime_Y_m_d (t : datetime) : string :=
  pad4 (year t) +:+ "-" +:+ pad2 (month t) +:+ "-" +:+ pad2 (day t).

(** [t.strftime('%H:%M')] *)
Definition strftime_H_M (t : datetime) : string :=
  pad2 (hour t) +:+ ":" +:+ pad2 (minute t).

(** ** The files the programs read

    A file that is absent, unreadable or (for the JSON window
    descriptor) not an object with the two string fields is [None]. *)

Record files : Type := Files {
  time_window_json : option (string * string);  (* start_date, end_date *)
  blacklist_txt : option string;
  whitelist_txt : option string;
  rmv_url_txt : option string
}.

(** What the programs print, line by line; the text of a caught
    exception is not modelled. *)
Inductive line : Type :=
| ErrorLoadingTimeWindow
| ErrorLoadingUrl
| ErrorLoadingDataFile
| AlertHeader
| AlertEntry (location date : string) (times : list string)
| MatchingFound
| ErrorLaunchingFirefox
| FirefoxNotFound
| LoadedUrl (url : string)
| BlacklistLocation (i : nat) (location : string)
| ProcessingLocation (i : nat) (location : string)
| ErrorProcessingLocation (i : nat)
| CouldNotRecover
| NotInWhitelist (location : string)
| MovedToBlacklist (location : string)
| AddedToWhitelist (locations : list string)
| Executing (snapshot_file : Z).

(** [load_list(filename)], the same function in [browse.py], [alert.py]
    and [analyze.py]; the content is the text as read in text mode (line
    ends already translated to LF). *)
Definition load_list (file : option string) : gset string :=
  match file with
  | None => ∅
  | Some content =>
      list_to_set (strip <$> filter (λ l, strip l ≠ "") (readlines content))
  end.

Definition default_window : datetime * datetime :=
  (Datetime 2025 3 24 0 0 0, Datetime 2025 4 24 0 0 0).

(** [load_time_window()]: any failure prints a line and falls back to the
    default dates. *)
Definition load_time_window (fs : files) : (datetime * datetime) * list line :=
  match time_window_json fs with
  | Some (s, e) =>
      match strptime_Y_m_d s, strptime_Y_m_d e with
      | Some start_date, Some end_date => ((start_date, end_date), [])
      | _, _ => (default_window, [ErrorLoadingTimeWindow])
      end
  | None => (default_window, [ErrorLoadingTimeWindow])
  end.

(** [is_alert_date(date_str)]: the answer and what was printed on the way.
    The [ValueError] of a malformed [date_str] is caught and answered
    [False]; nothing is printed for it. *)
Definition is_alert_date (fs : files) (date_str : string) : bool * list line :=
  match strptime_Y_m_d date_str with
  | Some date =>
      let '((start_date, end_date), out) := load_time_window fs in
      (dt_le start_date date && dt_lt date end_date, out)
  | None => (false, [])
  end.

(** [sorted(times)] on strings: ascending in code-point order
    ([String.le] is the order of [String.leb]). *)
Definition sorted (l : list string) : list string := merge_sort String.le l.

(** ** Python dicts with string keys, in insertion order *)

Module PyDict.

Definition dict (V : Type) : Type := list (string * V).

(** [d.get(k)] *)
Fixpoint get {V} (k : string) (d : dict V) : option V :=
  match d with
  | [] => None
  | (k', v) :: d' => if String.eqb k' k then Some v else get k d'
  end.

(** [d[k] = v]: an existing key keeps its position. *)
Fixpoint set {V} (k : string) (v : V) (d : dict V) : dict V :=
  match d with
  | [] => [(k, v)]
  | (k', v') :: d' =>
      if String.eqb k' k then (k, v) :: d' else (k', v') :: set k v d'
  end.

(** [k in d] *)
Definition contains {V} (k : string) (d : dict V) : bool :=
  if get k d is Some _ then true else false.

Definition keys {V} (d : dict V) : list string := fst <$> d.

End PyDict.

(** ** [alert.py] *)

Module Alert.

Record alert : Type := MkAlert {
  location : string;
  date : string;
  times : list string;
  url : string
}.

(** The JSON snapshot as loaded: location, date, times, each dict in
    file order. *)
Definition snapshot : Type := PyDict.dict (PyDict.dict (list string)).

Inductive firefox : Type := FirefoxOk | FirefoxFails | FirefoxMissing.

Record world : Type := World {
  w_files : files;
  w_data : option snapshot;    (* [None]: the data file does not load *)
  w_firefox : firefox          (* how a launch of the viewer ends *)
}.

(** A started subprocess. *)
Inductive launch : Type :=
| LaunchUrl (u : string)
| LaunchNotify (location : string).

Record report : Type := Report {
  alerts : list alert;
  match_found : bool;
  stdout : list line;
  launched : list launch
}.

Inductive result : Type :=
| SysExit (code : Z) (out : list line)
| Returned (r : report).

(** The loop state of the analysis. *)
Record scan : Type := Scan {
  s_alerts : list alert;
  s_match : bool;
  s_out : list line
}.

(** [for date, times in dates.items(): ...] *)
Fixpoint scan_dates (fs : files) (u loc : string)
    (dates : list (string * list string)) (st : scan) : scan :=
  match dates with
  | [] => st
  | (d, ts) :: dates' =>
      let '(b, out) := is_alert_date fs d in
      let st' :=
        if b then
          Scan (s_alerts st ++ [MkAlert loc d (sorted ts) u])
               (if ts is [] then s_match st else true)
               (s_out st ++ out)
        else Scan (s_alerts st) (s_match st) (s_out st ++ out) in
      scan_dates fs u loc dates' st'
  end.

(** [for location, dates in data.items(): ...] *)
Fixpoint scan_locations (fs : files) (u : string) (blacklist : gset string)
    (data : snapshot) (st : scan) : scan :=
  match data with
  | [] => st
  | (loc, dates) :: data' =>
      if bool_decide (loc ∈ blacklist)
      then scan_locations fs u blacklist data' st
      else scan_locations fs u blacklist data' (scan_dates fs u loc dates st)
  end.

(** The summary loop: one entry for the first alert of each location. *)
Fixpoint print_alerts (l : list alert) (locations_printed : list string)
    : list line :=
  match l with
  | [] => []
  | a :: l' =>
      if bool_decide (location a ∈ locations_printed)
      then print_alerts l' locations_printed
      else AlertEntry (location a) (date a) (times a)
             :: print_alerts l' (locations_printed ++ [location a])
  end.

(** [subprocess.run(['firefox', ...], check=True)] with its handlers. *)
Definition run_firefox (fx : firefox) : list line :=
  match fx with
  | FirefoxOk => []
  | FirefoxFails => [ErrorLaunchingFirefox]
  | FirefoxMissing => [FirefoxNotFound]
  end.

(** The notification loop: one viewer per distinct location. *)
Fixpoint notify (fx : firefox) (l : list alert) (unique_locations : list string)
    : list launch * list line :=
  match l with
  | [] => ([], [])
  | a :: l' =>
      if bool_decide (location a ∈ unique_locations)
      then notify fx l' unique_locations
      else
        let '(ls, out) := notify fx l' (unique_locations ++ [location a]) in
        (LaunchNotify (location a) :: ls, run_firefox fx ++ out)
  end.

(** [analyze_appointments(data_file)] *)
Definition analyze_appointments (w : world) : result :=
  match rmv_url_txt (w_files w) with
  | None => SysExit 1 [ErrorLoadingUrl]
  | Some content =>
      let u := strip content in
      let blacklist := load_list (blacklist_txt (w_files w)) in
      match w_data w with
      | None => Returned (Report [] false [ErrorLoadingDataFile] [])
      | Some data =>
          let st := scan_locations (w_files w) u blacklist data (Scan [] false []) in
          let summary :=
            if s_alerts st is [] then []
            else AlertHeader :: print_alerts (s_alerts st) [] in
          if s_match st then
            let '(ls, out) := notify (w_firefox w) (s_alerts st) [] in
            Returned (Report (s_alerts st) true
                        (s_out st ++ summary ++ [MatchingFound]
                           ++ run_firefox (w_firefox w) ++ out)
                        (LaunchUrl u :: ls))
          else
            Returned (Report (s_alerts st) false (s_out st ++ summary) [])
      end
  end.

End Alert.

(** ** [browse.py] *)

Module Browse.

(** *** The rendered page, as the locators read it

    Every element carries the attributes and texts the selectors of
    the program ask for. *)

Record slot_el : Type := SlotEl {
  text_content : string;       (* of [div.ServiceAppointmentDateTime] *)
  data_datetime : string       (* its [data-datetime] attribute *)
}.

Record group_el : Type := GroupEl {
  group_title : string;        (* text of [.group-title] *)
  group_number : string;       (* text of [.group-number] *)
  slots : list slot_el
}.

Record column_el : Type := ColumnEl {
  aria_label : string;
  groups : list group_el       (* [div.DateTimeGrouping-Group] inside *)
}.

Definition page : Type := list column_el.

(** *** The raw records *)

Record time_data : Type := TimeData {
  display : string;
  datetime_ : string           (* key ['datetime'] *)
}.

Record group_data : Type := GroupData {
  title : string;
  available_count : string;
  times : list time_data
}.

Record date_data : Type := DateData {
  day_name : string;
  full_date : string;
  time_groups : list group_data
}.

(** Of the page record only ['dates'] is read later; the buttons, the
    timestamp and the URL are left out. *)
Record page_data : Type := PageData { dates : list date_data }.

Record location_data : Type := LocationData {
  ld_location : string;
  pages : list page_data
}.

Record all_data : Type := AllData {
  locations : PyDict.dict location_data
}.

(** *** [parse_date_time_group] *)

(** [<p>([A-Za-z]+)</p><p>([A-Za-z]+ \d+, \d{4})</p>] *)
Definition re_label : regex :=
  seqs [lit "<p>"; Group "1" (Plus is_alpha); lit "</p><p>";
        Group "2" (seqs [Plus is_alpha; lit " "; Plus is_digit; lit ", ";
                         dig; dig; dig; dig]);
        lit "</p>"].

Inductive exn : Type := UnboundLocalError.

Inductive outcome (A : Type) : Type :=
| Return (a : A)
| Raise (e : exn).
Arguments Return {A} a.
Arguments Raise {A} e.

(** The inner loop over the slots of one group. *)
Definition read_slots (els : list slot_el) : list time_data :=
  foldl (λ acc el, acc ++ [TimeData (text_content el) (data_datetime el)]) [] els.

(** The record built in one round of the loop over the groups. *)
Definition read_group (el : group_el) : group_data :=
  GroupData (group_title el) (group_number el) (read_slots (slots el)).

(** The loop over the groups of one column. Each round rebinds the
    function-local variable [group_data]; with no group it keeps the
    binding it had on entry ([None]: not bound yet). *)
Definition read_groups (els : list group_el) (bound : option group_data)
    : option group_data :=
  foldl (λ _ el, Some (read_group el)) bound els.

(** The locals that survive from one column to the next. *)
Record locals : Type := Locals {
  l_dates : list date_data;
  l_group_data : option group_data
}.

(** What one column is to the parser. *)
Inductive column_kind : Type :=
| Unparsed                                  (* the label does not match *)
| BadDate                                   (* [strptime] raises *)
| OutsideWindow
| InWindow (day_name full_date : string).

Definition classify (fs : files) (col : column_el) : column_kind :=
  match re_search re_label (aria_label col) with
  | None => Unparsed
  | Some caps =>
      let day_name := group "1" caps in
      let full_date := group "2" caps in
      match strptime_b_d_Y full_date with
      | None => BadDate
      | Some date_obj =>
          if fst (is_alert_date fs (strftime_Y_m_d date_obj))
          then InWindow day_name full_date
          else OutsideWindow
      end
  end.

(** One round of the loop over the columns. [date_data['time_groups']
    .append(group_data)] stands after the group loop, so it runs once
    per column and reads whatever [group_data] is bound to. *)
Definition parse_column (fs : files) (col : column_el) (st : locals)
    : outcome locals :=
  match classify fs col with
  | InWindow day_name full_date =>
      match read_groups (groups col) (l_group_data st) with
      | None => Raise UnboundLocalError
      | Some g =>
          Return (Locals (l_dates st ++ [DateData day_name full_date [g]]) (Some g))
      end
  | _ => Return st
  end.

Fixpoint parse_columns (fs : files) (cols : list column_el) (st : locals)
    : outcome locals :=
  match cols with
  | [] => Return st
  | col :: cols' =>
      match parse_column fs col st with
      | Return st' => parse_columns fs cols' st'
      | Raise e => Raise e
      end
  end.

(** [parse_date_time_group(page, location)]; the progress lines it
    prints are not modelled. *)
Definition parse_date_time_group (fs : files) (p : page) : outcome (list date_data) :=
  match parse_columns fs p (Locals [] None) with
  | Return st => Return (l_dates st)
  | Raise e => Raise e
  end.

(** [get_page_data(page, location, max_retries)]: every attempt reads
    the same rendering; after the last failed attempt the record is
    returned with no dates. *)
Fixpoint get_page_data_from (fs : files) (p : page) (attempts : nat) : page_data :=
  match attempts with
  | O => PageData []
  | S n =>
      match parse_date_time_group fs p with
      | Return ds => PageData ds
      | Raise _ => get_page_data_from fs p n
      end
  end.

Definition get_page_data (fs : files) (p : page) : page_data :=
  get_page_data_from fs p 3.

(** *** [transform_data] *)

(** [transformed[location][iso_date].append(time_str)] *)
Definition append_time (iso_date time_str : string)
    (by_date : PyDict.dict (list string)) : PyDict.dict (list string) :=
  PyDict.set iso_date (default [] (PyDict.get iso_date by_date) ++ [time_str]) by_date.

Definition transform_slot (iso_date : string) (by_date : PyDict.dict (list string))
    (td : time_data) : PyDict.dict (list string) :=
  match strptime_mdY_IMS_p (datetime_ td) with
  | Some time_obj => append_time iso_date (strftime_H_M time_obj) by_date
  | None => by_date
  end.

Definition transform_group (iso_date : string) (by_date : PyDict.dict (list string))
    (g : group_data) : PyDict.dict (list string) :=
  foldl (transform_slot iso_date) by_date (times g).

Definition transform_date (by_date : PyDict.dict (list string)) (dd : date_data)
    : PyDict.dict (list string) :=
  match strptime_b_d_Y (full_date dd) with
  | None => by_date
  | Some date_obj =>
      let iso_date := strftime_Y_m_d date_obj in
      let by_date' :=
        if PyDict.contains iso_date by_date then by_date
        else PyDict.set iso_date [] by_date in
      foldl (transform_group iso_date) by_date' (time_groups dd)
  end.

Definition transform_page (by_date : PyDict.dict (list string)) (pd : page_data)
    : PyDict.dict (list string) :=
  foldl transform_date by_date (dates pd).

(** [transformed[location]] is created empty and filled in place
    during the round of its location. *)
Definition transform_location (transformed : PyDict.dict (PyDict.dict (list string)))
    (item : string * location_data) : PyDict.dict (PyDict.dict (list string)) :=
  PyDict.set item.1 (foldl transform_page [] (pages item.2)) transformed.

Definition transform_data (a : all_data) : PyDict.dict (PyDict.dict (list string)) :=
  foldl transform_location [] (locations a).

(** How a [try] block ends, with the state it leaves. *)
Inductive outcome' (A : Type) : Type :=
| Done (a : A)
| Raised (a : A).
Arguments Done {A} a.
Arguments Raised {A} a.

(** *** [test_list_buttons]: the traversal and what follows it

    The browser is scripted: for the [i]-th town button the script
    says what the steps of the loop body meet. *)

Record town : Type := Town {
  button_text : option string;          (* [None]: reading the button raises *)
  visit : option (page * list page);    (* the first page and those behind
                                           "next"; [None]: a step raises
                                           before the data is stored *)
  return_ok : bool;                     (* the [page.goto(url)] closing the body *)
  recover_ok : bool                     (* the [page.goto(url)] of the handler *)
}.

Record run : Type := Run {
  r_files : files;
  r_towns : list town;
  r_blacklist_arg : option string;      (* [--blacklist] *)
  r_time : Z                            (* [int(time.time())] *)
}.

(** The state of the loop over the towns. *)
Record trav : Type := Trav {
  t_locations : PyDict.dict location_data;
  t_out : list line;
  t_recoveries : list (nat * bool)      (* town index, recovery succeeded *)
}.

Definition say (l : line) (st : trav) : trav :=
  Trav (t_locations st) (t_out st ++ [l]) (t_recoveries st).

(** The [try] block for town [i]. *)
Definition town_body (fs : files) (blacklist : gset string) (i : nat) (t : town)
    (st : trav) : outcome' trav :=
  match button_text t with
  | None => Raised st
  | Some txt =>
      let location := strip txt in
      if bool_decide (location ∈ blacklist)
      then Done (say (BlacklistLocation (S i) location) st)
      else
        let st1 := say (ProcessingLocation (S i) location) st in
        match visit t with
        | None => Raised st1
        | Some (p, ps) =>
            let location_data :=
              LocationData location (get_page_data fs <$> (p :: ps)) in
            let st2 :=
              Trav (PyDict.set location location_data (t_locations st1))
                   (t_out st1) (t_recoveries st1) in
            if return_ok t then Done st2 else Raised st2
        end
  end.

(** [for i in range(town_count): try: ... except Exception: ...];
    a failed recovery leaves the loop by [break]. *)
Fixpoint visit_towns (fs : files) (blacklist : gset string) (i : nat)
    (towns : list town) (st : trav) : trav :=
  match towns with
  | [] => st
  | t :: towns' =>
      match town_body fs blacklist i t st with
      | Done st' => visit_towns fs blacklist (S i) towns' st'
      | Raised st' =>
          let st'' :=
            Trav (t_locations st') (t_out st' ++ [ErrorProcessingLocation (S i)])
                 (t_recoveries st' ++ [(i, recover_ok t)]) in
          if recover_ok t
          then visit_towns fs blacklist (S i) towns' st''
          else say CouldNotRecover st''
      end
  end.

(** [save_list(filename, items)] writes the sorted items. *)
Definition save_list (items : gset string) : list string := sorted (elements items).

Record finished : Type := Finished {
  f_out : list line;
  f_recoveries : list (nat * bool);
  f_whitelist_saved : option (list string);
  f_blacklist_saved : option (list string);
  f_snapshot : option (Z * PyDict.dict (PyDict.dict (list string)));
  f_alert_run : option Z                (* [alert.py] started on that file *)
}.

Inductive result : Type :=
| SysExit (code : Z) (out : list line)
| Returns (r : finished).

(** The exit status of the process. *)
Definition exit_code (r : result) : Z :=
  match r with
  | SysExit code _ => code
  | Returns _ => 0
  end.

(** [if args.blacklist:] holds for an argument that is present and not
    the empty string. *)
Definition given (arg : option string) : option string :=
  match arg with
  | Some EmptyString => None
  | _ => arg
  end.

(** [test_list_buttons()]; what the child process prints is not part
    of the model. *)
Definition test_list_buttons (r : run) : result :=
  let fs := r_files r in
  let blacklist := load_list (blacklist_txt fs) in
  let whitelist := load_list (whitelist_txt fs) in
  match rmv_url_txt fs with
  | None => SysExit 1 [ErrorLoadingUrl]
  | Some content =>
      let st0 := Trav [] [LoadedUrl (strip content)] [] in
      let st := visit_towns fs blacklist 0 (r_towns r) st0 in
      match given (r_blacklist_arg r) with
      | Some b =>
          if bool_decide (b ∈ whitelist) then
            Returns (Finished (t_out st ++ [MovedToBlacklist b]) (t_recoveries st)
                       (Some (save_list (whitelist ∖ {[b]})))
                       (Some (save_list (blacklist ∪ {[b]}))) None None)
          else
            Returns (Finished (t_out st ++ [NotInWhitelist b]) (t_recoveries st)
                       None None None None)
      | None =>
          let current_locations : gset string :=
            list_to_set (PyDict.keys (t_locations st)) in
          let new_locations := current_locations ∖ blacklist ∖ whitelist in
          let added := bool_decide (new_locations ≠ ∅) in
          let transformed_data := transform_data (AllData (t_locations st)) in
          Returns (Finished
                     (t_out st
                        ++ (if added then [AddedToWhitelist (sorted (elements new_locations))]
                            else [])
                        ++ [Executing (r_time r)])
                     (t_recoveries st)
                     (if added then Some (save_list (whitelist ∪ new_locations)) else None)
                     None
                     (Some (r_time r, transformed_data))
                     (Some (r_time r)))
      end
  end.

End Browse.

(** ** Notions of the specification *)

(** [datetime(y, m, d)] *)
Definition midnight (y m d : Z) : datetime := Datetime y m d 0 0 0.

(** The ISO text [YYYY-MM-DD] of a calendar date. *)
Definition iso (y m d : Z) : string := strftime_Y_m_d (midnight y m d).

(** Chronological order on calendar dates. *)
Definition date_before (a b : datetime) : Prop :=
  year a < year b
  ∨ (year a = year b
     ∧ (month a < month b ∨ (month a = month b ∧ day a < day b))).

Definition same_date (a b : datetime) : Prop :=
  year a = year b ∧ month a = month b ∧ day a = day b.

Definition date_not_after (a b : datetime) : Prop := date_before a b ∨ same_date a b.

(** The answer of [is_alert_date] alone. *)
Definition in_window (fs : files) (d : string) : bool := (is_alert_date fs d).1.

(** The locations of the summary entries among printed lines, in order. *)
Definition printed_locations (out : list line) : list string :=
  omap (λ l, if l is AlertEntry loc _ _ then Some loc else None) out.

(** The locations for which a notification viewer was started, in order. *)
Definition notified (ls : list Alert.launch) : list string :=
  omap (λ l, if l is Alert.LaunchNotify loc then Some loc else None) ls.

(** ** The matcher in the words of the specification *)

Module Matcher.
Import Alert.

(** The alert records of one location: one per in-window date. *)
Definition date_alerts (fs : files) (u loc : string)
    (dates : list (string * list string)) : list alert :=
  '(d, ts) ← dates; if in_window fs d then [MkAlert loc d (sorted ts) u] else [].

(** The alert records of a snapshot: those of its locations that are
    not blacklisted. *)
Definition snapshot_alerts (fs : files) (u : string) (blacklist : gset string)
    (data : snapshot) : list alert :=
  '(loc, dates) ← data;
  if bool_decide (loc ∈ blacklist) then [] else date_alerts fs u loc dates.

End Matcher.

(** ** Sample inputs *)

Module Sample.
Import Alert.

Definition window_file : option (string * string) :=
  Some ("2025-03-24", "2025-04-24").

Definition fs : files :=
  Files window_file None None (Some "https://rmv.example/").

Definition fs_blacklisting (content : string) : files :=
  Files window_file (Some content) None (Some "https://rmv.example/").

(** One in-window date without times. *)
Definition empty_date : snapshot := [("Boston", [("2025-04-01", [])])].

(** Two in-window dates without times. *)
Definition empty_dates : snapshot :=
  [("Boston", [("2025-04-01", []); ("2025-04-02", [])])].

(** Boston has times on its second date only, Lowell has none. *)
Definition mixed : snapshot :=
  [("Boston", [("2025-04-01", []); ("2025-04-02", ["10:30"; "09:00"])]);
   ("Lowell", [("2025-04-03", [])])].

(** Two locations with in-window times on two dates each. *)
Definition busy : snapshot :=
  [("Boston", [("2025-04-02", ["10:30"; "09:00"]); ("2025-04-03", ["08:00"])]);
   ("Lowell", [("2025-04-03", ["11:15"]); ("2025-05-03", ["11:15"])])].

End Sample.

(** What [analyze_appointments] reports on the samples. *)
Module SampleReport.
Import Alert.

Definition u : string := "https://rmv.example/".

Definition busy_without_lowell : report :=
  Report [MkAlert "Boston" "2025-04-02" ["09:00"; "10:30"] u;
          MkAlert "Boston" "2025-04-03" ["08:00"] u]
         true
         [AlertHeader; AlertEntry "Boston" "2025-04-02" ["09:00"; "10:30"];
          MatchingFound]
         [LaunchUrl u; LaunchNotify "Boston"].

Definition busy : report :=
  Report [MkAlert "Boston" "2025-04-02" ["09:00"; "10:30"] u;
          MkAlert "Boston" "2025-04-03" ["08:00"] u;
          MkAlert "Lowell" "2025-04-03" ["11:15"] u]
         true
         [AlertHeader; AlertEntry "Boston" "2025-04-02" ["09:00"; "10:30"];
          AlertEntry "Lowell" "2025-04-03" ["11:15"]; MatchingFound]
         [LaunchUrl u; LaunchNotify "Boston"; LaunchNotify "Lowell"].

Definition mixed : report :=
  Report [MkAlert "Boston" "2025-04-01" [] u;
          MkAlert "Boston" "2025-04-02" ["09:00"; "10:30"] u;
          MkAlert "Lowell" "2025-04-03" [] u]
         true
         [AlertHeader; AlertEntry "Boston" "2025-04-01" [];
          AlertEntry "Lowell" "2025-04-03" []; MatchingFound]
         [LaunchUrl u; LaunchNotify "Boston"; LaunchNotify "Lowell"].

Definition empty_dates : report :=
  Report [MkAlert "Boston" "2025-04-01" [] u; MkAlert "Boston" "2025-04-02" [] u]
         false
         [AlertHeader; AlertEntry "Boston" "2025-04-01" []]
         [].

Definition empty_date : report :=
  Report [MkAlert "Boston" "2025-04-01" [] u]
         false
         [AlertHeader; AlertEntry "Boston" "2025-04-01" []]
         [].

End SampleReport.

(** ** The normalizer in the words of the specification *)

Module Normal.
Import Browse.

(** The ISO date a date group is filed under, if its date parses. *)
Definition iso_date_of (dd : date_data) : option string :=
  strftime_Y_m_d <$> strptime_b_d_Y (full_date dd).

(** The [HH:MM] time of a slot, if its machine time parses. *)
Definition slot_time (td : time_data) : option string :=
  strftime_H_M <$> strptime_mdY_IMS_p (datetime_ td).

Definition group_times (g : group_data) : list string := omap slot_time (times g).

Definition date_times (dd : date_data) : list string :=
  g ← time_groups dd; group_times g.

(** All times that a run of date groups contributes to one ISO date, in
    the order of the groups and slots. *)
Definition contributed_in (iso_date : string) (dds : list date_data) : list string :=
  dd ← dds; if decide (iso_date_of dd = Some iso_date) then date_times dd else [].

Definition present_in (iso_date : string) (dds : list date_data) : bool :=
  bool_decide (Exists (λ dd, iso_date_of dd = Some iso_date) dds).

(** The date groups of all pages of a location, page after page. *)
Definition all_dates (ld : location_data) : list date_data :=
  pd ← pages ld; dates pd.

Definition contributed (iso_date : string) (ld : location_data) : list string :=
  contributed_in iso_date (all_dates ld).

(** The time list the specification asks for: the sorted union without
    duplicates. *)
Definition sorted_union (iso_date : string) (ld : location_data) : list string :=
  sorted (remove_dups (contributed iso_date ld)).

(** [transformed[location][iso_date]], if both keys are there. *)
Definition lookup (loc iso_date : string)
    (t : PyDict.dict (PyDict.dict (list string))) : option (list string) :=
  PyDict.get loc t ≫= PyDict.get iso_date.

(** Two pages for one location and date, contributing
    ["09:00","10:30"] and ["10:30","09:00","11:00"]. *)
Definition slot (hm : string) : time_data :=
  TimeData hm ("04/10/2025 " +:+ hm +:+ ":00 AM").

Definition page_with (hms : list string) : page_data :=
  PageData [DateData "Thursday" "Apr 10, 2025" [GroupData "Morning" "" (slot <$> hms)]].

Definition two_pages : location_data :=
  LocationData "Boston" [page_with ["09:00"; "10:30"];
                         page_with ["10:30"; "09:00"; "11:00"]].

Definition two_pages_data : all_data := AllData [("Boston", two_pages)].

End Normal.

(** ** The page extractor in the words of the specification *)

Module Extract.
Import Browse.


(** The records the specification asks for: one per time group. *)
Definition all_groups (col : column_el) : list group_data :=
  read_group <$> groups col.

Definition morning : group_el :=
  GroupEl "Morning" "2" [SlotEl "9:00 AM" "04/10/2025 09:00:00 AM";
                         SlotEl "10:30 AM" "04/10/2025 10:30:00 AM"].

Definition afternoon : group_el :=
  GroupEl "Afternoon" "1" [SlotEl "1:00 PM" "04/10/2025 01:00:00 PM"].

(** A column in the default window with two time groups. *)
Definition thursday : column_el :=
  ColumnEl "<p>Thursday</p><p>Apr 10, 2025</p>" [morning; afternoon].

(** A column in the default window without any time group. *)
Definition friday : column_el :=
  ColumnEl "<p>Friday</p><p>Apr 11, 2025</p>" [].

(** A column after the default window. *)
Definition in_may : column_el :=
  ColumnEl "<p>Monday</p><p>May 12, 2025</p>" [morning].

Definition no_files : files := Files None None None None.

End Extract.

(** ** The traversal in the words of the specification *)

Module Traverse.
Import Browse.

(** The [try] block of the town raises. *)
Definition raises (bl : gset string) (t : town) : bool :=
  match button_text t with
  | None => true
  | Some txt =>
      if bool_decide (strip txt ∈ bl) then false
      else match visit t with
           | None => true
           | Some _ => negb (return_ok t)
           end
  end.

(** The town raises and the recovery fails as well. *)
Definition fatal (bl : gset string) (t : town) : bool :=
  raises bl t && negb (recover_ok t).

(** The loop gets as far as town [i]. *)
Definition reached (bl : gset string) (towns : list town) (i : nat) : Prop :=
  ∀ j t, (j < i)%nat → towns !! j = Some t → fatal bl t = false.

(** A run whose only town raises at the click and cannot be recovered. *)
Definition stuck_town : town := Town (Some "Boston") None true false.

Definition stuck_run : run := Run Sample.fs [stuck_town] None 1743000000.

Definition stuck_report : finished :=
  Finished [LoadedUrl "https://rmv.example/"; ProcessingLocation 1 "Boston";
            ErrorProcessingLocation 1; CouldNotRecover; Executing 1743000000]
           [(0%nat, false)] None None
           (Some (1743000000, [])) (Some 1743000000).

End Traverse.

(** ** List files in the words of the specification *)

Module Lines.

(** Only whitespace. *)
Fixpoint all_space (s : string) : bool :=
  match s with
  | EmptyString => true
  | String c s' => is_space c && all_space s'
  end.

Definition starts_clean (t : string) : Prop :=
  ∀ c t', t = String c t' → is_space c = false.

Definition ends_clean (t : string) : Prop :=
  ∀ c t', t = t' +:+ String c "" → is_space c = false.

(** [t] is [s] with the surrounding whitespace taken off. *)
Definition stripped (s t : string) : Prop :=
  ∃ a b, s = a +:+ t +:+ b
    ∧ all_space a = true ∧ all_space b = true
    ∧ starts_clean t ∧ ends_clean t.

(** The lines put together again. *)
Definition join (ls : list string) : string := foldr String.append "" ls.

Definition nl : string := String "010" "".

(** A list file with blanks around a name, an empty line and a last
    line without newline. *)
Definition sample_file : string := " Boston  " +:+ nl +:+ nl +:+ "Lowell".

End Lines.

(** ** [analyze.py] *)

(** [%H]: [2[0-3]|[0-1]\d|\d] *)
Definition re_H : regex :=
  Group "H" (alts [Seq (lit "2") (rng "0" "3"); Seq (rng "0" "1") dig; dig]).

(** ['%H:%M'] *)
Definition re_H_M : regex := seqs [re_H; lit ":"; re_M].

(** [datetime.strptime(s, '%H:%M')]: a time on 1900-01-01. *)
Definition strptime_H_M (s : string) : option datetime :=
  caps ← full_match re_H_M s;
  mk_datetime 1900 1 1 (int_of_string (group "H" caps))
              (int_of_string (group "M" caps)) 0.

(** [datetime.combine(d.date(), t.time())] *)
Definition combine (d t : datetime) : datetime :=
  Datetime (year d) (month d) (day d) (hour t) (minute t) (second t).

Module Analyze.

(** The snapshots of the data directory: [timestamps] and [data] of the
    dict the loader builds. *)
Record data_files : Type := DataFiles {
  timestamps : list string;
  data : PyDict.dict Alert.snapshot
}.

(** The loader returns the empty dict or a dict with both keys. *)
Inductive loaded : Type :=
| NoKeys
| Loaded (d : data_files).

Record info : Type := Info {
  i_datetime : datetime;
  i_date : string;
  i_time : string;
  i_location : string;
  i_timestamp : string
}.

Record analysis : Type := Analysis {
  a_locations : list string;
  a_dates : list string;
  earliest_appointment : option info
}.

Inductive line : Type :=
| LoadedBlacklist (n : nat)
| LoadingDataFiles
| DataDirNotFound
| NoJsonFiles
| ErrorLoadingFile (stem : string)
| NoDataLoaded
| LoadedFiles (n : nat) (stamps : list string)
| Filtering
| Analyzing
| WarningDateTime (date time : string)
| Results (a : analysis).

(** The data directory: [None] when it does not exist, else the stem of
    every [*.json] file, in the order the directory lists them, with its
    content when that loads as JSON (a snapshot as [browse.py] writes
    it). *)
Definition directory : Type := option (list (string * option Alert.snapshot)).

(** The loop over the files. *)
Definition load_file (st : list string * PyDict.dict Alert.snapshot * list line)
    (file : string * option Alert.snapshot)
    : list string * PyDict.dict Alert.snapshot * list line :=
  let '(stamps, d, out) := st in
  match file.2 with
  | Some content => (stamps ++ [file.1], PyDict.set file.1 content d, out)
  | None => (stamps, d, out ++ [ErrorLoadingFile file.1])
  end.

(** [load_data_files()] *)
Definition load_data_files (dir : directory) : loaded * list line :=
  match dir with
  | None => (NoKeys, [DataDirNotFound])
  | Some [] => (NoKeys, [NoJsonFiles])
  | Some files =>
      let '(stamps, d, out) := foldl load_file ([], [], []) files in
      (Loaded (DataFiles (sorted stamps) d), out)
  end.

(** The dict comprehension over the locations of one snapshot. *)
Definition keep_locations (blacklist : gset string)
    (snap : list (string * PyDict.dict (list string)))
    : list (string * PyDict.dict (list string)) :=
  filter (λ item, item.1 ∉ blacklist) snap.

(** [filter_blacklisted_locations(data, blacklist)] *)
Definition filter_blacklisted_locations (d : data_files) (blacklist : gset string)
    : data_files :=
  DataFiles (timestamps d)
    (foldl (λ acc item, PyDict.set item.1 (keep_locations blacklist item.2) acc)
       [] (data d)).

(** The first pass of [analyze_data]: the sets of locations and dates. *)
Definition add_location (acc : gset string * gset string)
    (item : string * PyDict.dict (list string)) : gset string * gset string :=
  foldl (λ acc' date, (acc'.1, acc'.2 ∪ {[date]}))
        (acc.1 ∪ {[item.1]}, acc.2) (PyDict.keys item.2).

Definition add_snapshot (acc : gset string * gset string)
    (item : string * Alert.snapshot) : gset string * gset string :=
  foldl add_location acc item.2.

Definition collect (d : data_files) : gset string * gset string :=
  foldl add_snapshot (∅, ∅) (data d).

(** The second pass: one round of the innermost loop. *)
Definition consider (timestamp location : string)
    (st : option info * list line) (item : string * list string)
    : option info * list line :=
  let '(date, times) := item in
  match times with
  | [] => st
  | time :: _ =>
      match strptime_Y_m_d date, strptime_H_M time with
      | Some date_obj, Some time_obj =>
          let appointment_dt := combine date_obj time_obj in
          let better :=
            match st.1 with
            | None => true
            | Some earliest => dt_lt appointment_dt (i_datetime earliest)
            end in
          if better
          then (Some (Info appointment_dt date time location timestamp), st.2)
          else st
      | _, _ => (st.1, st.2 ++ [WarningDateTime date time])
      end
  end.

Definition consider_location (timestamp : string) (st : option info * list line)
    (item : string * PyDict.dict (list string)) : option info * list line :=
  foldl (consider timestamp item.1) st item.2.

Definition consider_snapshot (st : option info * list line)
    (item : string * Alert.snapshot) : option info * list line :=
  foldl (consider_location item.1) st item.2.

(** [analyze_data(data)] and the warnings it prints. *)
Definition analyze_data (d : data_files) : analysis * list line :=
  let '(locs, dates) := collect d in
  let '(earliest, out) := foldl consider_snapshot (None, []) (data d) in
  (Analysis (sorted (elements locs)) (sorted (elements dates)) earliest, out).

Record world : Type := World {
  w_blacklist : option string;          (* [blacklist.txt] *)
  w_dir : directory
}.

Inductive result : Type :=
| RaisesKeyError (out : list line)      (* [data['timestamps']] on [{}] *)
| Returns (out : list line)
| EntersShell (out : list line) (d : data_files) (a : analysis).

(** [main()], up to the interactive shell. *)
Definition main (w : world) : result :=
  let blacklist := load_list (w_blacklist w) in
  let listed := bool_decide (blacklist ≠ ∅) in
  let out0 :=
    (if listed then [LoadedBlacklist (size blacklist)] else []) ++ [LoadingDataFiles] in
  let '(l, out1) := load_data_files (w_dir w) in
  match l with
  | NoKeys => RaisesKeyError (out0 ++ out1)
  | Loaded d =>
      match timestamps d with
      | [] => Returns (out0 ++ out1 ++ [NoDataLoaded])
      | _ :: _ =>
          let out2 := out0 ++ out1 ++ [LoadedFiles (length (timestamps d)) (timestamps d)] in
          let d' := if listed then filter_blacklisted_locations d blacklist else d in
          let out3 := out2 ++ (if listed then [Filtering] else []) ++ [Analyzing] in
          let '(a, warnings) := analyze_data d' in
          EntersShell (out3 ++ warnings ++ [Results a]) d' a
      end
  end.

End Analyze.

(** ** The page extractor, column by column *)

Module Kept.
Import Browse.

(** The day name and date of a column the extractor keeps. *)
Definition label_of (fs : files) (col : column_el) : option (string * string) :=
  match classify fs col with
  | InWindow d f => Some (d, f)
  | _ => None
  end.

(** The record of a kept column when it is built from the column alone:
    its only time group is the last group of the column. *)
Definition own_record (fs : files) (col : column_el) : option date_data :=
  match classify fs col with
  | InWindow d f => (λ el, DateData d f [read_group el]) <$> last (groups col)
  | _ => None
  end.


End Kept.

(** ** What a regular expression matches *)

Fixpoint all_chars (p : ascii → bool) (w : string) : Prop :=
  match w with
  | EmptyString => True
  | String c w' => p c = true ∧ all_chars p w'
  end.

(** The texts a regular expression matches as a whole. *)
Fixpoint lang (r : regex) (w : string) : Prop :=
  match r with
  | Eps => w = ""
  | Chr p => ∃ c, w = String c "" ∧ p c = true
  | Seq r1 r2 => ∃ w1 w2, w = w1 +:+ w2 ∧ lang r1 w1 ∧ lang r2 w2
  | Alt r1 r2 => lang r1 w ∨ lang r2 w
  | Plus p => w ≠ "" ∧ all_chars p w
  | Group _ r' => lang r' w
  end.

(** [Group name r0] is part of [r]. *)
Fixpoint has_group (name : string) (r0 r : regex) : Prop :=
  match r with
  | Group name' r' => (name' = name ∧ r' = r0) ∨ has_group name r0 r'
  | Seq r1 r2 | Alt r1 r2 => has_group name r0 r1 ∨ has_group name r0 r2
  | _ => False
  end.

(** ** Writing a list file *)

(** The text [save_list] writes: every item followed by a newline. *)
Fixpoint written (items : list string) : string :=
  match items with
  | [] => ""
  | item :: items' => item +:+ Lines.nl +:+ written items'
  end.

Definition not_char (a c : ascii) : bool := negb (Ascii.eqb a c).



(** A name that a list file gives back as it is: not empty, no
    whitespace at its ends, no line end inside. *)
Definition clean_name (s : string) : Prop :=
  s ≠ "" ∧ strip s = s ∧ all_chars (not_char "010") s ∧ all_chars (not_char "013") s.

(** ** What the analysis looks at *)

Module Analyzed.
Import Analyze.

(** The appointment a date stands for in the second pass: its first
    time, when the list is not empty and date and time parse. *)
Definition candidate (timestamp location : string) (item : string * list string)
    : list info :=
  match item.2 with
  | [] => []
  | time :: _ =>
      match strptime_Y_m_d item.1, strptime_H_M time with
      | Some date_obj, Some time_obj =>
          [Info (combine date_obj time_obj) item.1 time location timestamp]
      | _, _ => []
      end
  end.

(** These appointments in the order the loops meet them. *)
Definition candidates (d : data_files) : list info :=
  '(timestamp, snap) ← data d; '(location, dates) ← snap;
  item ← dates; candidate timestamp location item.

(** One comparison of the second pass. *)
Definition step (best : option info) (c : info) : option info :=
  match best with
  | None => Some c
  | Some e => if dt_lt (i_datetime c) (i_datetime e) then Some c else best
  end.

(** Whether a file of the directory loads. *)
Definition loads (file : string * option Alert.snapshot) : Prop := is_Some file.2.

(** Two snapshots of the sample site. *)
Definition two_files : data_files :=
  DataFiles ["1743000000"; "1743000600"]
            [("1743000000", Sample.busy); ("1743000600", Sample.mixed)].

(** A data directory with two snapshots and a file that does not load,
    beside a blacklist that names Lowell. *)
Definition sample_world : world :=
  World (Some (written ["Lowell"]))
        (Some [("1743000600", Some Sample.mixed); ("notes", None);
               ("1743000000", Some Sample.busy)]).

Definition sample_data : data_files :=
  DataFiles ["1743000000"; "1743000600"]
    [("1743000600",
      [("Boston", [("2025-04-01", []); ("2025-04-02", ["10:30"; "09:00"])])]);
     ("1743000000",
      [("Boston", [("2025-04-02", ["10:30"; "09:00"]); ("2025-04-03", ["08:00"])])])].

Definition sample_analysis : analysis :=
  Analysis ["Boston"] ["2025-04-01"; "2025-04-02"; "2025-04-03"]
    (Some (Info (Datetime 2025 4 2 10 30 0) "2025-04-02" "10:30" "Boston" "1743000600")).

Definition sample_out : list line :=
  [LoadedBlacklist 1; LoadingDataFiles; ErrorLoadingFile "notes";
   LoadedFiles 2 ["1743000000"; "1743000600"]; Filtering; Analyzing;
   Results sample_analysis].

End Analyzed.

(** ** The snapshot, entry by entry *)

Module Snapshot.

(** Location, date and times of every time list of a snapshot. *)
Definition entries (snap : Alert.snapshot) : list (string * string * list string) :=
  '(loc, dates) ← snap; '(d, ts) ← dates; [(loc, d, ts)].

(** A time as [strftime('%H:%M')] writes it. *)
Definition clock_time (t : string) : Prop :=
  ∃ H M, 0 ≤ H ≤ 23 ∧ 0 ≤ M ≤ 59 ∧ t = pad2 H +:+ ":" +:+ pad2 M.

(** A date as [strftime('%Y-%m-%d')] writes it. *)
Definition iso_date (d : string) : Prop :=
  ∃ y m dd, valid_date y m dd = true ∧ d = iso y m dd.

(** A raw record the extractor may keep: its label date parses and
    lies in the window. *)
Definition kept (fs : files) (dd : Browse.date_data) : Prop :=
  ∃ t, strptime_b_d_Y (Browse.full_date dd) = Some t
    ∧ in_window fs (strftime_Y_m_d t) = true.

(** The state a [try] block leaves, however it ends. *)
Definition left_state {A} (o : Browse.outcome' A) : A :=
  match o with
  | Browse.Done a | Browse.Raised a => a
  end.

(** The minutes since midnight that an [HH:MM] text stands for. *)
Definition clock_minutes (t : string) : Z :=
  match t with
  | String a (String b (String _ (String c (String d _)))) =>
      60 * (10 * digit_val a + digit_val b) + (10 * digit_val c + digit_val d)
  | _ => 0
  end.

(** In the order of the clock. *)
Definition chronological (ts : list string) : Prop :=
  Sorted (λ s t, clock_minutes s ≤ clock_minutes t) ts.

End Snapshot.

(** ** A sample run *)

Module SampleRun.
Import Browse.

(** Two towns: Boston with two pages, Lowell whose data is collected but
    whose navigation back to the selection page fails. *)
Definition two_towns : run :=
  Run Sample.fs
      [Town (Some " Boston ")
            (Some ([Extract.in_may; Extract.thursday], [[Extract.friday]])) true true;
       Town (Some "Lowell") (Some ([Extract.thursday], [])) false true]
      None 1743000000.

Definition two_towns_snapshot : Alert.snapshot :=
  [("Boston", [("2025-04-10", ["13:00"])]); ("Lowell", [("2025-04-10", ["13:00"])])].

Definition two_towns_report : finished :=
  Finished [LoadedUrl "https://rmv.example/"; ProcessingLocation 1 "Boston";
            ProcessingLocation 2 "Lowell"; ErrorProcessingLocation 2;
            AddedToWhitelist ["Boston"; "Lowell"]; Executing 1743000000]
           [(1%nat, true)] (Some ["Boston"; "Lowell"]) None
           (Some (1743000000, two_towns_snapshot)) (Some 1743000000).

(** What the matcher reports on that snapshot. *)
Definition two_towns_alerts : Alert.report :=
  Alert.Report
    [Alert.MkAlert "Boston" "2025-04-10" ["13:00"] "https://rmv.example/";
     Alert.MkAlert "Lowell" "2025-04-10" ["13:00"] "https://rmv.example/"]
    true
    [AlertHeader; AlertEntry "Boston" "2025-04-10" ["13:00"];
     AlertEntry "Lowell" "2025-04-10" ["13:00"]; MatchingFound]
    [Alert.LaunchUrl "https://rmv.example/"; Alert.LaunchNotify "Boston";
     Alert.LaunchNotify "Lowell"].

(** The same site with list files: Salem is blacklisted, Boston is
    whitelisted already. *)
Definition listed : files :=
  Files Sample.window_file (Some (written ["Salem"])) (Some (written ["Boston"]))
        (Some "https://rmv.example/").





(** What the matcher reports on the snapshot of [Normal.two_pages_data],
    whose only time list is 09:00, 10:30, 10:30, 09:00, 11:00. *)
Definition two_pages_alert : Alert.alert :=
  Alert.MkAlert "Boston" "2025-04-10" ["09:00"; "09:00"; "10:30"; "10:30"; "11:00"]
                "https://rmv.example/".

Definition two_pages_alerts : Alert.report :=
  Alert.Report [two_pages_alert] true
    [AlertHeader;
     AlertEntry "Boston" "2025-04-10" ["09:00"; "09:00"; "10:30"; "10:30"; "11:00"];
     MatchingFound]
    [Alert.LaunchUrl "https://rmv.example/"; Alert.LaunchNotify "Boston"].

End SampleRun.

(** ** The traversal, town by town *)

Module Collected.
Import Browse.

(** The location and pages a town stores: none for a blacklisted town or
    when a step raises before the data is stored. *)
Definition stores (bl : gset string) (t : town) : option (string * (page * list page)) :=
  match button_text t with
  | Some txt =>
      if bool_decide (strip txt ∈ bl) then None
      else (λ pp, (strip txt, pp)) <$> visit t
  | None => None
  end.

(** The locations dict after one town. *)
Definition store (fs : files) (bl : gset string) (t : town)
    (locs : PyDict.dict location_data) : PyDict.dict location_data :=
  match stores bl t with
  | Some (loc, (p, ps)) =>
      PyDict.set loc (LocationData loc (get_page_data fs <$> p :: ps)) locs
  | None => locs
  end.

(** The locations dict after the towns, up to the first failed recovery. *)
Fixpoint collected (fs : files) (bl : gset string) (towns : list town)
    (locs : PyDict.dict location_data) : PyDict.dict location_data :=
  match towns with
  | [] => locs
  | t :: towns' =>
      if Traverse.fatal bl t then store fs bl t locs
      else collected fs bl towns' (store fs bl t locs)
  end.

End Collected.

(** * Properties *)

(** ** Characters and decimal digits *)

Ltac enum_digit a :=
  let H := fresh in
  assert (H : a = 0 ∨ a = 1 ∨ a = 2 ∨ a = 3 ∨ a = 4 ∨ a = 5 ∨ a = 6 ∨ a = 7
              ∨ a = 8 ∨ a = 9) by lia;
  repeat (destruct H as [-> | H]); [.. | subst a].

Lemma is_digit_digit_char a : 0 ≤ a < 10 → is_digit (digit_char a) = true.
Proof. intros Ha. enum_digit a; reflexivity. Qed.

Lemma is_space_digit_char a : 0 ≤ a < 10 → is_space (digit_char a) = false.
Proof. intros Ha. enum_digit a; reflexivity. Qed.

Lemma digit_val_digit_char a : 0 ≤ a < 10 → digit_val (digit_char a) = a.
Proof. intros Ha. enum_digit a; reflexivity. Qed.

Lemma int_of_string_pad2 n : 0 ≤ n < 100 → int_of_string (pad2 n) = n.
Proof.
  intros Hn. unfold int_of_string, pad2. cbn [lstrip].
  rewrite is_space_digit_char by (Z.div_mod_to_equations; lia). cbn [int_digits].
  rewrite !digit_val_digit_char by (Z.div_mod_to_equations; lia).
  Z.div_mod_to_equations; lia.
Qed.

Lemma int_of_string_pad4 n : 0 ≤ n < 10000 → int_of_string (pad4 n) = n.
Proof.
  intros Hn. unfold int_of_string, pad4, pad2. cbn [lstrip].
  rewrite is_space_digit_char by (Z.div_mod_to_equations; lia). cbn [int_digits].
  rewrite !digit_val_digit_char by (Z.div_mod_to_equations; lia).
  Z.div_mod_to_equations; lia.
Qed.

(** ** The matcher on zero-padded fields *)

#[local] Arguments consumed : simpl never.

Lemma consumed_1 a r : consumed (String a r) r = String a "".
Proof.
  unfold consumed. cbn [String.length].
  replace (S (String.length r) - String.length r)%nat with 1%nat by lia.
  cbn [substring]. by destruct r.
Qed.

Lemma consumed_2 a b r : consumed (String a (String b r)) r = String a (String b "").
Proof.
  unfold consumed. cbn [String.length].
  replace (S (S (String.length r)) - String.length r)%nat with 2%nat by lia.
  cbn [substring]. by destruct r.
Qed.

Lemma consumed_4 a b c d r :
  consumed (String a (String b (String c (String d r)))) r
  = String a (String b (String c (String d ""))).
Proof.
  unfold consumed. cbn [String.length].
  replace (S (S (S (S (String.length r)))) - String.length r)%nat with 4%nat by lia.
  cbn [substring]. by destruct r.
Qed.

(** [%Y] on four digits. *)
Lemma re_match_Y_pad4 {A} y rest caps (k : string → captures → option A) :
  0 ≤ y < 10000 →
  re_match re_Y (pad4 y +:+ rest) caps k = k rest (("Y", pad4 y) :: caps).
Proof.
  intros Hy. unfold re_Y, pad4, pad2, dig.
  cbv [String.append]. cbn [seqs re_match].
  rewrite !is_digit_digit_char by (Z.div_mod_to_equations; lia).
  by rewrite consumed_4.
Qed.

Ltac enum_in x l :=
  let H := fresh in
  assert (H : x ∈ l) by (rewrite !elem_of_cons; lia);
  repeat (apply elem_of_cons in H as [-> | H]);
  [.. | by apply elem_of_nil in H].

Ltac eval_pad2 :=
  repeat match goal with
    | H : context [pad2 ?m] |- _ =>
        let v := eval vm_compute in (pad2 m) in change (pad2 m) with v in *
    end.

(** In an alternation the first branch that lets the continuation
    succeed is the match. *)
Lemma re_match_m_pad2 {A} name m rest caps (k : string → captures → option A) a :
  1 ≤ m ≤ 12 →
  k rest ((name, pad2 m) :: caps) = Some a →
  re_match (re_month_number name) (pad2 m +:+ rest) caps k = Some a.
Proof.
  intros Hm Hk.
  enum_in m [1; 2; 3; 4; 5; 6; 7; 8; 9; 10; 11; 12];
    eval_pad2; cbv [String.append]; cbn; rewrite consumed_2; by rewrite Hk.
Qed.

Lemma re_match_d_pad2 {A} d rest caps (k : string → captures → option A) a :
  1 ≤ d ≤ 31 →
  k rest (("d", pad2 d) :: caps) = Some a →
  re_match re_d (pad2 d +:+ rest) caps k = Some a.
Proof.
  intros Hd Hk.
  enum_in d [1; 2; 3; 4; 5; 6; 7; 8; 9; 10; 11; 12; 13; 14; 15; 16; 17; 18; 19;
             20; 21; 22; 23; 24; 25; 26; 27; 28; 29; 30; 31];
    eval_pad2; cbv [String.append]; cbn; rewrite consumed_2; by rewrite Hk.
Qed.

Lemma valid_date_bounds y m d :
  valid_date y m d = true → 1 ≤ y ≤ 9999 ∧ 1 ≤ m ≤ 12 ∧ 1 ≤ d ≤ 31.
Proof.
  unfold valid_date. rewrite !andb_true_iff, !Z.leb_le.
  intros (((((? & ?) & ?) & ?) & ?) & Hd). repeat split; try lia.
  enum_in m [1; 2; 3; 4; 5; 6; 7; 8; 9; 10; 11; 12];
    cbn in Hd; try lia; destruct (is_leap y); lia.
Qed.

(** Parsing the ISO rendering of a date gives the date back. *)
Lemma strptime_strftime_Y_m_d y m d :
  valid_date y m d = true →
  strptime_Y_m_d (strftime_Y_m_d (Datetime y m d 0 0 0)) = Some (Datetime y m d 0 0 0).
Proof.
  intros Hv. destruct (valid_date_bounds _ _ _ Hv) as (Hy & Hm & Hd).
  unfold strptime_Y_m_d, strftime_Y_m_d, full_match, re_match_prefix. cbn [year month day].
  assert (re_match re_Y_m_d (pad4 y +:+ "-" +:+ pad2 m +:+ "-" +:+ pad2 d) []
            (λ s' caps, Some (s', caps))
          = Some ("", [("d", pad2 d); ("m", pad2 m); ("Y", pad4 y)])) as ->.
  { unfold re_Y_m_d. cbn [seqs re_match].
    rewrite re_match_Y_pad4 by lia. cbv [String.append]. cbn [lit re_match].
    change (is_char "-" "-") with true. cbv iota.
    apply re_match_m_pad2; [done|]. cbv [String.append]. cbn [lit re_match].
    change (is_char "-" "-") with true. cbv iota.
    replace (pad2 d) with (pad2 d +:+ "") at 1
      by (unfold pad2; reflexivity).
    by apply re_match_d_pad2. }
  cbn [mbind option_bind group String.eqb Ascii.eqb Bool.eqb].
  rewrite int_of_string_pad4, !int_of_string_pad2 by lia.
  unfold mk_datetime. by rewrite Hv.
Qed.

(** The formats on sample texts. *)
Example strptime_machine_time :
  strftime_H_M <$> strptime_mdY_IMS_p "04/10/2025 09:15:00 AM" = Some "09:15"
  ∧ strftime_H_M <$> strptime_mdY_IMS_p "4/10/2025 12:05:00 pm" = Some "12:05"
  ∧ strftime_H_M <$> strptime_mdY_IMS_p "04/10/2025 12:05:00 AM" = Some "00:05"
  ∧ strptime_mdY_IMS_p "04/10/2025 13:05:00 PM" = None
  ∧ strptime_mdY_IMS_p "02/30/2025 09:15:00 AM" = None
  ∧ strptime_mdY_IMS_p "2025-04-10T09:15:00" = None.
Proof. by vm_compute. Qed.

Example strptime_label_date :
  strftime_Y_m_d <$> strptime_b_d_Y "Apr 10, 2025" = Some "2025-04-10"
  ∧ strftime_Y_m_d <$> strptime_b_d_Y "apr  5, 2025" = Some "2025-04-05"
  ∧ strptime_b_d_Y "April 10, 2025" = None
  ∧ strptime_b_d_Y "Feb 29, 2025" = None.
Proof. by vm_compute. Qed.

Example strptime_iso_date :
  strptime_Y_m_d "2025-04-10" = Some (midnight 2025 4 10)
  ∧ strptime_Y_m_d "2025-4-1" = Some (midnight 2025 4 1)
  ∧ strptime_Y_m_d "2025-04-100" = None
  ∧ strptime_Y_m_d "2025-13-01" = None
  ∧ strptime_Y_m_d "10.04.2025" = None.
Proof. by vm_compute. Qed.

(** ** Order on datetimes *)

Lemma dt_lt_midnight y m d y' m' d' :
  dt_lt (midnight y m d) (midnight y' m' d') = true
  ↔ date_before (midnight y m d) (midnight y' m' d').
Proof.
  unfold dt_lt, dt_compare, date_before, midnight. cbn.
  destruct (Z.compare_spec y y'); [|split; [lia|done]|split; [done|lia]].
  destruct (Z.compare_spec m m'); [|split; [lia|done]|split; [done|lia]].
  destruct (Z.compare_spec d d'); split; (done || lia).
Qed.

Lemma dt_le_midnight y m d y' m' d' :
  dt_le (midnight y m d) (midnight y' m' d') = true
  ↔ date_not_after (midnight y m d) (midnight y' m' d').
Proof.
  unfold dt_le, dt_compare, date_not_after, date_before, same_date, midnight. cbn.
  destruct (Z.compare_spec y y'); [|split; [lia|done]|split; [done|lia]].
  destruct (Z.compare_spec m m'); [|split; [lia|done]|split; [done|lia]].
  destruct (Z.compare_spec d d'); split; (done || lia).
Qed.

(** A window descriptor with two well-formed dates is loaded as written. *)
Lemma load_time_window_iso fs ys ms ds ye me de :
  valid_date ys ms ds = true → valid_date ye me de = true →
  time_window_json fs = Some (iso ys ms ds, iso ye me de) →
  load_time_window fs = ((midnight ys ms ds, midnight ye me de), []).
Proof.
  intros Hs He Hw. unfold load_time_window. rewrite Hw. unfold iso, midnight.
  by rewrite !strptime_strftime_Y_m_d.
Qed.

(** ** The time window (C7, C8) *)

(** C7. For a window descriptor holding the well-formed dates [start] and
    [end] and a well-formed date string [d], [is_alert_date(d)] answers
    [True] exactly when [start <= d < end] in calendar order: the start is
    included, the end is not. With [start = 2025-03-24] and
    [end = 2025-04-24] (the descriptor, and equally the built-in fallback)
    the answers for "2025-03-24", "2025-04-24" and "2025-04-23" are
    [True], [False] and [True]. *)
Theorem is_alert_date_contains fs ys ms ds ye me de y m d :
  valid_date ys ms ds = true →
  valid_date ye me de = true →
  valid_date y m d = true →
  time_window_json fs = Some (iso ys ms ds, iso ye me de) →
  ((is_alert_date fs (iso y m d)).1 = true
   ↔ date_not_after (midnight ys ms ds) (midnight y m d)
     ∧ date_before (midnight y m d) (midnight ye me de))
  ∧ (∀ b w, (w = Some ("2025-03-24", "2025-04-24") ∨ w = None) →
       let fs' := Files w b b b in
       (is_alert_date fs' "2025-03-24").1 = true
       ∧ (is_alert_date fs' "2025-04-24").1 = false
       ∧ (is_alert_date fs' "2025-04-23").1 = true).
Proof.
  intros Hs He Hd Hw. split.
  - unfold is_alert_date. unfold iso at 1, midnight at 1.
    rewrite strptime_strftime_Y_m_d by done.
    rewrite (load_time_window_iso _ _ _ _ _ _ _ Hs He Hw). cbn [fst].
    rewrite andb_true_iff. fold (midnight y m d).
    by rewrite dt_le_midnight, dt_lt_midnight.
  - by intros b w [-> | ->]; vm_compute.
Qed.

Lemma is_alert_date_contains_witness :
  let fs := Files (Some ("2025-03-24", "2025-04-24")) None None None in
  (is_alert_date fs "2025-04-01").1 = true
  ↔ date_not_after (midnight 2025 3 24) (midnight 2025 4 1)
    ∧ date_before (midnight 2025 4 1) (midnight 2025 4 24).
Proof.
  exact (proj1 (is_alert_date_contains
                  (Files (Some ("2025-03-24", "2025-04-24")) None None None)
                  2025 3 24 2025 4 24 2025 4 1
                  eq_refl eq_refl eq_refl eq_refl)).
Defined.




(** ** [alert.py]: the matcher (C2, C4, C5) *)

Section alert.
Import Alert Matcher.

Variables (fs : files) (u : string).

Lemma scan_dates_alerts loc dates st :
  s_alerts (scan_dates fs u loc dates st) = s_alerts st ++ date_alerts fs u loc dates.
Proof.
  revert st. induction dates as [|[d ts] dates IH]; intros st; cbn.
  { by rewrite app_nil_r. }
  unfold in_window. destruct (is_alert_date fs d) as [[] out]; cbn;
    rewrite IH; cbn; by rewrite <-?app_assoc.
Qed.

Lemma scan_dates_match loc dates st :
  s_match (scan_dates fs u loc dates st) = true
  ↔ s_match st = true
    ∨ (∃ d ts, (d, ts) ∈ dates ∧ in_window fs d = true ∧ ts ≠ []).
Proof.
  revert st. induction dates as [|[d ts] dates IH]; intros st; cbn.
  { split; [by left|]. intros [|(? & ? & []%elem_of_nil & _)]; done. }
  unfold in_window. destruct (is_alert_date fs d) as [b out] eqn:Hd.
  rewrite IH. clear IH. split.
  - intros [Hm | (d' & ts' & ? & ? & ?)].
    + destruct b; cbn in Hm; [|by left].
      destruct ts; [by left|]. right. exists d, (s :: ts).
      split; [left|]. by rewrite Hd.
    + right. exists d', ts'. split; [by right|done].
  - intros [Hm | (d' & ts' & Hin & Hw & Hne)].
    + left. destruct b; cbn; [|done]. by destruct ts.
    + apply elem_of_cons in Hin as [[= -> ->] | Hin].
      * left. rewrite Hd in Hw. cbn in Hw. subst b. cbn. by destruct ts.
      * right. by exists d', ts'.
Qed.

Lemma scan_dates_out loc dates st l :
  l ∈ s_out (scan_dates fs u loc dates st) → l ∈ s_out st ∨ l = ErrorLoadingTimeWindow.
Proof.
  revert st. induction dates as [|[d ts] dates IH]; intros st; cbn; [by left|].
  destruct (is_alert_date fs d) as [b out] eqn:Hd. intros Hl.
  assert (∀ x, x ∈ out → x = ErrorLoadingTimeWindow) as Hout.
  { revert Hd. unfold is_alert_date, load_time_window.
    repeat case_match; intros; simplify_eq;
      repeat match goal with
        | H : _ ∈ [] |- _ => by apply elem_of_nil in H
        | H : _ ∈ [_] |- _ => apply list_elem_of_singleton in H
        end; done. }
  apply IH in Hl as [Hl | ->]; [|by right].
  destruct b; cbn in Hl; apply elem_of_app in Hl as [?|?]; auto.
Qed.

Variable blacklist : gset string.

Lemma scan_locations_alerts data st :
  s_alerts (scan_locations fs u blacklist data st) = s_alerts st ++ snapshot_alerts fs u blacklist data.
Proof.
  revert st. induction data as [|[loc dates] data IH]; intros st; cbn.
  { by rewrite app_nil_r. }
  case_bool_decide; rewrite IH; [done|].
  by rewrite scan_dates_alerts, <-app_assoc.
Qed.

Lemma scan_locations_match data st :
  s_match (scan_locations fs u blacklist data st) = true
  ↔ s_match st = true
    ∨ (∃ loc dates d ts, (loc, dates) ∈ data ∧ (d, ts) ∈ dates
        ∧ (loc ∉ blacklist) ∧ in_window fs d = true ∧ ts ≠ []).
Proof.
  revert st. induction data as [|[loc dates] data IH]; intros st; cbn.
  { split; [by left|]. intros [|(? & ? & ? & ? & []%elem_of_nil & _)]; done. }
  case_bool_decide as Hbl; rewrite IH; clear IH.
  - split.
    + intros [?|(l & ds & d & ts & ? & ?)]; [by left|].
      right. exists l, ds, d, ts. split; [by right|done].
    + intros [?|(l & ds & d & ts & Hin & Hd & Hnb & ?)]; [by left|].
      apply elem_of_cons in Hin as [[= -> ->] | Hin]; [done|].
      right. by exists l, ds, d, ts.
  - rewrite scan_dates_match. split.
    + intros [[?|(d & ts & ? & ? & ?)]|(l & ds & d & ts & ? & ?)]; [by left|..].
      * right. exists loc, dates, d, ts. split; [by left|done].
      * right. exists l, ds, d, ts. split; [by right|done].
    + intros [?|(l & ds & d & ts & Hin & Hd & Hnb & ?)]; [by left; left|].
      apply elem_of_cons in Hin as [[= -> ->] | Hin].
      * left; right. by exists d, ts.
      * right. by exists l, ds, d, ts.
Qed.

Lemma scan_locations_out data st l :
  l ∈ s_out (scan_locations fs u blacklist data st)
  → l ∈ s_out st ∨ l = ErrorLoadingTimeWindow.
Proof.
  revert st. induction data as [|[loc dates] data IH]; intros st; cbn; [by left|].
  case_bool_decide; intros Hl; apply IH in Hl as [Hl| ->]; auto.
  by apply scan_dates_out in Hl.
Qed.

Lemma elem_of_date_alerts a loc dates :
  a ∈ date_alerts fs u loc dates
  ↔ ∃ d ts, (d, ts) ∈ dates ∧ in_window fs d = true ∧ a = MkAlert loc d (sorted ts) u.
Proof.
  unfold date_alerts. rewrite list_elem_of_bind. split.
  - intros ([d ts] & Ha & Hin). destruct (in_window fs d) eqn:Hw.
    + apply list_elem_of_singleton in Ha. by exists d, ts.
    + by apply elem_of_nil in Ha.
  - intros (d & ts & Hin & Hw & ->). exists (d, ts). rewrite Hw.
    split; [by apply list_elem_of_singleton|done].
Qed.

Lemma elem_of_snapshot_alerts a data :
  a ∈ snapshot_alerts fs u blacklist data
  ↔ ∃ loc dates d ts, (loc, dates) ∈ data ∧ (d, ts) ∈ dates
      ∧ (loc ∉ blacklist) ∧ in_window fs d = true ∧ a = MkAlert loc d (sorted ts) u.
Proof.
  unfold snapshot_alerts. rewrite list_elem_of_bind. split.
  - intros ([loc dates] & Ha & Hin). case_bool_decide.
    + by apply elem_of_nil in Ha.
    + apply elem_of_date_alerts in Ha as (d & ts & ? & ? & ?).
      by exists loc, dates, d, ts.
  - intros (loc & dates & d & ts & Hin & Hd & Hnb & Hw & ->).
    exists (loc, dates). rewrite bool_decide_false by done.
    split; [|done]. apply elem_of_date_alerts. by exists d, ts.
Qed.

End alert.

Section summary.
Import Alert.

(** The entries of the summary: the first alert of each location that
    has not been printed before. *)
Lemma elem_of_print_alerts al seen loc d ts :
  AlertEntry loc d ts ∈ print_alerts al seen
  ↔ (loc ∉ seen)
    ∧ (∃ pre a post, al = pre ++ a :: post
         ∧ location a = loc ∧ date a = d ∧ times a = ts
         ∧ ∀ a', a' ∈ pre → location a' ≠ loc).
Proof.
  revert seen. induction al as [|a0 al IH]; intros seen; cbn.
  { split; [by intros ?%elem_of_nil|]. by intros (_ & [|??] & ? & ? & ? & _). }
  case_bool_decide as Hseen.
  - rewrite IH. split.
    + intros (Hloc & pre & a & post & -> & ? & ? & ? & Hpre).
      split; [done|]. exists (a0 :: pre), a, post. repeat split; try done.
      intros a' [->|?]%elem_of_cons; [congruence|by apply Hpre].
    + intros (Hloc & [|a1 pre] & a & post & Heq & ? & ? & ? & Hpre);
        simplify_eq/=; [done|].
      split; [done|]. exists pre, a, post. repeat split; try done.
      intros a' ?. apply Hpre. by right.
  - rewrite elem_of_cons, IH. split.
    + intros [[= -> -> ->] | (Hloc & pre & a & post & -> & ? & ? & ? & Hpre)].
      * split; [done|]. exists [], a0, al. repeat split; try done.
        by intros ? ?%elem_of_nil.
      * apply not_elem_of_app in Hloc as [? Hne].
        rewrite list_elem_of_singleton in Hne.
        split; [done|]. exists (a0 :: pre), a, post. repeat split; try done.
        intros a' [->|?]%elem_of_cons; [congruence|by apply Hpre].
    + intros (Hloc & [|a1 pre] & a & post & Heq & ? & ? & ? & Hpre);
        simplify_eq/=; [by left|].
      right. split.
      * rewrite not_elem_of_app, list_elem_of_singleton. split; [done|].
        intros Heq'. by apply (Hpre a1); [left|].
      * exists pre, a, post. repeat split; try done.
        intros a' ?. apply Hpre. by right.
Qed.

(** The locations of the summary: each location of an alert not seen
    before, once. *)
Lemma printed_locations_print_alerts al seen :
  NoDup (printed_locations (print_alerts al seen))
  ∧ ∀ loc, loc ∈ printed_locations (print_alerts al seen)
      ↔ (loc ∉ seen) ∧ ∃ a, a ∈ al ∧ location a = loc.
Proof.
  revert seen. induction al as [|a0 al IH]; intros seen; cbn.
  { split; [constructor|]. intros loc. split; [by intros ?%elem_of_nil|].
    by intros (_ & a & ?%elem_of_nil & _). }
  case_bool_decide as Hseen.
  - destruct (IH seen) as [Hnd Hin]. split; [done|]. intros loc. rewrite Hin.
    split; intros (Hloc & a & Ha & Heq).
    + split; [done|]. exists a. split; [by right|done].
    + split; [done|]. apply elem_of_cons in Ha as [->|Ha]; [congruence|].
      by exists a.
  - destruct (IH (seen ++ [location a0])) as [Hnd Hin]. cbn. split.
    + constructor; [|done]. rewrite Hin. intros [Hc _]. apply Hc.
      apply elem_of_app. right. by left.
    + intros loc. rewrite elem_of_cons, Hin, not_elem_of_app, list_elem_of_singleton.
      split.
      * intros [-> | ((? & ?) & a & ? & ?)].
        -- split; [done|]. exists a0. split; [by left|done].
        -- split; [done|]. exists a. split; [by right|done].
      * intros (Hloc & a & [->|Ha]%elem_of_cons & Heq); [by left|].
        destruct (decide (loc = location a0)) as [->|]; [by left|].
        right. split; [done|]. by exists a.
Qed.

(** The notification loop walks the alerts as the summary loop does. *)
Lemma notify_launches fx al seen :
  (notify fx al seen).1 = LaunchNotify <$> printed_locations (print_alerts al seen).
Proof.
  revert seen. induction al as [|a0 al IH]; intros seen; cbn; [done|].
  case_bool_decide; [done|]. specialize (IH (seen ++ [location a0])).
  destruct (notify fx al (seen ++ [location a0])) as [ls out]. cbn in *.
  by rewrite IH.
Qed.

Lemma notified_fmap locs : notified (LaunchNotify <$> locs) = locs.
Proof. induction locs; cbn; [done|]. unfold notified in *. cbn. by f_equal. Qed.

Lemma notify_out fx al seen l :
  l ∈ (notify fx al seen).2 → l = ErrorLaunchingFirefox ∨ l = FirefoxNotFound.
Proof.
  revert seen. induction al as [|a0 al IH]; intros seen; cbn.
  { by intros ?%elem_of_nil. }
  case_bool_decide; [by apply IH|]. specialize (IH (seen ++ [location a0])).
  destruct (notify fx al (seen ++ [location a0])) as [ls out]. cbn in *.
  intros [Hl|Hl]%elem_of_app; [|by apply IH].
  destruct fx; cbn in Hl;
    repeat match goal with
      | H : _ ∈ [] |- _ => by apply elem_of_nil in H
      | H : _ ∈ [_] |- _ => apply list_elem_of_singleton in H
      end; auto.
Qed.

Lemma run_firefox_out fx l :
  l ∈ run_firefox fx → l = ErrorLaunchingFirefox ∨ l = FirefoxNotFound.
Proof.
  destruct fx; cbn; intros Hl;
    repeat match goal with
      | H : _ ∈ [] |- _ => by apply elem_of_nil in H
      | H : _ ∈ [_] |- _ => apply list_elem_of_singleton in H
      end; auto.
Qed.

Lemma printed_locations_app o1 o2 :
  printed_locations (o1 ++ o2) = printed_locations o1 ++ printed_locations o2.
Proof. apply omap_app. Qed.

Lemma printed_locations_none out :
  (∀ l, l ∈ out → ∀ loc d ts, l ≠ AlertEntry loc d ts) → printed_locations out = [].
Proof.
  induction out as [|l out IH]; intros H; [done|].
  unfold printed_locations in *. cbn.
  destruct l; try (apply IH; intros; apply H; by right).
  exfalso. eapply H; [by left|done].
Qed.

(** [sorted] orders its argument and keeps every element, repetitions
    included. *)
Lemma sorted_spec ts : Sorted String.le (sorted ts) ∧ sorted ts ≡ₚ ts.
Proof. split; [apply Sorted_merge_sort, _|apply merge_sort_Permutation]. Qed.

Lemma sorted_nil ts : sorted ts = [] ↔ ts = [].
Proof.
  unfold sorted. split; [|by intros ->].
  intros Hs. apply Permutation_nil_r. rewrite <-Hs.
  by rewrite merge_sort_Permutation.
Qed.

End summary.

Ltac not_in_nil :=
  by repeat match goal with H : _ ∈ [] |- _ => apply elem_of_nil in H end.

Ltac not_entry :=
  repeat match goal with
    | H : _ ∈ [] |- _ => by apply elem_of_nil in H
    | H : _ ∈ [_] |- _ => apply list_elem_of_singleton in H
    | H : _ ∈ _ :: _ |- _ => apply elem_of_cons in H as [H|H]
    | H : _ ∈ _ ++ _ |- _ => apply elem_of_app in H as [H|H]
    | H : _ ∈ Alert.run_firefox _ |- _ => apply run_firefox_out in H as [H|H]
    | H : _ ∈ (Alert.notify _ _ _).2 |- _ => apply notify_out in H as [H|H]
    | H : _ ∈ Alert.s_out (Alert.scan_locations _ _ _ _ _) |- _ =>
        apply scan_locations_out in H as [H|H]; cbn in H
    end;
  try done.

Section analyze.
Import Alert.

(** What a returning analysis reports, in terms of the snapshot. *)
Lemma analyze_returned w r :
  analyze_appointments w = Returned r →
  ∃ content, rmv_url_txt (w_files w) = Some content ∧
    let fs := w_files w in
    let u := strip content in
    let bl := load_list (blacklist_txt fs) in
    match w_data w with
    | None => r = Report [] false [ErrorLoadingDataFile] []
    | Some data =>
        alerts r = Matcher.snapshot_alerts fs u bl data
        ∧ (match_found r = true
           ↔ ∃ loc dates d ts, (loc, dates) ∈ data ∧ (d, ts) ∈ dates
               ∧ (loc ∉ bl) ∧ in_window fs d = true ∧ ts ≠ [])
        ∧ (∀ loc d ts, AlertEntry loc d ts ∈ stdout r
                       ↔ AlertEntry loc d ts ∈ print_alerts (alerts r) [])
        ∧ printed_locations (stdout r)
          = printed_locations (print_alerts (alerts r) [])
        ∧ launched r
          = if match_found r
            then LaunchUrl u
                   :: (LaunchNotify <$> printed_locations (print_alerts (alerts r) []))
            else []
    end.
Proof.
  unfold analyze_appointments. destruct w as [fs data fx]; cbn.
  destruct (rmv_url_txt fs) as [content|]; [|done].
  intros Hr. exists content. split; [done|]. cbn.
  destruct data as [data|]; [|by simplify_eq].
  set (u := strip content) in *. set (bl := load_list (blacklist_txt fs)) in *.
  pose proof (scan_locations_alerts fs u bl data (Scan [] false [])) as Hal.
  pose proof (scan_locations_match fs u bl data (Scan [] false [])) as Hm.
  pose proof (scan_locations_out fs u bl data (Scan [] false [])) as Hout.
  cbn in Hal, Hm, Hout.
  set (st := scan_locations fs u bl data (Scan [] false [])) in *.
  assert (Hm' : s_match st = true
                ↔ ∃ loc dates d ts, (loc, dates) ∈ data ∧ (d, ts) ∈ dates
                    ∧ (loc ∉ bl) ∧ in_window fs d = true ∧ ts ≠ []).
  { rewrite Hm. split; [by intros [|]|by right]. }
  assert (Hsum : ∀ l, l ∈ (if s_alerts st is [] then []
                           else AlertHeader :: print_alerts (s_alerts st) [])
                      → l = AlertHeader ∨ l ∈ print_alerts (s_alerts st) []).
  { intros l. destruct (s_alerts st); [by intros ?%elem_of_nil|].
    intros [->|?]%elem_of_cons; auto. }
  assert (Hsum' : ∀ loc d ts,
             AlertEntry loc d ts ∈ print_alerts (s_alerts st) []
             → AlertEntry loc d ts ∈ (if s_alerts st is [] then []
                                      else AlertHeader :: print_alerts (s_alerts st) [])).
  { intros loc d ts. destruct (s_alerts st); [done|]. by right. }
  assert (Hpl : printed_locations (if s_alerts st is [] then []
                                   else AlertHeader :: print_alerts (s_alerts st) [])
                = printed_locations (print_alerts (s_alerts st) [])).
  { by destruct (s_alerts st). }
  assert (Hpo : printed_locations (s_out st) = []).
  { apply printed_locations_none. intros l Hl ???. by apply Hout in Hl as [?%elem_of_nil| ->]. }
  destruct (s_match st) eqn:Hmatch.
  - pose proof (notify_launches fx (s_alerts st) []) as Hn.
    pose proof (notify_out fx (s_alerts st) []) as Hno.
    destruct (notify fx (s_alerts st) []) as [ls out]. cbn in Hn, Hno.
    simplify_eq/=. split_and!; try done.
    + intros loc d ts. split.
      * intros H. not_entry.
        -- by apply Hout in H as [?%elem_of_nil|?].
        -- by apply Hsum in H as [?|?].
        -- by apply Hno in H as [?|?].
      * intros H. apply elem_of_app. right. apply elem_of_app. left. by apply Hsum'.
    + change (MatchingFound :: run_firefox fx ++ out)
        with ([MatchingFound] ++ run_firefox fx ++ out).
      rewrite !printed_locations_app, Hpo, Hpl.
      rewrite (printed_locations_none (run_firefox fx)), (printed_locations_none out).
      * by rewrite app_nil_r.
      * intros l Hl ???. by apply Hno in Hl as [-> | ->].
      * intros l Hl ???. by apply run_firefox_out in Hl as [-> | ->].
  - simplify_eq/=. split_and!; try done.
    + intros loc d ts. split.
      * intros H. not_entry.
        -- by apply Hout in H as [?%elem_of_nil|?].
        -- by apply Hsum in H as [?|?].
      * intros H. apply elem_of_app. right. by apply Hsum'.
    + by rewrite !printed_locations_app, Hpo, Hpl.
Qed.

End analyze.

Section matcher.
Import Alert.

(** C4. Whatever the snapshot, the window and the blacklist are, no
    alert is recorded for a blacklisted location, none is printed in the
    summary and no notification is started for one, also when the
    location has in-window times in the snapshot. *)
Theorem blacklisted_never_alerted w r :
  analyze_appointments w = Returned r →
  let bl := load_list (blacklist_txt (w_files w)) in
  (∀ a, a ∈ alerts r → location a ∉ bl)
  ∧ (∀ loc d ts, AlertEntry loc d ts ∈ stdout r → loc ∉ bl)
  ∧ (∀ loc, LaunchNotify loc ∈ launched r → loc ∉ bl).
Proof.
  intros (content & _ & H)%analyze_returned bl. cbn zeta in H. fold bl in H.
  destruct (w_data w) as [data|].
  2:{ subst r. cbn. split_and!; intros; not_entry. }
  destruct H as (Hal & _ & Hent & _ & Hl).
  assert (Ha : ∀ a, a ∈ alerts r → location a ∉ bl).
  { intros a. rewrite Hal, elem_of_snapshot_alerts.
    by intros (loc & dates & d & ts & _ & _ & ? & _ & ->). }
  split_and!; [done|..].
  - intros loc d ts. rewrite Hent, elem_of_print_alerts.
    intros (_ & pre & a & post & Heq & <- & _). apply Ha. rewrite Heq.
    apply elem_of_app. right. by left.
  - intros loc. rewrite Hl. destruct (match_found r); [|by intros ?%elem_of_nil].
    intros [[=]|Hin]%elem_of_cons.
    apply list_elem_of_fmap in Hin as (loc' & [= ->] & Hin).
    apply printed_locations_print_alerts in Hin as (_ & a & ? & <-). by apply Ha.
Qed.

Lemma blacklisted_never_alerted_witness :
  (∀ a, a ∈ alerts SampleReport.busy_without_lowell
        → location a ∉ load_list (Some "Lowell"))
  ∧ (∀ loc d ts, AlertEntry loc d ts ∈ stdout SampleReport.busy_without_lowell
                 → loc ∉ load_list (Some "Lowell"))
  ∧ (∀ loc, LaunchNotify loc ∈ launched SampleReport.busy_without_lowell
            → loc ∉ load_list (Some "Lowell")).
Proof.
  exact (blacklisted_never_alerted
           (World (Sample.fs_blacklisting "Lowell") (Some Sample.busy) FirefoxOk)
           SampleReport.busy_without_lowell
           ltac:(vm_compute; reflexivity)).
Defined.

(** C2, as the code has it. An alert record is appended for every
    in-window date of every location that is not blacklisted, whether
    the date has times or not; having times only decides [match_found],
    the flag that starts the notifications. So for a snapshot in which
    every time list is empty no notification is started, while the
    alert records (and their summary) are still produced. *)
Theorem alerts_for_in_window_dates w r data :
  analyze_appointments w = Returned r →
  w_data w = Some data →
  let fs := w_files w in
  let bl := load_list (blacklist_txt fs) in
  (∃ u, ∀ a, a ∈ alerts r
          ↔ ∃ loc dates d ts, (loc, dates) ∈ data ∧ (d, ts) ∈ dates
              ∧ (loc ∉ bl) ∧ in_window fs d = true
              ∧ a = MkAlert loc d (sorted ts) u)
  ∧ (match_found r = true
     ↔ ∃ loc dates d ts, (loc, dates) ∈ data ∧ (d, ts) ∈ dates
         ∧ (loc ∉ bl) ∧ in_window fs d = true ∧ ts ≠ [])
  ∧ ((∀ loc dates d ts, (loc, dates) ∈ data → (d, ts) ∈ dates → ts = [])
     → match_found r = false ∧ launched r = []).
Proof.
  intros (content & _ & H)%analyze_returned Hdata fs bl. cbn zeta in H.
  rewrite Hdata in H. fold fs bl in H. destruct H as (Hal & Hm & _ & _ & Hl).
  split_and!.
  - exists (strip content). intros a. by rewrite Hal, elem_of_snapshot_alerts.
  - done.
  - intros Hempty. assert (match_found r = false) as Hf.
    { destruct (match_found r); [|done].
      destruct (proj1 Hm eq_refl) as (loc & dates & d & ts & ? & ? & _ & _ & Hne).
      destruct Hne. by eapply Hempty. }
    split; [done|]. by rewrite Hl, Hf.
Qed.

Lemma alerts_for_in_window_dates_witness :
  match_found SampleReport.mixed = true
  ↔ ∃ loc dates d ts, (loc, dates) ∈ Sample.mixed ∧ (d, ts) ∈ dates
      ∧ (loc ∉ load_list None) ∧ in_window Sample.fs d = true ∧ ts ≠ [].
Proof.
  exact (proj1 (proj2 (alerts_for_in_window_dates
                         (World Sample.fs (Some Sample.mixed) FirefoxOk)
                         SampleReport.mixed Sample.mixed
                         ltac:(vm_compute; reflexivity) eq_refl))).
Defined.

(** C2 as stated fails: for a snapshot whose only date is in the window
    and has no time at all the matcher still records one alert and
    prints it under the alert header. *)
Lemma alert_for_date_without_times :
  in_window Sample.fs "2025-04-01" = true
  ∧ analyze_appointments (World Sample.fs (Some Sample.empty_date) FirefoxOk)
    = Returned SampleReport.empty_date
  ∧ alerts SampleReport.empty_date ≠ [].
Proof. split_and!; [by vm_compute..|done]. Qed.

(** C5, as the code has it. The summary prints one entry per distinct
    location of the alert records, namely for the first record of that
    location (which may be a date without times). The notifications are
    gated by [match_found]: when some record has times, exactly one
    notification is started for each distinct location of the alert
    records, however many of its dates are recorded and also for a
    location whose records all lack times; when no record has times,
    none is started. *)
Theorem summary_and_notifications w r :
  analyze_appointments w = Returned r →
  NoDup (printed_locations (stdout r))
  ∧ (∀ loc d ts,
       AlertEntry loc d ts ∈ stdout r
       ↔ ∃ pre a post, alerts r = pre ++ a :: post
           ∧ location a = loc ∧ date a = d ∧ times a = ts
           ∧ ∀ a', a' ∈ pre → location a' ≠ loc)
  ∧ (match_found r = true ↔ ∃ a, a ∈ alerts r ∧ times a ≠ [])
  ∧ (match_found r = true
     → NoDup (notified (launched r))
       ∧ ∀ loc, loc ∈ notified (launched r) ↔ ∃ a, a ∈ alerts r ∧ location a = loc)
  ∧ (match_found r = false → launched r = []).
Proof.
  intros (content & _ & H)%analyze_returned. cbn zeta in H.
  destruct (w_data w) as [data|].
  2:{ subst r. cbn. split_and!; try done.
      - constructor.
      - intros loc d ts. split; [intros ?; not_entry|].
        by intros ([|??] & ? & ? & ? & _).
      - split; [done|]. by intros (a & ?%elem_of_nil & _). }
  destruct H as (Hal & Hm & Hent & Hpl & Hl).
  destruct (printed_locations_print_alerts (alerts r) []) as [Hnd Hin].
  split_and!.
  - by rewrite Hpl.
  - intros loc d ts. rewrite Hent, elem_of_print_alerts. split.
    + by intros [_ ?].
    + intros ?. split; [by intros ?%elem_of_nil|done].
  - rewrite Hm. split.
    + intros (loc & dates & d & ts & ? & ? & ? & ? & Hne).
      exists (MkAlert loc d (sorted ts) (strip content)). split.
      * rewrite Hal, elem_of_snapshot_alerts. by exists loc, dates, d, ts.
      * cbn. by rewrite sorted_nil.
    + intros (a & Ha & Hne). rewrite Hal, elem_of_snapshot_alerts in Ha.
      destruct Ha as (loc & dates & d & ts & ? & ? & ? & ? & ->).
      exists loc, dates, d, ts. split_and!; try done.
      cbn in Hne. by rewrite sorted_nil in Hne.
  - intros Ht. rewrite Hl, Ht. unfold notified. cbn. fold notified.
    rewrite notified_fmap. split; [done|]. intros loc. rewrite Hin. split.
    + by intros [_ ?].
    + intros ?. split; [by intros ?%elem_of_nil|done].
  - intros Hf. by rewrite Hl, Hf.
Qed.

Lemma summary_and_notifications_witness :
  NoDup (notified (launched SampleReport.busy))
  ∧ ∀ loc, loc ∈ notified (launched SampleReport.busy)
           ↔ ∃ a, a ∈ alerts SampleReport.busy ∧ location a = loc.
Proof.
  exact (proj1 (proj2 (proj2 (proj2 (summary_and_notifications
           (World Sample.fs (Some Sample.busy) FirefoxOk) SampleReport.busy
           ltac:(vm_compute; reflexivity))))) eq_refl).
Defined.

(** C5 as stated fails. With alerting taken as the specification
    defines it (an in-window date that has times), the sample [mixed]
    has the one alerting location Boston, whose first qualifying date is
    2025-04-02: the summary shows Boston for 2025-04-01, a date
    without times, and both a summary entry and a notification go to
    Lowell, which has no time at all. With alerting taken as the alert
    records of the code, the sample [empty_dates] has the alerting
    location Boston and starts no notification for it. *)
Lemma summary_and_notifications_off :
  analyze_appointments (World Sample.fs (Some Sample.mixed) FirefoxOk)
    = Returned SampleReport.mixed
  ∧ AlertEntry "Boston" "2025-04-01" [] ∈ stdout SampleReport.mixed
  ∧ LaunchNotify "Lowell" ∈ launched SampleReport.mixed
  ∧ analyze_appointments (World Sample.fs (Some Sample.empty_dates) FirefoxOk)
    = Returned SampleReport.empty_dates
  ∧ alerts SampleReport.empty_dates ≠ []
  ∧ launched SampleReport.empty_dates = [].
Proof.
  split_and!; try by vm_compute.
  - right. by left.
  - right. right. by left.
Qed.

End matcher.

(** ** Dicts *)

Section pydict.
Context {V : Type}.
Implicit Types (d : PyDict.dict V) (k : string) (v : V).

Lemma get_set_eq k v d : PyDict.get k (PyDict.set k v d) = Some v.
Proof.
  induction d as [|[k' v'] d IH]; cbn.
  - by rewrite String.eqb_refl.
  - destruct (String.eqb k' k) eqn:Hk; cbn; [by rewrite String.eqb_refl|].
    by rewrite Hk.
Qed.

Lemma get_set_ne k k' v d : k ≠ k' → PyDict.get k' (PyDict.set k v d) = PyDict.get k' d.
Proof.
  intros Hne. induction d as [|[k0 v0] d IH]; cbn.
  - by rewrite (proj2 (String.eqb_neq k k')).
  - destruct (String.eqb k0 k) eqn:Hk; cbn.
    + apply String.eqb_eq in Hk as ->.
      by rewrite !(proj2 (String.eqb_neq k k')).
    + by rewrite IH.
Qed.

Lemma get_None k d : k ∉ PyDict.keys d → PyDict.get k d = None.
Proof.
  induction d as [|[k' v'] d IH]; cbn; [done|].
  rewrite not_elem_of_cons. intros [Hne ?].
  rewrite (proj2 (String.eqb_neq k' k)) by done. by apply IH.
Qed.

End pydict.

(** ** The normalizer (C1) *)

Section normalizer.
Import Browse Normal.
Implicit Types (bd : PyDict.dict (list string)).

Lemma append_time_get iso t bd :
  PyDict.get iso (append_time iso t bd) = Some (default [] (PyDict.get iso bd) ++ [t]).
Proof. apply get_set_eq. Qed.

Lemma transform_slots_get iso tds bd l :
  PyDict.get iso bd = Some l →
  PyDict.get iso (foldl (transform_slot iso) bd tds) = Some (l ++ omap slot_time tds).
Proof.
  revert bd l. induction tds as [|td tds IH]; intros bd l Hl; cbn.
  { by rewrite app_nil_r. }
  unfold transform_slot at 2, slot_time.
  destruct (strptime_mdY_IMS_p (datetime_ td)) as [t|]; cbn.
  - erewrite IH; [|by rewrite append_time_get, Hl]. cbn. by rewrite <-app_assoc.
  - by apply IH.
Qed.

Lemma transform_slots_other iso iso' tds bd :
  iso ≠ iso' →
  PyDict.get iso' (foldl (transform_slot iso) bd tds) = PyDict.get iso' bd.
Proof.
  intros Hne. revert bd. induction tds as [|td tds IH]; intros bd; cbn; [done|].
  rewrite IH. unfold transform_slot.
  destruct (strptime_mdY_IMS_p (datetime_ td)); [|done].
  by apply get_set_ne.
Qed.

Lemma transform_groups_get iso gs bd l :
  PyDict.get iso bd = Some l →
  PyDict.get iso (foldl (transform_group iso) bd gs)
  = Some (l ++ (g ← gs; group_times g)).
Proof.
  revert bd l. induction gs as [|g gs IH]; intros bd l Hl; cbn.
  { by rewrite app_nil_r. }
  erewrite IH; [|by apply transform_slots_get]. by rewrite <-app_assoc.
Qed.

Lemma transform_groups_other iso iso' gs bd :
  iso ≠ iso' →
  PyDict.get iso' (foldl (transform_group iso) bd gs) = PyDict.get iso' bd.
Proof.
  intros Hne. revert bd. induction gs as [|g gs IH]; intros bd; cbn; [done|].
  rewrite IH. by apply transform_slots_other.
Qed.

(** One date group appends its times to the list of its ISO date,
    creating the list when the date is new, and leaves the other dates
    alone. *)
Lemma transform_date_get iso dd bd :
  PyDict.get iso (transform_date bd dd)
  = if decide (iso_date_of dd = Some iso)
    then Some (default [] (PyDict.get iso bd) ++ date_times dd)
    else PyDict.get iso bd.
Proof.
  unfold transform_date, iso_date_of.
  destruct (strptime_b_d_Y (full_date dd)) as [t|]; cbn; [|by case_decide].
  case_decide as Hiso.
  - injection Hiso as <-. unfold PyDict.contains.
    destruct (PyDict.get (strftime_Y_m_d t) bd) as [l|] eqn:Hl; cbn.
    + by apply transform_groups_get.
    + rewrite (transform_groups_get _ _ _ []); [done|apply get_set_eq].
  - assert (strftime_Y_m_d t ≠ iso) by congruence.
    rewrite transform_groups_other by done.
    destruct (PyDict.contains _ _); [done|]. by apply get_set_ne.
Qed.

Lemma contributed_in_absent iso dds :
  present_in iso dds = false → contributed_in iso dds = [].
Proof.
  unfold present_in, contributed_in. rewrite bool_decide_eq_false.
  induction dds as [|dd dds IH]; intros Hn; cbn; [done|].
  rewrite Exists_cons in Hn. case_decide; [by destruct Hn; left|].
  cbn. apply IH. intros ?. apply Hn. by right.
Qed.

Lemma transform_dates_get iso dds bd :
  PyDict.get iso (foldl transform_date bd dds)
  = if present_in iso dds
    then Some (default [] (PyDict.get iso bd) ++ contributed_in iso dds)
    else PyDict.get iso bd.
Proof.
  revert bd. induction dds as [|dd dds IH]; intros bd; [done|].
  cbn [foldl]. rewrite IH, transform_date_get. clear IH.
  unfold present_in at 2. rewrite (bool_decide_ext _ _ (Exists_cons _ _ _)).
  fold (present_in iso dds). unfold contributed_in at 2. cbn.
  fold (contributed_in iso dds). case_decide as Hdd.
  - rewrite bool_decide_true by (by left).
    destruct (present_in iso dds) eqn:Hp; cbn.
    + by rewrite <-app_assoc.
    + by rewrite (contributed_in_absent _ _ Hp), app_nil_r.
  - cbn. destruct (present_in iso dds) eqn:Hp.
    + rewrite bool_decide_true; [done|]. right.
      by apply bool_decide_eq_true in Hp.
    + rewrite bool_decide_false; [done|]. intros [?|?]; [done|].
      by apply bool_decide_eq_false in Hp.
Qed.

Lemma transform_pages_dates pds bd :
  foldl transform_page bd pds = foldl transform_date bd (pd ← pds; dates pd).
Proof.
  revert bd. induction pds as [|pd pds IH]; intros bd; cbn; [done|].
  by rewrite IH, foldl_app.
Qed.

Lemma transform_locations_other loc items acc :
  loc ∉ PyDict.keys items →
  PyDict.get loc (foldl transform_location acc items) = PyDict.get loc acc.
Proof.
  revert acc. induction items as [|[k ld] items IH]; intros acc; cbn; [done|].
  rewrite not_elem_of_cons. intros [Hne ?]. rewrite IH by done.
  unfold transform_location. cbn. by apply get_set_ne.
Qed.

Lemma transform_locations_get loc ld items acc :
  NoDup (PyDict.keys items) → (loc, ld) ∈ items →
  PyDict.get loc (foldl transform_location acc items)
  = Some (foldl transform_page [] (pages ld)).
Proof.
  revert acc. induction items as [|[k ld'] items IH]; intros acc Hnd Hin.
  { by apply elem_of_nil in Hin. }
  cbn in Hnd. apply NoDup_cons in Hnd as [Hk Hnd]. cbn [foldl].
  apply elem_of_cons in Hin as [[= <- <-]|Hin].
  - rewrite transform_locations_other by done. apply get_set_eq.
  - by apply IH.
Qed.

(** C1, as the code has it. For a location of the raw records and an
    ISO date, the time list of [transform_data] is the concatenation, in
    page, date-group, time-group and slot order, of the [HH:MM] times
    of all slots contributed for that location and date whose machine
    time parses; the list exists when some date group of the location
    has that date. The list therefore has the members of the union, in
    the order met, with every repetition kept: it is neither sorted nor
    free of duplicates. *)
Theorem transform_data_times a loc ld iso :
  NoDup (PyDict.keys (locations a)) →
  (loc, ld) ∈ locations a →
  lookup loc iso (transform_data a)
  = (if present_in iso (all_dates ld) then Some (contributed iso ld) else None)
  ∧ (∀ l, lookup loc iso (transform_data a) = Some l →
          ∀ t, t ∈ l ↔ t ∈ sorted_union iso ld).
Proof.
  intros Hnd Hin.
  assert (lookup loc iso (transform_data a)
          = if present_in iso (all_dates ld) then Some (contributed iso ld) else None)
    as Heq.
  { unfold lookup, transform_data. rewrite (transform_locations_get _ _ _ _ Hnd Hin).
    cbn. by rewrite transform_pages_dates, transform_dates_get. }
  split; [done|]. rewrite Heq. intros l Hl t.
  destruct (present_in iso (all_dates ld)); [|done]. injection Hl as <-.
  unfold sorted_union, sorted.
  by rewrite merge_sort_Permutation, elem_of_remove_dups.
Qed.

Lemma transform_data_times_witness :
  lookup "Boston" "2025-04-10" (transform_data two_pages_data)
  = Some (contributed "2025-04-10" two_pages).
Proof.
  exact (proj1 (transform_data_times two_pages_data "Boston" two_pages "2025-04-10"
                  ltac:(vm_compute; repeat constructor; set_solver)
                  ltac:(left))).
Defined.

(** C1 as stated fails: for the two pages contributing
    ["09:00","10:30"] and ["10:30","09:00","11:00"] to one location and
    date the normalizer yields the five times in the order met, not the
    sorted duplicate-free ["09:00","10:30","11:00"]. *)
Lemma transform_data_not_sorted_union :
  lookup "Boston" "2025-04-10" (transform_data two_pages_data)
  = Some ["09:00"; "10:30"; "10:30"; "09:00"; "11:00"]
  ∧ sorted_union "2025-04-10" two_pages = ["09:00"; "10:30"; "11:00"].
Proof. split; by vm_compute. Qed.

End normalizer.

(** ** The page extractor (C3, C9) *)

Section extractor.
Import Browse Extract.

Variable fs : files.

Lemma read_groups_last els bound :
  read_groups els bound
  = match last els with Some el => Some (read_group el) | None => bound end.
Proof.
  unfold read_groups. revert bound.
  induction els as [|el els IH]; intros bound; [done|].
  cbn [foldl]. rewrite IH. destruct els as [|el' els]; [done|].
  rewrite last_cons_cons. destruct (last (el' :: els)) eqn:Hl; [done|].
  by apply last_None in Hl.
Qed.


(** One round either leaves the locals alone or appends one record
    holding exactly the value bound to [group_data]. *)
Lemma parse_column_Return col st st' :
  parse_column fs col st = Return st' →
  (st' = st ∧ ∀ d f, classify fs col ≠ InWindow d f)
  ∨ (∃ d f g, classify fs col = InWindow d f
       ∧ read_groups (groups col) (l_group_data st) = Some g
       ∧ st' = Locals (l_dates st ++ [DateData d f [g]]) (Some g)).
Proof.
  unfold parse_column. destruct (classify fs col) as [| | |d f];
    try (intros [= <-]; by left).
  destruct (read_groups _ _) as [g|] eqn:Hg; [|done].
  intros [= <-]. right. by exists d, f, g.
Qed.

(** The dates only grow, by records with one time group each. *)
Lemma parse_columns_dates cols st st' :
  parse_columns fs cols st = Return st' →
  ∃ more, l_dates st' = l_dates st ++ more
    ∧ ∀ dd, dd ∈ more → ∃ g, time_groups dd = [g].
Proof.
  revert st. induction cols as [|c cols IH]; intros st; cbn.
  { intros [= <-]. exists []. split; [by rewrite app_nil_r|]. by intros ? ?%elem_of_nil. }
  destruct (parse_column fs c st) as [st1|] eqn:Hc; [|done].
  intros (more & Heq & Hmore)%IH.
  apply parse_column_Return in Hc as [[-> _]|(d & f & g & _ & _ & ->)].
  - by exists more.
  - cbn in Heq. exists (DateData d f [g] :: more). split.
    + by rewrite Heq, <-app_assoc.
    + intros dd [->|?]%elem_of_cons; [by exists g|by apply Hmore].
Qed.





End extractor.

Section extractor_samples.
Import Browse Extract.


(** The empty column behind a column with groups: it takes over the
    last group of that column. *)
Example stale_group_sample :
  parse_date_time_group no_files [thursday; in_may; friday]
  = Return [DateData "Thursday" "Apr 10, 2025" [read_group afternoon];
            DateData "Friday" "Apr 11, 2025" [read_group afternoon]].
Proof. by vm_compute. Qed.

(** Three attempts on the page with the lone empty column all raise; the
    page record comes back without dates. *)
Example get_page_data_sample : get_page_data no_files [friday] = PageData [].
Proof. by vm_compute. Qed.

(** C3 fails on the code: of the two time groups of the in-window
    column only the last one reaches the record. *)
Lemma parse_keeps_last_group_only :
  classify no_files thursday = InWindow "Thursday" "Apr 10, 2025"
  ∧ all_groups thursday = [read_group morning; read_group afternoon]
  ∧ parse_date_time_group no_files [thursday]
    = Return [DateData "Thursday" "Apr 10, 2025" [read_group afternoon]].
Proof. split_and!; by vm_compute. Qed.

End extractor_samples.

(** ** The traversal (C6) *)

Section traversal.
Import Browse Traverse.

Variables (fs : files) (bl : gset string).

Lemma town_body_Done i t st st' :
  town_body fs bl i t st = Done st' →
  raises bl t = false ∧ t_recoveries st' = t_recoveries st.
Proof.
  unfold town_body, raises. destruct (button_text t) as [txt|]; [|done].
  case_bool_decide; [by intros [= <-]|].
  destruct (visit t) as [[p ps]|]; [|done].
  destruct (return_ok t); [by intros [= <-]|done].
Qed.

Lemma town_body_Raised i t st st' :
  town_body fs bl i t st = Raised st' →
  raises bl t = true ∧ t_recoveries st' = t_recoveries st.
Proof.
  unfold town_body, raises. destruct (button_text t) as [txt|]; [|by intros [= <-]].
  case_bool_decide; [done|].
  destruct (visit t) as [[p ps]|]; [|by intros [= <-]].
  destruct (return_ok t); [done|by intros [= <-]].
Qed.

Lemma reached_0 towns : reached bl towns 0.
Proof. intros j t ?. lia. Qed.

Lemma reached_S t towns k :
  reached bl (t :: towns) (S k) ↔ fatal bl t = false ∧ reached bl towns k.
Proof.
  unfold reached. split.
  - intros H. split; [by apply (H 0%nat); [lia|]|].
    intros j t' ? ?. apply (H (S j)); [lia|done].
  - intros [Ht H] [|j] t' ? Hj; [by injection Hj as <-|].
    apply (H j); [lia|done].
Qed.

(** One recovery is attempted for each town that is reached and
    raises, and for no other. *)
Lemma visit_towns_recoveries i towns st :
  ∃ recs, t_recoveries (visit_towns fs bl i towns st) = t_recoveries st ++ recs
    ∧ NoDup recs.*1
    ∧ ∀ j ok, (j, ok) ∈ recs
        ↔ ∃ k t, j = (i + k)%nat ∧ towns !! k = Some t ∧ raises bl t = true
            ∧ ok = recover_ok t ∧ reached bl towns k.
Proof.
  revert i st. induction towns as [|t towns IH]; intros i st; cbn.
  { exists []. rewrite app_nil_r. split_and!; [done|constructor|].
    intros j ok. split; [by intros ?%elem_of_nil|]. by intros (k & t & _ & ? & _). }
  destruct (town_body fs bl i t st) as [st'|st'] eqn:Hb.
  - apply town_body_Done in Hb as [Hr Hrec].
    destruct (IH (S i) st') as (recs & Heq & Hnd & Hin).
    exists recs. rewrite Heq, Hrec. split_and!; [done..|].
    intros j ok. rewrite Hin. split.
    + intros (k & t' & -> & ? & ? & ? & ?). exists (S k), t'.
      split_and!; [lia|done..|]. apply reached_S. split; [|done].
      unfold fatal. by rewrite Hr.
    + intros ([|k] & t' & -> & Hk & ? & ? & Hre); cbn in Hk.
      * congruence.
      * exists k, t'. split_and!; [lia|done..|]. by apply reached_S in Hre as [_ ?].
  - apply town_body_Raised in Hb as [Hr Hrec].
    destruct (recover_ok t) eqn:Hok.
    + match goal with |- context [visit_towns fs bl (S i) towns ?s] =>
        destruct (IH (S i) s) as (recs & Heq & Hnd & Hin) end.
      cbn in Heq. exists ((i, true) :: recs).
      rewrite Heq, Hrec, <-app_assoc. split_and!; [done| |].
      * cbn. constructor; [|done]. intros (x & Hx & Hxin)%list_elem_of_fmap.
        destruct x as [j ok]. cbn in Hx. subst j.
        apply Hin in Hxin as (k & ? & ? & _). lia.
      * intros j ok. rewrite elem_of_cons, Hin. split.
        -- intros [[= -> ->]|(k & t' & -> & ? & ? & ? & ?)].
           ++ exists 0%nat, t. split_and!; [lia|done..|apply reached_0].
           ++ exists (S k), t'. split_and!; [lia|done..|]. apply reached_S.
              split; [|done]. unfold fatal. by rewrite Hok, andb_false_r.
        -- intros ([|k] & t' & -> & Hk & ? & -> & Hre); cbn in Hk.
           ++ injection Hk as <-. left. f_equal; [lia|done].
           ++ right. exists k, t'. split_and!; [lia|done..|].
              by apply reached_S in Hre as [_ ?].
    + exists [(i, false)]. cbn. rewrite Hrec. split_and!; [done|by apply NoDup_singleton|].
      intros j ok. rewrite list_elem_of_singleton. split.
      * intros [= -> ->]. exists 0%nat, t. split_and!; [lia|done..|apply reached_0].
      * intros ([|k] & t' & -> & Hk & ? & -> & Hre); cbn in Hk.
        -- injection Hk as <-. f_equal; [lia|done].
        -- apply reached_S in Hre as [Hf _]. unfold fatal in Hf.
           by rewrite Hr, Hok in Hf.
Qed.

(** Behind a town whose recovery fails nothing is visited. *)
Lemma visit_towns_stops i pre t post st :
  fatal bl t = true →
  visit_towns fs bl i (pre ++ t :: post) st = visit_towns fs bl i (pre ++ [t]) st.
Proof.
  intros Hf. revert i st. induction pre as [|t0 pre IH]; intros i st; cbn.
  - unfold fatal in Hf. apply andb_true_iff in Hf as [Hr Hok].
    destruct (town_body fs bl i t st) as [st'|st'] eqn:Hb.
    + apply town_body_Done in Hb as [? _]. congruence.
    + by destruct (recover_ok t).
  - destruct (town_body fs bl i t0 st) as [st'|st']; [apply IH|].
    destruct (recover_ok t0); [apply IH|done].
Qed.

End traversal.

Section run.
Import Browse Traverse.

(** C6, as the code has it. In every run that finds its URL, exactly
    one recovery is attempted for each town that is reached and whose
    [try] block raises. A failed recovery only leaves the loop: the
    towns behind it are not visited, but the run goes on with what was
    collected, so that (without [--blacklist]) the snapshot is written,
    [alert.py] is started on it, and the process ends with status 0. *)
Theorem failed_recovery_ends_traversal_only r content :
  rmv_url_txt (r_files r) = Some content →
  let bl := load_list (blacklist_txt (r_files r)) in
  ∃ fin, test_list_buttons r = Returns fin
    ∧ exit_code (test_list_buttons r) = 0
    ∧ NoDup (f_recoveries fin).*1
    ∧ (∀ i ok, (i, ok) ∈ f_recoveries fin
         ↔ ∃ t, r_towns r !! i = Some t ∧ raises bl t = true
             ∧ ok = recover_ok t ∧ reached bl (r_towns r) i)
    ∧ (∀ pre t post, r_towns r = pre ++ t :: post → fatal bl t = true →
         test_list_buttons r
         = test_list_buttons (Run (r_files r) (pre ++ [t]) (r_blacklist_arg r) (r_time r)))
    ∧ (r_blacklist_arg r = None →
         ∃ snap, f_snapshot fin = Some (r_time r, snap)
           ∧ f_alert_run fin = Some (r_time r)).
Proof.
  intros Hu bl.
  destruct (visit_towns_recoveries (r_files r) bl 0 (r_towns r)
              (Trav [] [LoadedUrl (strip content)] []))
    as (recs & Heq & Hnd & Hin). cbn in Heq.
  assert (Hrecs : ∀ i ok, (i, ok) ∈ recs
             ↔ ∃ t, r_towns r !! i = Some t ∧ raises bl t = true
                 ∧ ok = recover_ok t ∧ reached bl (r_towns r) i).
  { intros i ok. rewrite Hin. split.
    - intros (k & t & -> & ?). by exists t.
    - intros (t & ?). by exists i, t. }
  assert (Hstop : ∀ pre t post, r_towns r = pre ++ t :: post → fatal bl t = true →
            test_list_buttons r
            = test_list_buttons (Run (r_files r) (pre ++ [t]) (r_blacklist_arg r) (r_time r))).
  { intros pre t post Ht Hf. unfold test_list_buttons. cbn. rewrite Hu, Ht.
    fold bl. by rewrite (visit_towns_stops _ _ _ _ _ post _ Hf). }
  assert (Hfin : ∃ fin, test_list_buttons r = Returns fin
            ∧ f_recoveries fin = recs
            ∧ (r_blacklist_arg r = None →
                 ∃ snap, f_snapshot fin = Some (r_time r, snap)
                   ∧ f_alert_run fin = Some (r_time r))).
  { unfold test_list_buttons. rewrite Hu. fold bl.
    destruct (r_blacklist_arg r) as [[|c b]|]; cbn [given].
    - eexists; (split; [done|]); cbn; by rewrite Heq.
    - case_bool_decide; eexists; (split; [done|]); cbn; by rewrite Heq.
    - eexists; (split; [done|]); cbn; rewrite Heq. split; [done|].
      intros _. by eexists. }
  destruct Hfin as (fin & Hfin & Hrec & Hsnap). exists fin.
  rewrite Hfin, Hrec. split_and!; try done. by rewrite <-Hfin.
Qed.

Lemma failed_recovery_ends_traversal_only_witness :
  ∃ fin, test_list_buttons stuck_run = Returns fin
    ∧ exit_code (test_list_buttons stuck_run) = 0
    ∧ NoDup (f_recoveries fin).*1
    ∧ (∀ i ok, (i, ok) ∈ f_recoveries fin
         ↔ ∃ t, r_towns stuck_run !! i = Some t ∧ raises ∅ t = true
             ∧ ok = recover_ok t ∧ reached ∅ (r_towns stuck_run) i)
    ∧ (∀ pre t post, r_towns stuck_run = pre ++ t :: post → fatal ∅ t = true →
         test_list_buttons stuck_run
         = test_list_buttons (Run Sample.fs (pre ++ [t]) None 1743000000))
    ∧ (r_blacklist_arg stuck_run = None →
         ∃ snap, f_snapshot fin = Some (r_time stuck_run, snap)
           ∧ f_alert_run fin = Some (r_time stuck_run)).
Proof.
  exact (failed_recovery_ends_traversal_only stuck_run "https://rmv.example/" eq_refl).
Defined.

(** C6 as stated fails: the only town raises, its recovery fails, and
    the run still writes the (empty) snapshot, starts [alert.py] and
    ends with status 0. *)
Lemma failed_recovery_not_fatal :
  fatal ∅ stuck_town = true
  ∧ test_list_buttons stuck_run = Returns stuck_report
  ∧ exit_code (test_list_buttons stuck_run) = 0.
Proof. split_and!; by vm_compute. Qed.

End run.

(** ** Strings: reversal, stripping, lines *)

Section strings.
Import Lines.

Lemma append_nil_l s : "" +:+ s = s.
Proof. reflexivity. Qed.

Lemma append_cons c a b : String c a +:+ b = String c (a +:+ b).
Proof. reflexivity. Qed.

Ltac sapp := repeat (rewrite append_cons || rewrite append_nil_l).

Lemma append_nil_r s : s +:+ "" = s.
Proof. induction s; sapp; by f_equal. Qed.

Lemma append_assoc a b c : (a +:+ b) +:+ c = a +:+ b +:+ c.
Proof. induction a; sapp; by f_equal. Qed.

Lemma string_rev_onto_spec s acc : string_rev_onto s acc = string_rev s +:+ acc.
Proof.
  unfold string_rev. revert acc.
  induction s as [|c s IH]; intros acc; cbn [string_rev_onto]; [done|].
  rewrite (IH (String c "")), IH, append_assoc. by sapp.
Qed.

Lemma string_rev_cons c s : string_rev (String c s) = string_rev s +:+ String c "".
Proof. unfold string_rev at 1. cbn [string_rev_onto]. apply string_rev_onto_spec. Qed.

Lemma string_rev_app a b : string_rev (a +:+ b) = string_rev b +:+ string_rev a.
Proof.
  induction a as [|c a IH]; sapp.
  - by rewrite append_nil_r.
  - by rewrite !string_rev_cons, IH, append_assoc.
Qed.

Lemma string_rev_involutive s : string_rev (string_rev s) = s.
Proof.
  induction s as [|c s IH]; [done|].
  rewrite string_rev_cons, string_rev_app, IH. by sapp.
Qed.

Lemma all_space_app a b : all_space (a +:+ b) = all_space a && all_space b.
Proof.
  induction a as [|c a IH]; sapp; cbn [all_space]; [done|].
  by rewrite IH, andb_assoc.
Qed.

Lemma all_space_rev s : all_space (string_rev s) = all_space s.
Proof.
  induction s as [|c s IH]; [done|].
  rewrite string_rev_cons, all_space_app, IH. cbn [all_space].
  by rewrite andb_true_r, andb_comm.
Qed.

Lemma lstrip_all_space s : all_space s = true → lstrip s = "".
Proof.
  induction s as [|c s IH]; cbn [all_space lstrip]; [done|].
  intros [-> ?]%andb_true_iff. by apply IH.
Qed.

Lemma lstrip_app_space a s : all_space a = true → lstrip (a +:+ s) = lstrip s.
Proof.
  induction a as [|c a IH]; sapp; cbn [all_space lstrip]; [done|].
  intros [-> ?]%andb_true_iff. by apply IH.
Qed.

Lemma lstrip_clean s : starts_clean s → lstrip s = s.
Proof. destruct s as [|c s]; cbn [lstrip]; [done|]. intros H. by rewrite (H c s). Qed.

Lemma lstrip_split s : ∃ a, s = a +:+ lstrip s ∧ all_space a = true.
Proof.
  induction s as [|c s (a & Heq & Ha)]; cbn [lstrip]; [by exists ""|].
  destruct (is_space c) eqn:Hc.
  - exists (String c a). sapp. cbn [all_space]. by rewrite <-Heq, Hc, Ha.
  - by exists "".
Qed.

Lemma lstrip_starts_clean s : starts_clean (lstrip s).
Proof.
  induction s as [|c s IH]; cbn [lstrip]; [done|].
  destruct (is_space c) eqn:Hc; [done|]. by intros ?? [= <- _].
Qed.

Lemma ends_clean_rev t : ends_clean t ↔ starts_clean (string_rev t).
Proof.
  split.
  - intros H c t' Heq. apply (H c (string_rev t')).
    by rewrite <-(string_rev_involutive t), Heq, string_rev_cons.
  - intros H c t' ->. apply (H c (string_rev t')).
    by rewrite string_rev_app.
Qed.

Lemma rstrip_split s : ∃ b, s = rstrip s +:+ b ∧ all_space b = true.
Proof.
  destruct (lstrip_split (string_rev s)) as (a & Heq & Ha).
  exists (string_rev a). split; [|by rewrite all_space_rev].
  unfold rstrip. by rewrite <-string_rev_app, <-Heq, string_rev_involutive.
Qed.

Lemma rstrip_ends_clean s : ends_clean (rstrip s).
Proof.
  apply ends_clean_rev. unfold rstrip. rewrite string_rev_involutive.
  apply lstrip_starts_clean.
Qed.

(** [strip] takes off the surrounding whitespace and nothing else. *)
Lemma strip_stripped s : stripped s (strip s).
Proof.
  destruct (lstrip_split s) as (a & Ha & ?).
  destruct (rstrip_split (lstrip s)) as (b & Hb & ?).
  exists a, b. unfold strip. split_and!; try done.
  - by rewrite <-Hb.
  - intros c t' Heq. rewrite Heq in Hb. by apply (lstrip_starts_clean s c (t' +:+ b)).
  - apply rstrip_ends_clean.
Qed.

Lemma stripped_unique s t : stripped s t → t = strip s.
Proof.
  intros (a & b & -> & Ha & Hb & Hs & He). unfold strip.
  rewrite lstrip_app_space by done. destruct t as [|c t].
  - sapp. by rewrite lstrip_all_space.
  - rewrite lstrip_clean by (sapp; intros ?? [= <- _]; by eapply Hs).
    unfold rstrip. rewrite string_rev_app, lstrip_app_space by (by rewrite all_space_rev).
    rewrite lstrip_clean by (by apply ends_clean_rev).
    by rewrite string_rev_involutive.
Qed.

Lemma strip_blank s : strip s = "" ↔ all_space s = true.
Proof.
  split.
  - intros Hs. destruct (strip_stripped s) as (a & b & Heq & Ha & Hb & _).
    rewrite Hs, append_nil_l in Heq. by rewrite Heq, all_space_app, Ha, Hb.
  - intros Hs. symmetry. apply stripped_unique. exists s, "".
    sapp. rewrite append_nil_r. split_and!; try done.
    intros c [|??] Heq; by vm_compute in Heq.
Qed.

(** The lines of a file, put together, are the file. *)
Lemma join_readlines_from cur s :
  join (readlines_from cur s) = string_rev cur +:+ s.
Proof.
  revert cur. induction s as [|c s IH]; intros cur; cbn [readlines_from].
  - destruct (String.eqb_spec cur "") as [->|]; [done|].
    cbn [join foldr]. by rewrite !append_nil_r.
  - destruct (Ascii.eqb c "010"); cbn [join foldr]; fold (join (readlines_from "" s));
      rewrite IH, string_rev_cons, ?append_assoc; by sapp.
Qed.

Lemma join_readlines content : join (readlines content) = content.
Proof. apply join_readlines_from. Qed.

End strings.

(** ** The list files (C10) *)

Section lists.
Import Lines.

Lemma elem_of_load_list content x :
  x ∈ load_list (Some content)
  ↔ ∃ l, l ∈ readlines content ∧ stripped l x ∧ x ≠ "".
Proof.
  unfold load_list. rewrite elem_of_list_to_set, list_elem_of_fmap. split.
  - intros (l & -> & [Hne Hl]%list_elem_of_filter). exists l.
    split_and!; [done|apply strip_stripped|done].
  - intros (l & Hl & ->%stripped_unique & Hne). exists l.
    split; [done|]. by apply list_elem_of_filter.
Qed.

Lemma visit_towns_blacklist_line fs bl i towns st j loc :
  BlacklistLocation j loc ∈ Browse.t_out (Browse.visit_towns fs bl i towns st) →
  BlacklistLocation j loc ∈ Browse.t_out st ∨ loc ∈ bl.
Proof.
  revert i st. induction towns as [|t towns IH]; intros i st; cbn; [by left|].
  unfold Browse.town_body.
  destruct (Browse.button_text t) as [txt|]; [case_bool_decide as Hbl|].
  - intros [Hin|?]%IH; [|by right]. cbn in Hin.
    apply elem_of_app in Hin as [?|[= _ ->]%list_elem_of_singleton]; auto.
  - destruct (Browse.visit t) as [[p ps]|]; [destruct (Browse.return_ok t)|];
      try destruct (Browse.recover_ok t); cbn;
      try (intros [Hin|?]%IH; [|by right]; cbn in Hin);
      try intros Hin;
      repeat (apply elem_of_app in Hin as [Hin|Hin]);
      try (apply list_elem_of_singleton in Hin; try done);
      auto.
  - destruct (Browse.recover_ok t); cbn;
      try (intros [Hin|?]%IH; [|by right]; cbn in Hin);
      try intros Hin;
      repeat (apply elem_of_app in Hin as [Hin|Hin]);
      try (apply list_elem_of_singleton in Hin; try done);
      auto.
Qed.

(** Only the window descriptor of the files matters to the date check
    and to what is built on it. *)
Section same_window.
Variables fs fs' : files.
Hypothesis Hw : time_window_json fs = time_window_json fs'.

Lemma is_alert_date_same d : is_alert_date fs d = is_alert_date fs' d.
Proof. unfold is_alert_date, load_time_window. by rewrite Hw. Qed.

Lemma scan_dates_same u loc dates st :
  Alert.scan_dates fs u loc dates st = Alert.scan_dates fs' u loc dates st.
Proof.
  revert st. induction dates as [|[d ts] dates IH]; intros st; cbn; [done|].
  rewrite is_alert_date_same. destruct (is_alert_date fs' d) as [[] out]; apply IH.
Qed.

Lemma scan_locations_same u bl data st :
  Alert.scan_locations fs u bl data st = Alert.scan_locations fs' u bl data st.
Proof.
  revert st. induction data as [|[loc dates] data IH]; intros st; cbn; [done|].
  case_bool_decide; [apply IH|]. by rewrite scan_dates_same, IH.
Qed.

Lemma get_page_data_same p : Browse.get_page_data fs p = Browse.get_page_data fs' p.
Proof.
  assert (∀ col, Browse.classify fs col = Browse.classify fs' col) as Hc.
  { intros col. unfold Browse.classify.
    destruct (re_search _ _); [|done]. destruct (strptime_b_d_Y _); [|done].
    by rewrite is_alert_date_same. }
  assert (∀ cols st, Browse.parse_columns fs cols st = Browse.parse_columns fs' cols st)
    as Hp.
  { induction cols as [|col cols IH]; intros st; cbn; [done|].
    unfold Browse.parse_column. rewrite Hc.
    destruct (Browse.classify fs' col); try apply IH.
    destruct (Browse.read_groups _ _); [apply IH|done]. }
  unfold Browse.get_page_data, Browse.get_page_data_from, Browse.parse_date_time_group.
  by rewrite Hp.
Qed.

Lemma visit_towns_same bl i towns st :
  Browse.visit_towns fs bl i towns st = Browse.visit_towns fs' bl i towns st.
Proof.
  revert i st. induction towns as [|t towns IH]; intros i st; cbn; [done|].
  assert (Browse.town_body fs bl i t st = Browse.town_body fs' bl i t st) as ->.
  { unfold Browse.town_body. destruct (Browse.button_text t); [|done].
    case_bool_decide; [done|]. destruct (Browse.visit t) as [[p ps]|]; [|done].
    assert (Browse.get_page_data fs <$> p :: ps = Browse.get_page_data fs' <$> p :: ps)
      as -> by (apply list_fmap_ext; intros; apply get_page_data_same).
    done. }
  destruct (Browse.town_body fs' bl i t st); [apply IH|].
  destruct (Browse.recover_ok t); [apply IH|done].
Qed.

End same_window.

(** C10. [load_list] gives the empty set for a file that does not
    exist, and for a file that exists the set of its lines with the
    surrounding whitespace taken off, blank lines left out (the lines,
    put together, are the file). A missing blacklist is therefore the
    same as an empty one: both programs behave as on an empty file, the
    matcher alerts for every in-window date of every location, and the
    traversal skips no town. *)
Theorem load_list_missing_is_empty :
  load_list None = ∅
  ∧ (∀ content x,
       x ∈ load_list (Some content)
       ↔ ∃ l, l ∈ readlines content ∧ stripped l x ∧ x ≠ "")
  ∧ (∀ content, join (readlines content) = content)
  ∧ (∀ l, strip l = "" ↔ all_space l = true)
  ∧ (∀ tw wl u data fx,
       Alert.analyze_appointments (Alert.World (Files tw None wl u) data fx)
       = Alert.analyze_appointments (Alert.World (Files tw (Some "") wl u) data fx))
  ∧ (∀ tw wl u towns arg time,
       Browse.test_list_buttons (Browse.Run (Files tw None wl u) towns arg time)
       = Browse.test_list_buttons (Browse.Run (Files tw (Some "") wl u) towns arg time))
  ∧ (∀ w r data,
       blacklist_txt (Alert.w_files w) = None →
       Alert.analyze_appointments w = Alert.Returned r →
       Alert.w_data w = Some data →
       ∀ loc dates d ts,
         (loc, dates) ∈ data → (d, ts) ∈ dates → in_window (Alert.w_files w) d = true →
         ∃ a, a ∈ Alert.alerts r ∧ Alert.location a = loc ∧ Alert.date a = d)
  ∧ (∀ r fin,
       blacklist_txt (Browse.r_files r) = None →
       Browse.test_list_buttons r = Browse.Returns fin →
       ∀ i loc, BlacklistLocation i loc ∉ Browse.f_out fin).
Proof.
  split_and!.
  - done.
  - apply elem_of_load_list.
  - apply join_readlines.
  - apply strip_blank.
  - intros tw wl [content|] [data|] fx; try done.
    unfold Alert.analyze_appointments. cbn [Alert.w_files Alert.w_data rmv_url_txt blacklist_txt].
    replace (load_list (Some "")) with (load_list None) by reflexivity.
    by rewrite (scan_locations_same (Files tw None wl (Some content))
                  (Files tw (Some "") wl (Some content))).
  - intros tw wl [content|] towns arg time; try done.
    unfold Browse.test_list_buttons.
    cbn [Browse.r_files Browse.r_towns rmv_url_txt blacklist_txt].
    replace (load_list (Some "")) with (load_list None) by reflexivity.
    by rewrite (visit_towns_same (Files tw None wl (Some content))
                  (Files tw (Some "") wl (Some content))).
  - intros w r data Hbl (content & _ & H)%analyze_returned Hdata loc dates d ts ? ? ?.
    cbn zeta in H. rewrite Hdata, Hbl in H. destruct H as (Hal & _).
    exists (Alert.MkAlert loc d (sorted ts) (strip content)). split; [|done].
    rewrite Hal. apply elem_of_snapshot_alerts. exists loc, dates, d, ts.
    split_and!; try done.
  - intros r fin Hbl. unfold Browse.test_list_buttons. rewrite Hbl. cbn [load_list].
    destruct (rmv_url_txt (Browse.r_files r)) as [content|]; [|done].
    assert (∀ i loc, BlacklistLocation i loc
                     ∉ Browse.t_out (Browse.visit_towns (Browse.r_files r) ∅ 0
                                       (Browse.r_towns r)
                                       (Browse.Trav [] [LoadedUrl (strip content)] [])))
      as Hout.
    { intros i loc [Hin|Hin]%visit_towns_blacklist_line; [|set_solver].
      by apply list_elem_of_singleton in Hin. }
    destruct (Browse.r_blacklist_arg r) as [[|c b]|]; cbn [Browse.given];
      case_bool_decide; intros [= <-] i loc; cbn;
      rewrite ?elem_of_app, ?list_elem_of_singleton, ?elem_of_nil;
      intros Hin;
      repeat match goal with H : _ ∨ _ |- _ => destruct H end;
      try done; try (by eapply Hout);
      repeat match goal with
        | H : _ ∈ _ :: _ |- _ => apply elem_of_cons in H as [?|H]; [done|]
        end;
      match goal with H : _ ∈ [] |- _ => by apply elem_of_nil in H end.
Qed.

Lemma load_list_missing_is_empty_witness : "Boston" ∈ load_list (Some sample_file).
Proof.
  apply (proj2 (proj1 (proj2 load_list_missing_is_empty) sample_file "Boston")).
  exists (" Boston  " +:+ nl). split_and!.
  - vm_compute. left.
  - exact (strip_stripped (" Boston  " +:+ nl)).
  - done.
Defined.

End lists.

(** * Further properties of the code *)

(** ** The order of datetimes *)

Lemma lex_compare_eq a b : lex_compare a b = Eq → a = b.
Proof.
  revert b. induction a as [|x a IH]; intros [|y b]; cbn; try done.
  destruct (Z.compare_spec x y); try done. intros ?%IH. by subst.
Qed.

Lemma lex_compare_refl a : lex_compare a a = Eq.
Proof. induction a as [|x a IH]; cbn; [done|]. by rewrite Z.compare_refl. Qed.

Lemma lex_compare_antisym a b : lex_compare b a = CompOpp (lex_compare a b).
Proof.
  revert b. induction a as [|x a IH]; intros [|y b]; cbn; try done.
  rewrite (Z.compare_antisym x y). destruct (x ?= y); cbn; auto.
Qed.

Lemma lex_compare_lt_trans a b c :
  lex_compare a b = Lt → lex_compare b c = Lt → lex_compare a c = Lt.
Proof.
  revert b c. induction a as [|x a IH]; intros [|y b] [|z c]; cbn; try done.
  destruct (Z.compare_spec x y), (Z.compare_spec y z); try done; intros Hab Hbc.
  - subst. rewrite Z.compare_refl. by eapply IH.
  - subst. by rewrite (proj2 (Z.compare_lt_iff _ _)).
  - subst. by rewrite (proj2 (Z.compare_lt_iff _ _)).
  - by rewrite (proj2 (Z.compare_lt_iff x z)) by lia.
Qed.

Lemma fields_inj a b : fields a = fields b → a = b.
Proof. destruct a, b. by intros [= -> -> -> -> -> ->]. Qed.

Lemma dt_lt_trans a b c : dt_lt a b = true → dt_lt b c = true → dt_lt a c = true.
Proof.
  unfold dt_lt, dt_compare.
  destruct (lex_compare (fields a) (fields b)) eqn:Hab; try done.
  destruct (lex_compare (fields b) (fields c)) eqn:Hbc; try done.
  by rewrite (lex_compare_lt_trans _ _ _ Hab Hbc).
Qed.

Lemma dt_le_lt_trans a b c : dt_le a b = true → dt_lt b c = true → dt_lt a c = true.
Proof.
  unfold dt_le. destruct (dt_compare a b) eqn:Hab; try done; intros _.
  - apply lex_compare_eq, fields_inj in Hab. by subst.
  - apply dt_lt_trans. unfold dt_lt. by rewrite Hab.
Qed.

Lemma dt_lt_irrefl a : dt_lt a a = false.
Proof. unfold dt_lt, dt_compare. by rewrite lex_compare_refl. Qed.

(** [not (a < b)] is [b <= a]. *)
Lemma dt_lt_false a b : dt_lt a b = false ↔ dt_le b a = true.
Proof.
  unfold dt_lt, dt_le, dt_compare. rewrite (lex_compare_antisym (fields a)).
  by destruct (lex_compare (fields a) (fields b)).
Qed.

Lemma dt_le_trans a b c : dt_le a b = true → dt_le b c = true → dt_le a c = true.
Proof.
  intros Hab Hbc. apply dt_lt_false. destruct (dt_lt c a) eqn:Hca; [|done].
  pose proof (dt_le_lt_trans _ _ _ Hbc Hca) as Hba.
  apply dt_lt_false in Hab. congruence.
Qed.

(** ** What [strptime] returns *)

Lemma mk_datetime_Some y m d H M S t :
  mk_datetime y m d H M S = Some t →
  t = Datetime y m d H M S ∧ valid_date y m d = true ∧ valid_time H M S = true.
Proof.
  unfold mk_datetime. destruct (valid_date y m d), (valid_time H M S); try done.
  by intros [= <-].
Qed.


Lemma strptime_Y_m_d_Some s t :
  strptime_Y_m_d s = Some t →
  ∃ y m d, t = midnight y m d ∧ valid_date y m d = true.
Proof.
  unfold strptime_Y_m_d. destruct (full_match re_Y_m_d s) as [caps|]; [|done]. cbn.
  intros (-> & ? & _)%mk_datetime_Some. by eexists _, _, _.
Qed.


(** ** The window *)

(** X1. A window whose start is not before its end contains no date:
    [is_alert_date] answers [False] for every string, so a descriptor
    with swapped or equal dates silences extraction and alerting. *)
Theorem inverted_window_is_empty fs d :
  dt_lt (load_time_window fs).1.1 (load_time_window fs).1.2 = false →
  in_window fs d = false.
Proof.
  intros Hw. unfold in_window, is_alert_date.
  destruct (strptime_Y_m_d d) as [t|]; [|done].
  destruct (load_time_window fs) as [[s e] out]. cbn in *.
  destruct (dt_le s t) eqn:Hst; [|done]. destruct (dt_lt t e) eqn:Hte; [|done].
  by rewrite (dt_le_lt_trans _ _ _ Hst Hte) in Hw.
Qed.

Lemma inverted_window_is_empty_witness :
  in_window (Files (Some ("2025-04-24", "2025-03-24")) None None None) "2025-04-01"
  = false.
Proof.
  exact (inverted_window_is_empty
           (Files (Some ("2025-04-24", "2025-03-24")) None None None) "2025-04-01"
           ltac:(vm_compute; reflexivity)).
Defined.

(** X2. A window descriptor is used whole or not at all: when it is
    missing or either of its two dates does not parse, [is_alert_date]
    prints the error line and answers for a well-formed date [d] exactly
    when 2025-03-24 <= d < 2025-04-24, whatever the other date of the
    descriptor says. *)
Theorem broken_descriptor_means_default_window fs y m d :
  valid_date y m d = true →
  (time_window_json fs = None
   ∨ ∃ s e, time_window_json fs = Some (s, e)
       ∧ (strptime_Y_m_d s = None ∨ strptime_Y_m_d e = None)) →
  (is_alert_date fs (iso y m d)).2 = [ErrorLoadingTimeWindow]
  ∧ ((is_alert_date fs (iso y m d)).1 = true
     ↔ date_not_after (midnight 2025 3 24) (midnight y m d)
       ∧ date_before (midnight y m d) (midnight 2025 4 24)).
Proof.
  intros Hv Hw.
  assert (load_time_window fs = (default_window, [ErrorLoadingTimeWindow])) as Hl.
  { unfold load_time_window.
    destruct Hw as [->|(s & e & -> & [Hs|He])]; [done|by rewrite Hs|].
    rewrite He. by destruct (strptime_Y_m_d s). }
  assert (is_alert_date fs (iso y m d)
          = (dt_le (midnight 2025 3 24) (midnight y m d)
             && dt_lt (midnight y m d) (midnight 2025 4 24),
             [ErrorLoadingTimeWindow])) as ->.
  { unfold is_alert_date, iso, midnight. by rewrite strptime_strftime_Y_m_d, Hl. }
  cbn [fst snd]. split; [done|].
  by rewrite andb_true_iff, dt_le_midnight, dt_lt_midnight.
Qed.

Lemma broken_descriptor_means_default_window_witness :
  (is_alert_date (Files (Some ("2025-05-01", "2025-06-31")) None None None)
     (iso 2025 5 2)).2 = [ErrorLoadingTimeWindow]
  ∧ ((is_alert_date (Files (Some ("2025-05-01", "2025-06-31")) None None None)
        (iso 2025 5 2)).1 = true
     ↔ date_not_after (midnight 2025 3 24) (midnight 2025 5 2)
       ∧ date_before (midnight 2025 5 2) (midnight 2025 4 24)).
Proof.
  exact (broken_descriptor_means_default_window
           (Files (Some ("2025-05-01", "2025-06-31")) None None None) 2025 5 2
           eq_refl
           (or_intror (ex_intro _ "2025-05-01" (ex_intro _ "2025-06-31"
                        (conj eq_refl (or_intror eq_refl)))))).
Defined.

(** ** The page extractor *)

Section kept.
Import Browse Kept.

Variable fs : files.


Lemma label_of_InWindow col d f : classify fs col = InWindow d f → label_of fs col = Some (d, f).
Proof. unfold label_of. by intros ->. Qed.

Lemma label_of_None col :
  (∀ d f, classify fs col ≠ InWindow d f) → label_of fs col = None.
Proof. unfold label_of. destruct (classify fs col); try done. intros H. by edestruct H. Qed.

(** The labels of the records follow the kept columns. *)
Lemma parse_columns_labels cols st st' :
  parse_columns fs cols st = Return st' →
  (λ dd, (day_name dd, full_date dd)) <$> l_dates st'
  = ((λ dd, (day_name dd, full_date dd)) <$> l_dates st) ++ omap (label_of fs) cols.
Proof.
  revert st. induction cols as [|c cols IH]; intros st; cbn.
  { intros [= <-]. by rewrite app_nil_r. }
  destruct (parse_column fs c st) as [st1|] eqn:Hc; [|done]. intros Hp.
  rewrite (IH _ Hp).
  apply parse_column_Return in Hc as [[-> Hn]|(d & f & g & Hw & _ & ->)].
  - by rewrite (label_of_None _ Hn).
  - rewrite (label_of_InWindow _ _ _ Hw). cbn. by rewrite fmap_app, <-app_assoc.
Qed.

(** X4. When the extraction of a page returns, its records are those
    of the columns inside the window, in page order and with the day
    name and date of the label; columns outside the window, with a label
    that does not match or with a date that does not parse leave no
    record; and every record holds exactly one time group. *)
Theorem parse_keeps_window_columns p ds :
  parse_date_time_group fs p = Return ds →
  (λ dd, (day_name dd, full_date dd)) <$> ds = omap (label_of fs) p
  ∧ ∀ dd, dd ∈ ds → ∃ g, time_groups dd = [g].
Proof.
  unfold parse_date_time_group.
  destruct (parse_columns fs p _) as [st|] eqn:Hp; [|done]. intros [= <-]. split.
  - by rewrite (parse_columns_labels _ _ _ Hp).
  - apply parse_columns_dates in Hp as (more & Heq & Hmore). cbn in Heq.
    rewrite Heq. apply Hmore.
Qed.

Lemma parse_columns_own cols st :
  (∀ col d f, col ∈ cols → classify fs col = InWindow d f → groups col ≠ []) →
  ∃ bound, parse_columns fs cols st
           = Return (Locals (l_dates st ++ omap (own_record fs) cols) bound).
Proof.
  revert st. induction cols as [|c cols IH]; intros st Hg; cbn.
  { exists (l_group_data st). rewrite app_nil_r. by destruct st. }
  unfold parse_column, own_record at 1.
  destruct (classify fs c) as [| | |d f] eqn:Hc;
    try (apply IH; intros; eapply Hg; [by right|done]).
  rewrite read_groups_last.
  destruct (last (groups c)) as [el|] eqn:Hlast.
  - cbn. edestruct IH as [bound ->]; [intros; eapply Hg; [by right|done]|].
    exists bound. cbn. by rewrite <-app_assoc.
  - apply last_None in Hlast. by edestruct Hg; [left|..].
Qed.

(** X5. On a page where every column inside the window has at least one
    time group the extraction returns, and the record of each such column
    holds the last time group of that very column (the earlier groups of
    the column are not in it). *)
Theorem parse_with_groups_everywhere p :
  (∀ col d f, col ∈ p → classify fs col = InWindow d f → groups col ≠ []) →
  parse_date_time_group fs p = Return (omap (own_record fs) p).
Proof.
  intros Hg. unfold parse_date_time_group.
  by destruct (parse_columns_own p (Locals [] None) Hg) as [bound ->].
Qed.






End kept.

Section kept_samples.
Import Browse Kept Extract.


Lemma parse_keeps_window_columns_witness :
  (λ dd, (day_name dd, full_date dd))
    <$> [DateData "Thursday" "Apr 10, 2025" [read_group afternoon]]
  = omap (label_of no_files) [in_may; thursday]
  ∧ ∀ dd, dd ∈ [DateData "Thursday" "Apr 10, 2025" [read_group afternoon]]
          → ∃ g, time_groups dd = [g].
Proof.
  exact (parse_keeps_window_columns no_files [in_may; thursday]
           [DateData "Thursday" "Apr 10, 2025" [read_group afternoon]]
           ltac:(vm_compute; reflexivity)).
Defined.

Lemma parse_with_groups_everywhere_witness :
  parse_date_time_group no_files [in_may; thursday]
  = Return (omap (own_record no_files) [in_may; thursday]).
Proof.
  apply (parse_with_groups_everywhere no_files [in_may; thursday]).
  intros col d f Hin Hc Hg.
  apply elem_of_cons in Hin as [->|Hin]; [by vm_compute in Hc|].
  apply list_elem_of_singleton in Hin as ->. by vm_compute in Hg.
Defined.

End kept_samples.

(** ** The matcher only finds what the expression describes *)

Ltac app_cons := repeat (rewrite append_cons || rewrite append_nil_l).

Lemma length_append a b : String.length (a +:+ b) = (String.length a + String.length b)%nat.
Proof. induction a as [|c a IH]; app_cons; cbn [String.length]; [done|]. by rewrite IH. Qed.

Lemma consumed_append w s : consumed (w +:+ s) s = w.
Proof.
  unfold consumed. rewrite length_append.
  replace (String.length w + String.length s - String.length s)%nat
    with (String.length w) by lia.
  induction w as [|c w IH]; app_cons; cbn [String.length substring].
  - by destruct s.
  - by rewrite IH.
Qed.

Lemma plus_match_sound {A} p s (k : string → option A) a :
  plus_match p s k = Some a →
  ∃ w s', s = w +:+ s' ∧ w ≠ "" ∧ all_chars p w ∧ k s' = Some a.
Proof.
  revert k a. induction s as [|c s IH]; intros k a; cbn; [done|].
  destruct (p c) eqn:Hc; [|done].
  destruct (plus_match p s k) as [a'|] eqn:Hm.
  - intros [= ->]. apply IH in Hm as (w & s' & -> & _ & Hw & Hk).
    by exists (String c w), s'.
  - intros Hk. by exists (String c ""), s.
Qed.

Lemma re_match_sound {A} r s caps (k : string → captures → option A) a :
  re_match r s caps k = Some a →
  ∃ w s' new, s = w +:+ s' ∧ lang r w ∧ k s' (new ++ caps) = Some a
    ∧ ∀ n v, (n, v) ∈ new → ∃ r0, has_group n r0 r ∧ lang r0 v.
Proof.
  revert s caps k a.
  induction r as [|p|r1 IH1 r2 IH2|r1 IH1 r2 IH2|p|name r IH]; intros s caps k a; cbn.
  - intros Hk. exists "", s, []. split_and!; try done. by intros ?? ?%elem_of_nil.
  - destruct s as [|c s]; [done|]. destruct (p c) eqn:Hc; [|done].
    intros Hk. exists (String c ""), s, []. split_and!; try done; [by exists c|].
    by intros ?? ?%elem_of_nil.
  - intros (w1 & s1 & new1 & -> & Hw1 & (w2 & s2 & new2 & -> & Hw2 & Hk & Hg2)%IH2 & Hg1)%IH1.
    exists (w1 +:+ w2), s2, (new2 ++ new1). split_and!.
    + by rewrite append_assoc.
    + by exists w1, w2.
    + by rewrite <-app_assoc.
    + intros n v [Hin|Hin]%elem_of_app.
      * destruct (Hg2 _ _ Hin) as (r0 & ? & ?). exists r0. split; [by right|done].
      * destruct (Hg1 _ _ Hin) as (r0 & ? & ?). exists r0. split; [by left|done].
  - destruct (re_match r1 s caps k) as [a'|] eqn:H1.
    + intros [= ->]. apply IH1 in H1 as (w & s' & new & ? & ? & ? & Hg).
      exists w, s', new. split_and!; try done; [by left|].
      intros n v Hin. destruct (Hg _ _ Hin) as (r0 & ? & ?). exists r0. split; [by left|done].
    + intros (w & s' & new & ? & ? & ? & Hg)%IH2.
      exists w, s', new. split_and!; try done; [by right|].
      intros n v Hin. destruct (Hg _ _ Hin) as (r0 & ? & ?). exists r0. split; [by right|done].
  - intros (w & s' & -> & ? & ? & ?)%plus_match_sound.
    exists w, s', []. split_and!; try done. by intros ?? ?%elem_of_nil.
  - intros (w & s' & new & -> & Hw & Hk & Hg)%IH. rewrite consumed_append in Hk.
    exists w, s', ((name, w) :: new). split_and!; try done.
    intros n v [[= -> ->]|Hin]%elem_of_cons.
    + exists r. split; [by left|done].
    + destruct (Hg _ _ Hin) as (r0 & ? & ?). exists r0. split; [by right|done].
Qed.

(** A whole match: the text is described by the expression, and so is
    every group by its part of the expression. *)
Lemma full_match_sound r s caps :
  full_match r s = Some caps →
  lang r s ∧ ∀ n v, (n, v) ∈ caps → ∃ r0, has_group n r0 r ∧ lang r0 v.
Proof.
  unfold full_match, re_match_prefix.
  destruct (re_match r s [] _) as [[[|??] caps']|] eqn:Hm; try done.
  intros [= <-]. apply re_match_sound in Hm as (w & s' & new & -> & Hw & Hk & Hg).
  injection Hk as -> <-. rewrite append_nil_r, app_nil_r. by split.
Qed.

Lemma group_elem n caps : group n caps = "" ∨ (n, group n caps) ∈ caps.
Proof.
  induction caps as [|[n' v] caps IH]; cbn; [by left|].
  destruct (String.eqb_spec n' n) as [->|]; [right; by left|].
  destruct IH; [by left|right; by right].
Qed.

(** Decimal digits. *)
Lemma is_digit_val c : is_digit c = true → 0 ≤ digit_val c ≤ 9 ∧ is_space c = false.
Proof.
  unfold is_digit, is_space, in_range, digit_val.
  rewrite andb_true_iff, !Z.leb_le. intros [? ?]. split; [lia|].
  rewrite !orb_false_iff, !andb_false_iff, !Z.leb_gt, Z.eqb_neq. lia.
Qed.

Lemma in_range_digit lo hi c :
  48 ≤ lo → hi ≤ 57 → in_range lo hi c = true → is_digit c = true.
Proof.
  unfold is_digit, in_range. rewrite !andb_true_iff, !Z.leb_le. lia.
Qed.

Lemma int_of_string_digit c : is_digit c = true → 0 ≤ int_of_string (String c "") ≤ 9.
Proof.
  intros [? Hs]%is_digit_val. unfold int_of_string. cbn [lstrip]. rewrite Hs. cbn. lia.
Qed.

Lemma int_of_string_digits2 c1 c2 :
  is_digit c1 = true → is_digit c2 = true →
  0 ≤ int_of_string (String c1 (String c2 "")) ≤ 99.
Proof.
  intros [? Hs]%is_digit_val [? _]%is_digit_val. unfold int_of_string.
  cbn [lstrip]. rewrite Hs. cbn. lia.
Qed.

(** The minute that [%M] reads is not negative. *)
Lemma minute_group_nonneg r s caps :
  full_match r s = Some caps →
  (∀ r0, has_group "M" r0 r → r0 = alts [Seq (rng "0" "5") dig; dig]) →
  0 ≤ int_of_string (group "M" caps).
Proof.
  intros [_ Hg]%full_match_sound Hr.
  destruct (group_elem "M" caps) as [->|Hin]; [done|].
  destruct (Hg _ _ Hin) as (r0 & ->%Hr & Hl). cbn in Hl.
  destruct Hl as [(w1 & w2 & -> & (c1 & -> & H1) & (c2 & -> & H2))|(c & -> & Hc)].
  - apply (in_range_digit 48 53) in H1; [|done..].
    by apply int_of_string_digits2.
  - by apply int_of_string_digit.
Qed.

(** ** Dicts, continued *)

Section pydict_entries.
Context {V : Type}.
Implicit Types (d : PyDict.dict V) (k : string) (v : V).

Lemma elem_of_set k v d k' v' :
  (k', v') ∈ PyDict.set k v d → (k' = k ∧ v' = v) ∨ (k', v') ∈ d.
Proof.
  induction d as [|[k0 v0] d IH]; cbn.
  - intros [= -> ->]%list_elem_of_singleton. by left.
  - destruct (String.eqb k0 k) eqn:Hk.
    + intros [[= -> ->]|?]%elem_of_cons; [by left|]. right. by right.
    + intros [[= -> ->]|[?|?]%IH]%elem_of_cons; [right; by left|by left|].
      right. by right.
Qed.

Lemma keys_set k v d :
  PyDict.keys (PyDict.set k v d)
  = if PyDict.contains k d then PyDict.keys d else PyDict.keys d ++ [k].
Proof.
  unfold PyDict.contains, PyDict.keys. induction d as [|[k0 v0] d IH]; cbn; [done|].
  destruct (String.eqb_spec k0 k) as [->|Hne]; cbn; [done|].
  rewrite IH. by destruct (PyDict.get k d).
Qed.

Lemma get_Some_elem k v d : PyDict.get k d = Some v → (k, v) ∈ d.
Proof.
  induction d as [|[k0 v0] d IH]; cbn; [done|].
  destruct (String.eqb_spec k0 k) as [->|Hne].
  - intros [= ->]. by left.
  - intros ?%IH. by right.
Qed.

Lemma get_Some_key k v d : PyDict.get k d = Some v → k ∈ PyDict.keys d.
Proof.
  intros ?%get_Some_elem. apply list_elem_of_fmap. by exists (k, v).
Qed.

Lemma NoDup_keys_set k v d : NoDup (PyDict.keys d) → NoDup (PyDict.keys (PyDict.set k v d)).
Proof.
  intros Hnd. rewrite keys_set. unfold PyDict.contains.
  destruct (PyDict.get k d) as [v0|] eqn:Hg; [done|].
  apply NoDup_app. split_and!; [done| |apply NoDup_singleton].
  intros k' Hk' ->%list_elem_of_singleton.
  apply list_elem_of_fmap in Hk' as ([k0 v0] & -> & Hin). cbn in Hg.
  assert (PyDict.get k0 d ≠ None) as Hne; [|done]. clear Hg.
  induction d as [|[k1 v1] d IH]; [by apply elem_of_nil in Hin|]. cbn.
  apply NoDup_cons in Hnd as [_ Hnd].
  destruct (String.eqb_spec k1 k0); [done|].
  apply elem_of_cons in Hin as [[= -> ->]|Hin]; [done|by apply IH].
Qed.

Lemma elem_get k v d : NoDup (PyDict.keys d) → (k, v) ∈ d → PyDict.get k d = Some v.
Proof.
  induction d as [|[k0 v0] d IH]; [by intros _ ?%elem_of_nil|]. cbn.
  intros [Hk Hnd]%NoDup_cons [[= -> ->]|Hin]%elem_of_cons.
  - by rewrite String.eqb_refl.
  - destruct (String.eqb_spec k0 k) as [->|]; [|by apply IH].
    destruct Hk. apply list_elem_of_fmap. by exists (k, v).
Qed.

End pydict_entries.

(** ** The snapshot that [transform_data] builds *)

Section snapshot.
Import Browse Normal Snapshot.
Implicit Types (bd : PyDict.dict (list string)).

Lemma NoDup_transform_slots iso tds bd :
  NoDup (PyDict.keys bd) → NoDup (PyDict.keys (foldl (transform_slot iso) bd tds)).
Proof.
  revert bd. induction tds as [|td tds IH]; intros bd Hnd; [done|]. cbn.
  apply IH. unfold transform_slot. destruct (strptime_mdY_IMS_p _); [|done].
  by apply NoDup_keys_set.
Qed.

Lemma NoDup_transform_dates dds bd :
  NoDup (PyDict.keys bd) → NoDup (PyDict.keys (foldl transform_date bd dds)).
Proof.
  revert bd. induction dds as [|dd dds IH]; intros bd Hnd; [done|]. cbn.
  apply IH. unfold transform_date. destruct (strptime_b_d_Y _); [|done].
  assert (∀ gs bd', NoDup (PyDict.keys bd')
                    → NoDup (PyDict.keys (foldl (transform_group (strftime_Y_m_d d)) bd' gs)))
    as Hgs.
  { induction gs as [|g gs IHg]; intros bd' ?; [done|]. cbn. apply IHg.
    by apply NoDup_transform_slots. }
  apply Hgs. destruct (PyDict.contains _ _); [done|]. by apply NoDup_keys_set.
Qed.

(** Where the entries of one location come from. *)
Lemma transform_pages_entry pds d ts :
  (d, ts) ∈ foldl transform_page [] pds →
  present_in d (pd ← pds; dates pd) = true ∧ ts = contributed_in d (pd ← pds; dates pd).
Proof.
  rewrite transform_pages_dates. intros Hin.
  apply elem_get in Hin; [|apply NoDup_transform_dates; constructor].
  rewrite transform_dates_get in Hin. destruct (present_in _ _); [|done].
  by injection Hin as <-.
Qed.

Lemma transform_locations_entry items acc loc dates :
  (loc, dates) ∈ foldl transform_location acc items →
  (loc, dates) ∈ acc
  ∨ ∃ ld, (loc, ld) ∈ items ∧ dates = foldl transform_page [] (pages ld).
Proof.
  revert acc. induction items as [|[k ld] items IH]; intros acc; cbn; [by left|].
  intros [Hin|(ld' & ? & ?)]%IH.
  - unfold transform_location in Hin. cbn in Hin.
    apply elem_of_set in Hin as [[-> ->]|?]; [|by left].
    right. exists ld. split; [by left|done].
  - right. exists ld'. split; [by right|done].
Qed.

Lemma NoDup_transform_locations items acc :
  NoDup (PyDict.keys acc) → NoDup (PyDict.keys (foldl transform_location acc items)).
Proof.
  revert acc. induction items as [|[k ld] items IH]; intros acc Hnd; [done|]. cbn.
  apply IH. by apply NoDup_keys_set.
Qed.

Lemma minute_group_of_machine_time r0 :
  has_group "M" r0 re_mdY_IMS_p → r0 = alts [Seq (rng "0" "5") dig; dig].
Proof.
  cbn. intros H.
  repeat match goal with
    | H : _ ∨ _ |- _ => destruct H as [H|H]
    | H : _ ∧ _ |- _ => destruct H as [? H]
    | H : False |- _ => destruct H
    end; try done.
Qed.

Lemma strftime_H_M_clock s t : strptime_mdY_IMS_p s = Some t → clock_time (strftime_H_M t).
Proof.
  unfold strptime_mdY_IMS_p. destruct (full_match _ _) as [caps|] eqn:Hm; [|done]. cbn.
  intros (-> & _ & Hv)%mk_datetime_Some. unfold valid_time in Hv.
  rewrite !andb_true_iff, !Z.leb_le in Hv.
  pose proof (minute_group_nonneg _ _ _ Hm minute_group_of_machine_time).
  eexists _, _. split_and!; [| | | |reflexivity]; cbn; lia.
Qed.

Lemma contributed_in_elem iso dds t :
  t ∈ contributed_in iso dds →
  ∃ dd g td, dd ∈ dds ∧ iso_date_of dd = Some iso ∧ g ∈ time_groups dd
    ∧ td ∈ times g ∧ slot_time td = Some t.
Proof.
  unfold contributed_in. intros (dd & Ht & Hdd)%list_elem_of_bind.
  case_decide as Hiso; [|by apply elem_of_nil in Ht].
  unfold date_times in Ht. apply list_elem_of_bind in Ht as (g & Ht & Hg).
  unfold group_times in Ht. apply list_elem_of_omap in Ht as (td & ? & ?).
  by exists dd, g, td.
Qed.

Lemma present_in_elem iso dds :
  present_in iso dds = true → ∃ dd, dd ∈ dds ∧ iso_date_of dd = Some iso.
Proof.
  unfold present_in. rewrite bool_decide_eq_true, Exists_exists. naive_solver.
Qed.


(** Every time of the snapshot is one that [strftime('%H:%M')] wrote. *)
Lemma transform_data_clock_times a loc dates d ts t :
  (loc, dates) ∈ transform_data a → (d, ts) ∈ dates → t ∈ ts → clock_time t.
Proof.
  intros [[]%elem_of_nil|(ld & _ & ->)]%transform_locations_entry.
  intros [_ ->]%transform_pages_entry.
  intros (_ & _ & td & _ & _ & _ & _ & Ht)%contributed_in_elem.
  unfold slot_time in Ht.
  destruct (strptime_mdY_IMS_p (datetime_ td)) as [t'|] eqn:Htd; [|done].
  injection Ht as <-. by eapply strftime_H_M_clock.
Qed.


Lemma keys_transform_locations items acc :
  NoDup (PyDict.keys acc ++ PyDict.keys items) →
  PyDict.keys (foldl transform_location acc items) = PyDict.keys acc ++ PyDict.keys items.
Proof.
  revert acc. induction items as [|[k ld] items IH]; intros acc Hnd.
  { cbn. by rewrite app_nil_r. }
  cbn [foldl]. change (PyDict.keys ((k, ld) :: items)) with (k :: PyDict.keys items) in *.
  assert (k ∉ PyDict.keys acc) as Hk.
  { apply NoDup_app in Hnd as (_ & Hd & _). intros Hin. apply (Hd _ Hin). by left. }
  assert (PyDict.keys (transform_location acc (k, ld)) = PyDict.keys acc ++ [k]) as Hset.
  { unfold transform_location. cbn. rewrite keys_set. unfold PyDict.contains.
    by rewrite (get_None _ _ Hk). }
  rewrite IH, Hset; [by rewrite <-app_assoc|].
  rewrite Hset, <-app_assoc. done.
Qed.

(** X8. When the locations of the raw records have distinct names (as
    the keys of a dict have), the snapshot has exactly these locations,
    in the same order; a location is in the snapshot also when it
    brought no page or no date, with an empty dict of dates then. *)
Theorem transform_data_locations a :
  NoDup (PyDict.keys (locations a)) →
  PyDict.keys (transform_data a) = PyDict.keys (locations a)
  ∧ ∀ loc ld, (loc, ld) ∈ locations a → all_dates ld = [] →
              PyDict.get loc (transform_data a) = Some [].
Proof.
  intros Hnd. split.
  - unfold transform_data. by rewrite keys_transform_locations.
  - intros loc ld Hin Hd. unfold transform_data.
    rewrite (transform_locations_get _ _ _ _ Hnd Hin), transform_pages_dates.
    unfold all_dates in Hd. by rewrite Hd.
Qed.

Lemma transform_data_locations_witness :
  PyDict.keys (transform_data
                 (AllData [("Boston", two_pages); ("Lowell", LocationData "Lowell" [])]))
  = ["Boston"; "Lowell"]
  ∧ ∀ loc ld, (loc, ld) ∈ [("Boston", two_pages); ("Lowell", LocationData "Lowell" [])] →
              all_dates ld = [] →
              PyDict.get loc
                (transform_data
                   (AllData [("Boston", two_pages); ("Lowell", LocationData "Lowell" [])]))
              = Some [].
Proof.
  exact (transform_data_locations
           (AllData [("Boston", two_pages); ("Lowell", LocationData "Lowell" [])])
           ltac:(by apply (bool_decide_unpack _))).
Defined.

End snapshot.

(** ** From the traversal to the matcher *)

Section pipeline.
Import Browse Normal Snapshot Traverse.

Variables (fs : files) (bl : gset string).

Lemma classify_InWindow col d f :
  classify fs col = InWindow d f → kept fs (DateData d f []).
Proof.
  unfold classify, kept, in_window. destruct (re_search _ _) as [caps|]; [|done].
  destruct (strptime_b_d_Y _) as [t|] eqn:Ht; [|done].
  destruct (is_alert_date fs _).1 eqn:Hw; [|done]. intros [= <- <-]. by exists t.
Qed.

Lemma parse_columns_kept cols st st' :
  parse_columns fs cols st = Return st' →
  (∀ dd, dd ∈ l_dates st → kept fs dd) → ∀ dd, dd ∈ l_dates st' → kept fs dd.
Proof.
  revert st. induction cols as [|c cols IH]; intros st; cbn; [by intros [= <-]|].
  destruct (parse_column fs c st) as [st1|] eqn:Hc; [|done]. intros Hp Hst.
  apply (IH _ Hp).
  apply parse_column_Return in Hc as [[-> _]|(d & f & g & Hw & _ & ->)]; [done|].
  cbn. intros dd [?| ->%list_elem_of_singleton]%elem_of_app; [by apply Hst|].
  by apply classify_InWindow in Hw.
Qed.

Lemma get_page_data_kept p dd : dd ∈ dates (get_page_data fs p) → kept fs dd.
Proof.
  unfold get_page_data, get_page_data_from, parse_date_time_group.
  destruct (parse_columns fs p _) as [st|] eqn:Hp; cbn; [|by intros ?%elem_of_nil].
  apply (parse_columns_kept _ _ _ Hp). by intros ? ?%elem_of_nil.
Qed.

(** What one round stores. *)
Lemma town_body_stored i t st :
  t_locations (left_state (town_body fs bl i t st)) = t_locations st
  ∨ ∃ txt p ps, button_text t = Some txt ∧ (strip txt ∉ bl) ∧ visit t = Some (p, ps)
      ∧ t_locations (left_state (town_body fs bl i t st))
        = PyDict.set (strip txt)
            (LocationData (strip txt) (get_page_data fs <$> p :: ps)) (t_locations st).
Proof.
  unfold town_body. destruct (button_text t) as [txt|]; [|by left].
  case_bool_decide; [by left|]. destruct (visit t) as [[p ps]|]; [|by left].
  right. exists txt, p, ps. by destruct (return_ok t).
Qed.

(** Where the stored locations come from. *)
Lemma visit_towns_stored i towns st loc ld :
  (loc, ld) ∈ t_locations (visit_towns fs bl i towns st) →
  (loc, ld) ∈ t_locations st
  ∨ ∃ t txt p ps, t ∈ towns ∧ button_text t = Some txt ∧ loc = strip txt
      ∧ (loc ∉ bl) ∧ visit t = Some (p, ps)
      ∧ ld = LocationData loc (get_page_data fs <$> p :: ps).
Proof.
  revert i st. induction towns as [|t towns IH]; intros i st; cbn; [by left|].
  assert ((loc, ld) ∈ t_locations (left_state (town_body fs bl i t st)) →
          (loc, ld) ∈ t_locations st
          ∨ ∃ t' txt p ps, t' ∈ t :: towns ∧ button_text t' = Some txt ∧ loc = strip txt
              ∧ (loc ∉ bl) ∧ visit t' = Some (p, ps)
              ∧ ld = LocationData loc (get_page_data fs <$> p :: ps)) as Hbody.
  { destruct (town_body_stored i t st) as [->|(txt & p & ps & ? & ? & ? & ->)]; [by left|].
    intros [[-> ->]|?]%elem_of_set; [|by left].
    right. exists t, txt, p, ps. split; [by left|done]. }
  assert (∀ j s, (loc, ld) ∈ t_locations (visit_towns fs bl j towns s) →
                 t_locations s = t_locations (left_state (town_body fs bl i t st)) →
                 (loc, ld) ∈ t_locations st
                 ∨ ∃ t' txt p ps, t' ∈ t :: towns ∧ button_text t' = Some txt
                     ∧ loc = strip txt ∧ (loc ∉ bl) ∧ visit t' = Some (p, ps)
                     ∧ ld = LocationData loc (get_page_data fs <$> p :: ps)) as Hrest.
  { intros j s [Hin|(t' & txt & p & ps & ? & ?)]%IH Heq.
    - apply Hbody. by rewrite <-Heq.
    - right. exists t', txt, p, ps. split; [by right|done]. }
  destruct (town_body fs bl i t st) as [st1|st1]; cbn in *.
  - intros ?. by eapply Hrest.
  - destruct (recover_ok t); [intros ?; by eapply Hrest|].
    cbn. apply Hbody.
Qed.

Lemma visit_towns_NoDup i towns st :
  NoDup (PyDict.keys (t_locations st)) →
  NoDup (PyDict.keys (t_locations (visit_towns fs bl i towns st))).
Proof.
  revert i st. induction towns as [|t towns IH]; intros i st Hnd; cbn; [done|].
  assert (NoDup (PyDict.keys (t_locations (left_state (town_body fs bl i t st)))))
    as Hbody.
  { destruct (town_body_stored i t st) as [->|(txt & p & ps & _ & _ & _ & ->)]; [done|].
    by apply NoDup_keys_set. }
  destruct (town_body fs bl i t st) as [st1|st1]; cbn in Hbody; [by apply IH|].
  destruct (recover_ok t); [by apply IH|done].
Qed.

End pipeline.

Lemma elem_of_keys_set {V} k (v : V) d k' :
  k' ∈ PyDict.keys (PyDict.set k v d) ↔ k' = k ∨ k' ∈ PyDict.keys d.
Proof.
  rewrite keys_set. unfold PyDict.contains.
  destruct (PyDict.get k d) as [v0|] eqn:Hg.
  - apply get_Some_key in Hg. split; [by right|]. by intros [->|].
  - rewrite elem_of_app, list_elem_of_singleton. tauto.
Qed.

Section collected.
Import Browse Normal Snapshot Traverse Collected.

Variables (fs : files) (bl : gset string).

Lemma town_body_store i t st :
  t_locations (left_state (town_body fs bl i t st)) = store fs bl t (t_locations st).
Proof.
  unfold town_body, store, stores. destruct (button_text t) as [txt|]; [|done].
  case_bool_decide; [done|]. destruct (visit t) as [[p ps]|]; [|done].
  by destruct (return_ok t).
Qed.

Lemma town_body_fatal i t st :
  fatal bl t = match town_body fs bl i t st with
               | Done _ => false
               | Raised _ => negb (recover_ok t)
               end.
Proof.
  unfold fatal. destruct (town_body fs bl i t st) as [s|s] eqn:Hb.
  - apply town_body_Done in Hb as [-> _]. done.
  - apply town_body_Raised in Hb as [-> _]. done.
Qed.

(** The loop stores what the towns store, up to the first failed
    recovery. *)
Lemma visit_towns_collected i towns st :
  t_locations (visit_towns fs bl i towns st) = collected fs bl towns (t_locations st).
Proof.
  revert i st. induction towns as [|t towns IH]; intros i st; cbn; [done|].
  rewrite (town_body_fatal i t st), <-(town_body_store i t st).
  destruct (town_body fs bl i t st) as [s|s]; cbn; [by rewrite IH|].
  destruct (recover_ok t); cbn; [by rewrite IH|done].
Qed.

Lemma collected_keys towns locs k :
  k ∈ PyDict.keys (collected fs bl towns locs)
  ↔ k ∈ PyDict.keys locs
    ∨ ∃ j t pp, towns !! j = Some t ∧ reached bl towns j ∧ stores bl t = Some (k, pp).
Proof.
  revert locs. induction towns as [|t towns IH]; intros locs; cbn [collected].
  { split; [by left|]. by intros [?|(j & ? & ? & ? & _)]. }
  assert (k ∈ PyDict.keys (store fs bl t locs)
          ↔ k ∈ PyDict.keys locs ∨ ∃ pp, stores bl t = Some (k, pp)) as Hstore.
  { unfold store. destruct (stores bl t) as [[loc [p ps]]|].
    - rewrite elem_of_keys_set. split.
      + intros [->|?]; [right; by eexists|by left].
      + intros [?|(pp & [= -> _])]; [by right|by left].
    - split; [by left|]. by intros [?|(? & ?)]. }
  destruct (fatal bl t) eqn:Hf.
  - rewrite Hstore. split.
    + intros [?|(pp & ?)]; [by left|]. right. exists 0%nat, t, pp.
      split_and!; [done|apply reached_0|done].
    + intros [?|([|j] & t' & pp & Hj & Hr & ?)]; [by left| |].
      * injection Hj as <-. right. by exists pp.
      * apply reached_S in Hr as [? _]. congruence.
  - rewrite IH, Hstore. split.
    + intros [[?|(pp & ?)]|(j & t' & pp & ? & ? & ?)]; [by left| |].
      * right. exists 0%nat, t, pp. split_and!; [done|apply reached_0|done].
      * right. exists (S j), t', pp. split_and!; [done| |done]. by apply reached_S.
    + intros [?|([|j] & t' & pp & Hj & Hr & ?)]; [by left; left| |].
      * injection Hj as <-. left. right. by exists pp.
      * right. exists j, t', pp. split_and!; [done| |done].
        by apply reached_S in Hr as [_ ?].
Qed.

Lemma stores_Some t k pp :
  stores bl t = Some (k, pp)
  ↔ ∃ txt, button_text t = Some txt ∧ k = strip txt ∧ (k ∉ bl) ∧ visit t = Some pp.
Proof.
  unfold stores. destruct (button_text t) as [txt|].
  2:{ split; [done|]. by intros (? & ? & _). }
  case_bool_decide as Hbl.
  - split; [done|]. intros (? & [= <-] & -> & ? & _). done.
  - destruct (visit t) as [pp'|]; cbn.
    + split.
      * intros [= <- <-]. by exists txt.
      * intros (? & [= <-] & -> & _ & [= <-]). done.
    + split; [done|]. by intros (? & _ & _ & _ & ?).
Qed.

End collected.

Section run_snapshot.
Import Browse Normal Snapshot Traverse.

(** The snapshot of a run that writes one. *)
Lemma run_snapshot_collected r fin tm snap :
  test_list_buttons r = Returns fin →
  f_snapshot fin = Some (tm, snap) →
  given (r_blacklist_arg r) = None
  ∧ is_Some (rmv_url_txt (r_files r))
  ∧ tm = r_time r
  ∧ snap = transform_data
             (AllData (Collected.collected (r_files r)
                         (load_list (blacklist_txt (r_files r))) (r_towns r) [])).
Proof.
  unfold test_list_buttons.
  destruct (rmv_url_txt (r_files r)) as [content|]; [|done].
  destruct (given (r_blacklist_arg r)) as [b|]; [by case_bool_decide; intros [= <-]|].
  intros [= <-] [= <- <-]. by rewrite visit_towns_collected.
Qed.

(** What the stored records of the towns become in the snapshot. *)
Lemma collected_snapshot_entry fs bl towns loc dates :
  (loc, dates) ∈ transform_data (AllData (Collected.collected fs bl towns [])) →
  (loc ∉ bl)
  ∧ (∃ t txt, t ∈ towns ∧ button_text t = Some txt ∧ loc = strip txt)
  ∧ ∀ d ts, (d, ts) ∈ dates → in_window fs d = true.
Proof.
  change [] with (t_locations (Trav [] [] [])) at 1.
  rewrite <-(visit_towns_collected fs bl 0 towns (Trav [] [] [])).
  intros [[]%elem_of_nil|(ld & Hld & ->)]%transform_locations_entry.
  cbn [locations] in Hld. apply visit_towns_stored in Hld as [[]%elem_of_nil|Hld].
  destruct Hld as (t & txt & p & ps & Ht & Htxt & -> & Hbl & Hv & ->).
  split_and!; [done|by exists t, txt|].
  intros d ts [Hp _]%transform_pages_entry.
  apply present_in_elem in Hp as (dd & Hdd & Hiso). cbn [pages] in Hdd.
  apply list_elem_of_bind in Hdd as (pd & Hdd & Hpd).
  apply list_elem_of_fmap in Hpd as (p' & -> & _).
  apply get_page_data_kept in Hdd as (t' & Ht' & Hw).
  unfold iso_date_of in Hiso. rewrite Ht' in Hiso. by injection Hiso as <-.
Qed.

(** X9. The snapshot that a run writes holds distinct locations, each
    of them the stripped text of a town button of the run and none of
    them blacklisted, and only dates inside the window of the run: a
    blacklisted town is never visited, and a date outside the window is
    never stored. *)
Theorem run_snapshot_filtered r fin tm snap :
  test_list_buttons r = Returns fin →
  f_snapshot fin = Some (tm, snap) →
  NoDup (PyDict.keys snap)
  ∧ ∀ loc dates, (loc, dates) ∈ snap →
      (loc ∉ load_list (blacklist_txt (r_files r)))
      ∧ (∃ t txt, t ∈ r_towns r ∧ button_text t = Some txt ∧ loc = strip txt)
      ∧ ∀ d ts, (d, ts) ∈ dates → in_window (r_files r) d = true.
Proof.
  intros Hrun Hsnap.
  destruct (run_snapshot_collected _ _ _ _ Hrun Hsnap) as (_ & _ & _ & ->).
  split; [apply NoDup_transform_locations; constructor|].
  intros loc dates. apply collected_snapshot_entry.
Qed.

Lemma run_snapshot_filtered_witness :
  NoDup (PyDict.keys SampleRun.two_towns_snapshot)
  ∧ ∀ loc dates, (loc, dates) ∈ SampleRun.two_towns_snapshot →
      (loc ∉ load_list (blacklist_txt (r_files SampleRun.two_towns)))
      ∧ (∃ t txt, t ∈ r_towns SampleRun.two_towns ∧ button_text t = Some txt
           ∧ loc = strip txt)
      ∧ ∀ d ts, (d, ts) ∈ dates → in_window (r_files SampleRun.two_towns) d = true.
Proof.
  exact (run_snapshot_filtered SampleRun.two_towns SampleRun.two_towns_report
           1743000000 SampleRun.two_towns_snapshot
           ltac:(vm_compute; reflexivity) eq_refl).
Defined.

(** X10. The locations of the snapshot are, in the order of the page,
    exactly the towns that the loop got to, that are not blacklisted and
    whose pages were all read. A town is stored also when the navigation
    back to the selection page fails afterwards, and nothing is stored
    for the towns after a failed recovery. *)
Theorem run_snapshot_locations r fin tm snap loc :
  test_list_buttons r = Returns fin →
  f_snapshot fin = Some (tm, snap) →
  loc ∈ PyDict.keys snap
  ↔ ∃ j t txt pp, r_towns r !! j = Some t
      ∧ reached (load_list (blacklist_txt (r_files r))) (r_towns r) j
      ∧ button_text t = Some txt ∧ loc = strip txt
      ∧ (loc ∉ load_list (blacklist_txt (r_files r)))
      ∧ visit t = Some pp.
Proof.
  intros Hrun Hsnap.
  destruct (run_snapshot_collected _ _ _ _ Hrun Hsnap) as (_ & _ & _ & ->).
  unfold transform_data. cbn [locations].
  rewrite keys_transform_locations.
  2:{ cbn. rewrite <-(visit_towns_collected _ _ 0 _ (Trav [] [] [])).
      apply visit_towns_NoDup. constructor. }
  cbn [PyDict.keys fmap list_fmap app]. rewrite collected_keys. split.
  - intros [[]%elem_of_nil|(j & t & pp & ? & ? & (txt & ?)%stores_Some)].
    by exists j, t, txt, pp.
  - intros (j & t & txt & pp & ? & ? & ?). right. exists j, t, pp.
    split_and!; [done..|]. apply stores_Some. by exists txt.
Qed.

Lemma run_snapshot_locations_witness :
  "Lowell" ∈ PyDict.keys SampleRun.two_towns_snapshot
  ↔ ∃ j t txt pp, r_towns SampleRun.two_towns !! j = Some t
      ∧ reached (load_list (blacklist_txt (r_files SampleRun.two_towns)))
          (r_towns SampleRun.two_towns) j
      ∧ button_text t = Some txt ∧ "Lowell" = strip txt
      ∧ ("Lowell" ∉ load_list (blacklist_txt (r_files SampleRun.two_towns)))
      ∧ visit t = Some pp.
Proof.
  exact (run_snapshot_locations SampleRun.two_towns SampleRun.two_towns_report
           1743000000 SampleRun.two_towns_snapshot "Lowell"
           ltac:(vm_compute; reflexivity) eq_refl).
Defined.

End run_snapshot.
(** ** List files: saving and loading *)

Section list_files.
Import Lines.









Lemma stripped_self s : strip s = s ↔ starts_clean s ∧ ends_clean s.
Proof.
  split.
  - intros Hs. destruct (strip_stripped s) as (a & b & _ & _ & _ & ? & ?).
    by rewrite Hs in *.
  - intros [? ?]. symmetry. apply stripped_unique. exists "", "".
    by rewrite append_nil_l, append_nil_r.
Qed.


Lemma readlines_from_line cur a rest :
  all_chars (not_char "010") a →
  readlines_from cur (a +:+ nl +:+ rest)
  = (string_rev cur +:+ a +:+ nl) :: readlines rest.
Proof.
  revert cur. induction a as [|c a IH]; intros cur; cbn [all_chars]; app_cons.
  { intros _. unfold nl, readlines. app_cons. cbn [readlines_from].
    by rewrite Ascii.eqb_refl, string_rev_cons. }
  intros [Hc Ha]. cbn [readlines_from]. unfold not_char in Hc.
  rewrite Ascii.eqb_sym in Hc. destruct (Ascii.eqb c "010"); [done|].
  rewrite IH by done. by rewrite string_rev_cons, append_assoc.
Qed.

Lemma strip_line x : clean_name x → strip (x +:+ nl) = x.
Proof.
  intros (_ & [? ?]%stripped_self & _). symmetry. apply stripped_unique.
  exists "", nl. by rewrite append_nil_l.
Qed.

Lemma load_list_written items :
  (∀ x, x ∈ items → clean_name x) →
  load_list (Some (written items)) = list_to_set items.
Proof.
  unfold load_list. induction items as [|x items IH]; intros Hclean; [done|].
  cbn [written]. unfold readlines. rewrite readlines_from_line.
  2:{ by destruct (Hclean x) as (_ & _ & ? & _); [by left|]. }
  change (string_rev "") with "". rewrite append_nil_l.
  assert (clean_name x) as Hx by (apply Hclean; by left).
  rewrite filter_cons_True.
  2:{ rewrite strip_line by done. by destruct Hx. }
  cbn [fmap list_fmap list_to_set]. rewrite strip_line by done.
  f_equal. apply IH. intros y ?. apply Hclean. by right.
Qed.

Lemma elem_of_save_list items x : x ∈ Browse.save_list items ↔ x ∈ items.
Proof.
  unfold Browse.save_list. destruct (sorted_spec (elements items)) as [_ ->].
  apply elem_of_elements.
Qed.

Lemma save_list_sorted items :
  Sorted String.le (Browse.save_list items) ∧ NoDup (Browse.save_list items).
Proof.
  unfold Browse.save_list. destruct (sorted_spec (elements items)) as [? Hp].
  split; [done|]. rewrite Hp. apply NoDup_elements.
Qed.

Lemma load_written_save_list items :
  (∀ x, x ∈ items → clean_name x) →
  load_list (Some (written (Browse.save_list items))) = items.
Proof.
  intros Hclean. rewrite load_list_written.
  - apply set_eq. intros x. by rewrite elem_of_list_to_set, elem_of_save_list.
  - intros x ?%elem_of_save_list. by apply Hclean.
Qed.

End list_files.
(** ** The list files after a run *)

Section bookkeeping.
Import Browse Traverse Collected.

(** X11. A list file written by [save_list] holds the names in
    ascending order, each once, and [load_list] reads the same set back
    from it, as long as every name is one a list file can hold: not
    empty, without whitespace at its ends and without a line end
    inside. *)
Theorem save_load_round_trip (items : gset string) :
  (∀ x, x ∈ items → clean_name x) →
  load_list (Some (written (save_list items))) = items
  ∧ Sorted String.le (save_list items)
  ∧ NoDup (save_list items).
Proof.
  intros Hclean. split; [by apply load_written_save_list|apply save_list_sorted].
Qed.

Lemma save_load_round_trip_witness :
  load_list (Some (written (save_list {["Lowell"; "Boston"]})))
  = ({["Lowell"; "Boston"]} : gset string)
  ∧ Sorted String.le (save_list {["Lowell"; "Boston"]})
  ∧ NoDup (save_list {["Lowell"; "Boston"]}).
Proof.
  apply (save_load_round_trip {["Lowell"; "Boston"]}).
  intros x [->%elem_of_singleton| ->%elem_of_singleton]%elem_of_union;
    (split; [done|vm_compute; repeat split]).
Defined.





End bookkeeping.
(** ** The matcher on the snapshot of a run *)

Section run_then_alert.
Import Browse Alert Matcher Snapshot.

Lemma elem_of_entries snap loc d ts :
  (loc, d, ts) ∈ entries snap ↔ ∃ dates, (loc, dates) ∈ snap ∧ (d, ts) ∈ dates.
Proof.
  unfold entries. rewrite list_elem_of_bind. split.
  - intros ([loc' dates] & Hin & ?). exists dates.
    apply list_elem_of_bind in Hin as ([d' ts'] & [= -> -> ->]%list_elem_of_singleton & ?).
    done.
  - intros (dates & ? & ?). exists (loc, dates). split; [|done].
    apply list_elem_of_bind. exists (d, ts). split; [by left|done].
Qed.

(** On a snapshot without blacklisted locations and with in-window dates
    only, the matcher leaves nothing out. *)
Lemma snapshot_alerts_all fs u bl snap :
  (∀ loc dates, (loc, dates) ∈ snap →
     (loc ∉ bl) ∧ ∀ d ts, (d, ts) ∈ dates → in_window fs d = true) →
  snapshot_alerts fs u bl snap
  = (λ e, MkAlert e.1.1 e.1.2 (sorted e.2) u) <$> entries snap.
Proof.
  unfold snapshot_alerts, entries.
  induction snap as [|[loc dates] snap IH]; intros Hall; [done|].
  cbn [mbind list_bind]. rewrite fmap_app.
  destruct (Hall loc dates) as [Hbl Hw]; [by left|].
  rewrite bool_decide_false by done. f_equal.
  - clear -Hw. unfold date_alerts.
    induction dates as [|[d ts] dates IH]; [done|].
    cbn [mbind list_bind]. rewrite fmap_app, (Hw d ts) by by left.
    cbn. f_equal. apply IH. intros d' ts' ?. apply (Hw d' ts'). by right.
  - apply IH. intros loc' dates' ?. apply Hall. by right.
Qed.

(** X14. The matcher, run on the snapshot a traversal has just written
    and reading the same window and blacklist, filters nothing out: it
    records one alert for every date of every location of the snapshot,
    in the order of the snapshot, with the times of that date in
    ascending order, and it starts the notifications exactly when some
    date of the snapshot has a time. *)
Theorem alert_after_run r fin tm snap w rep :
  test_list_buttons r = Returns fin →
  f_snapshot fin = Some (tm, snap) →
  w_data w = Some snap →
  time_window_json (w_files w) = time_window_json (r_files r) →
  blacklist_txt (w_files w) = blacklist_txt (r_files r) →
  analyze_appointments w = Returned rep →
  (∃ u, alerts rep = (λ e, MkAlert e.1.1 e.1.2 (sorted e.2) u) <$> entries snap)
  ∧ (match_found rep = true ↔ ∃ loc d ts, (loc, d, ts) ∈ entries snap ∧ ts ≠ []).
Proof.
  intros Hrun Hsnap Hdata Hwin Hbl (content & _ & H)%analyze_returned.
  cbn zeta in H. rewrite Hdata, Hbl in H. destruct H as (Hal & Hm & _).
  destruct (run_snapshot_collected _ _ _ _ Hrun Hsnap) as (_ & _ & _ & Heq).
  assert (∀ loc dates, (loc, dates) ∈ snap →
            (loc ∉ load_list (blacklist_txt (r_files r)))
            ∧ ∀ d ts, (d, ts) ∈ dates → in_window (w_files w) d = true) as Hall.
  { intros loc dates Hin. rewrite Heq in Hin.
    apply collected_snapshot_entry in Hin as (? & _ & Hd). split; [done|].
    intros d ts ?. unfold in_window. rewrite (is_alert_date_same _ _ Hwin).
    by apply (Hd d ts). }
  split.
  - exists (strip content). rewrite Hal. by apply snapshot_alerts_all.
  - rewrite Hm. split.
    + intros (loc & dates & d & ts & ? & ? & _ & _ & ?). exists loc, d, ts.
      split; [|done]. apply elem_of_entries. by exists dates.
    + intros (loc & d & ts & (dates & Hin & Hd)%elem_of_entries & ?).
      destruct (Hall _ _ Hin) as [? Hw]. exists loc, dates, d, ts.
      split_and!; [done..|by apply (Hw d ts)|done].
Qed.

Lemma alert_after_run_witness :
  (∃ u, alerts SampleRun.two_towns_alerts
        = (λ e, MkAlert e.1.1 e.1.2 (sorted e.2) u)
            <$> entries SampleRun.two_towns_snapshot)
  ∧ (match_found SampleRun.two_towns_alerts = true
     ↔ ∃ loc d ts, (loc, d, ts) ∈ entries SampleRun.two_towns_snapshot ∧ ts ≠ []).
Proof.
  exact (alert_after_run SampleRun.two_towns SampleRun.two_towns_report 1743000000
           SampleRun.two_towns_snapshot
           (World Sample.fs (Some SampleRun.two_towns_snapshot) FirefoxOk)
           SampleRun.two_towns_alerts
           ltac:(vm_compute; reflexivity) eq_refl eq_refl eq_refl eq_refl
           ltac:(vm_compute; reflexivity)).
Defined.

End run_then_alert.
(** ** [analyze.py] *)

Section analyze.
Import Analyze Analyzed.

Lemma dt_lt_le_trans a b c : dt_lt a b = true → dt_le b c = true → dt_lt a c = true.
Proof.
  intros Hab Hbc. destruct (dt_lt a c) eqn:Hac; [done|].
  apply dt_lt_false in Hac. pose proof (dt_le_trans _ _ _ Hbc Hac) as Hba.
  apply dt_lt_false in Hba. congruence.
Qed.

(** *** The filter *)

Lemma filter_data_entries bl items acc :
  NoDup (PyDict.keys acc ++ PyDict.keys items) →
  foldl (λ acc item, PyDict.set item.1 (keep_locations bl item.2) acc) acc items
  = acc ++ ((λ item, (item.1, keep_locations bl item.2)) <$> items).
Proof.
  revert acc. induction items as [|[k snap] items IH]; intros acc Hnd; cbn [foldl].
  { by rewrite app_nil_r. }
  assert (k ∉ PyDict.keys acc) as Hk.
  { apply NoDup_app in Hnd as (_ & Hd & _). intros Hin. apply (Hd _ Hin). by left. }
  assert (∀ (v : Alert.snapshot), PyDict.set k v acc = acc ++ [(k, v)]) as Hset.
  { intros v. clear -Hk. induction acc as [|[k0 v0] acc IH]; cbn; [done|].
    destruct (String.eqb_spec k0 k) as [->|Hne].
    - destruct Hk. by left.
    - f_equal. apply IH. intros ?. apply Hk. by right. }
  cbn [fst snd]. rewrite Hset, IH.
  - by rewrite <-app_assoc.
  - unfold PyDict.keys in *. rewrite fmap_app. cbn. cbn in Hnd.
    by rewrite <-app_assoc.
Qed.

Lemma filter_data_elem bl items acc stamp snap' :
  (stamp, snap')
    ∈ foldl (λ acc item, PyDict.set item.1 (keep_locations bl item.2) acc) acc items →
  (stamp, snap') ∈ acc
  ∨ ∃ snap, (stamp, snap) ∈ items ∧ snap' = keep_locations bl snap.
Proof.
  revert acc. induction items as [|[k snap] items IH]; intros acc; cbn [foldl].
  { by left. }
  intros [Hin|(snap0 & ? & ?)]%IH.
  - apply elem_of_set in Hin as [[-> ->]|?]; [|by left].
    right. exists snap. split; [by left|done].
  - right. exists snap0. split; [by right|done].
Qed.

Lemma elem_of_keep_locations bl snap loc dates :
  (loc, dates) ∈ keep_locations bl snap ↔ (loc, dates) ∈ snap ∧ loc ∉ bl.
Proof. unfold keep_locations. rewrite list_elem_of_filter. cbn. tauto. Qed.

(** *** The first pass *)

Lemma add_location_spec acc item :
  (add_location acc item).1 = acc.1 ∪ {[item.1]}
  ∧ ∀ y, y ∈ (add_location acc item).2 ↔ y ∈ acc.2 ∨ y ∈ PyDict.keys item.2.
Proof.
  unfold add_location. destruct item as [loc dates]. cbn [fst snd].
  generalize (acc.1 ∪ {[loc]}) as locs. generalize (acc.2) as ds.
  induction (PyDict.keys dates) as [|k ks IH]; intros ds locs; cbn [foldl fst snd].
  { split; [done|]. intros y. split; [by left|]. by intros [?|?%elem_of_nil]. }
  destruct (IH (ds ∪ {[k]}) locs) as [-> Hy]. split; [done|].
  intros y. rewrite Hy, elem_of_union, elem_of_singleton, elem_of_cons. tauto.
Qed.

Lemma add_snapshot_spec snap acc x :
  (x ∈ (foldl add_location acc snap).1
   ↔ x ∈ acc.1 ∨ ∃ dates, (x, dates) ∈ snap)
  ∧ (x ∈ (foldl add_location acc snap).2
     ↔ x ∈ acc.2 ∨ ∃ loc dates ts, (loc, dates) ∈ snap ∧ (x, ts) ∈ dates).
Proof.
  revert acc. induction snap as [|[loc dates] snap IH]; intros acc; cbn [foldl].
  { split; (split; [by left|]).
    - by intros [?|(? & ?%elem_of_nil)].
    - by intros [?|(? & ? & ? & ?%elem_of_nil & _)]. }
  destruct (IH (add_location acc (loc, dates))) as [-> ->].
  destruct (add_location_spec acc (loc, dates)) as [-> Hy]. rewrite Hy. cbn [fst snd].
  rewrite elem_of_union, elem_of_singleton. split; split.
  - intros [[?| ->]|(dates' & ?)]; [by left| |].
    + right. exists dates. by left.
    + right. exists dates'. by right.
  - intros [?|(dates' & [[= -> ->]|?]%elem_of_cons)]; [by left; left|by left; right|].
    right. by exists dates'.
  - intros [[?|Hk]|(loc' & dates' & ts & ? & ?)]; [by left| |].
    + right. apply list_elem_of_fmap in Hk as ([d ts] & -> & ?).
      exists loc, dates, ts. split; [by left|done].
    + right. exists loc', dates', ts. split; [by right|done].
  - intros [?|(loc' & dates' & ts & [[= -> ->]|?]%elem_of_cons & Hd)]; [by left; left| |].
    + left. right. apply list_elem_of_fmap. by exists (x, ts).
    + right. by exists loc', dates', ts.
Qed.

Lemma collect_spec d x :
  (x ∈ (collect d).1
   ↔ ∃ stamp snap dates, (stamp, snap) ∈ data d ∧ (x, dates) ∈ snap)
  ∧ (x ∈ (collect d).2
     ↔ ∃ stamp snap loc dates ts,
         (stamp, snap) ∈ data d ∧ (loc, dates) ∈ snap ∧ (x, ts) ∈ dates).
Proof.
  unfold collect.
  assert (∀ acc,
    (x ∈ (foldl add_snapshot acc (data d)).1
     ↔ x ∈ acc.1 ∨ ∃ stamp snap dates, (stamp, snap) ∈ data d ∧ (x, dates) ∈ snap)
    ∧ (x ∈ (foldl add_snapshot acc (data d)).2
       ↔ x ∈ acc.2 ∨ ∃ stamp snap loc dates ts,
           (stamp, snap) ∈ data d ∧ (loc, dates) ∈ snap ∧ (x, ts) ∈ dates)) as H.
  { induction (data d) as [|[stamp snap] items IH]; intros acc; cbn [foldl].
    { split; (split; [by left|]).
      - by intros [?|(? & ? & ? & ?%elem_of_nil & _)].
      - by intros [?|(? & ? & ? & ? & ? & ?%elem_of_nil & _)]. }
    destruct (IH (add_snapshot acc (stamp, snap))) as [-> ->].
    unfold add_snapshot. cbn [snd].
    destruct (add_snapshot_spec snap acc x) as [-> ->]. split; split.
    - intros [[?|(dates & ?)]|(stamp' & snap' & dates & ? & ?)]; [by left| |].
      + right. exists stamp, snap, dates. split; [by left|done].
      + right. exists stamp', snap', dates. split; [by right|done].
    - intros [?|(stamp' & snap' & dates & [[= -> ->]|?]%elem_of_cons & ?)];
        [by left; left| |].
      + left. right. by exists dates.
      + right. by exists stamp', snap', dates.
    - intros [[?|(loc & dates & ts & ? & ?)]|(stamp' & snap' & loc & dates & ts & ? & ?)];
        [by left| |].
      + right. exists stamp, snap, loc, dates, ts. split; [by left|done].
      + right. exists stamp', snap', loc, dates, ts. split; [by right|done].
    - intros [?|(stamp' & snap' & loc & dates & ts & [[= -> ->]|?]%elem_of_cons & ?)];
        [by left; left| |].
      + left. right. by exists loc, dates, ts.
      + right. by exists stamp', snap', loc, dates, ts. }
  destruct (H (∅, ∅)) as [H1 H2]. rewrite H1, H2. cbn [fst snd]. split; split.
  - by intros [?%elem_of_empty|?].
  - by right.
  - by intros [?%elem_of_empty|?].
  - by right.
Qed.

Lemma sorted_elements (X : gset string) :
  Sorted String.le (sorted (elements X)) ∧ NoDup (sorted (elements X))
  ∧ ∀ x, x ∈ sorted (elements X) ↔ x ∈ X.
Proof.
  destruct (sorted_spec (elements X)) as [? Hp]. split_and!; [done|..].
  - rewrite Hp. apply NoDup_elements.
  - intros x. rewrite Hp. apply elem_of_elements.
Qed.

Lemma analyze_data_fst d :
  (analyze_data d).1
  = Analysis (sorted (elements (collect d).1)) (sorted (elements (collect d).2))
             (foldl consider_snapshot (None, []) (data d)).1.
Proof.
  unfold analyze_data. destruct (collect d) as [locs dates].
  by destruct (foldl consider_snapshot _ _) as [earliest out].
Qed.

(** *** The second pass *)

Lemma consider_step stamp loc st item :
  (consider stamp loc st item).1 = foldl step st.1 (candidate stamp loc item).
Proof.
  unfold consider, candidate. destruct item as [date [|time times]]; cbn [fst snd]; [done|].
  destruct (strptime_Y_m_d date) as [a|]; [|reflexivity].
  destruct (strptime_H_M time) as [b|]; [|reflexivity]. cbn [foldl step].
  destruct st as [[e|] out]; cbn [fst snd i_datetime step]; [|reflexivity].
  destruct (dt_lt (combine a b) (i_datetime e)); reflexivity.
Qed.

Lemma consider_location_step stamp st item :
  (consider_location stamp st item).1
  = foldl step st.1 (it ← item.2; candidate stamp item.1 it).
Proof.
  unfold consider_location. destruct item as [loc dates]. cbn [fst snd].
  revert st. induction dates as [|it dates IH]; intros st; cbn [foldl mbind list_bind].
  { done. }
  by rewrite IH, foldl_app, consider_step.
Qed.

Lemma consider_snapshot_step st item :
  (consider_snapshot st item).1
  = foldl step st.1 ('(loc, dates) ← item.2; it ← dates; candidate item.1 loc it).
Proof.
  unfold consider_snapshot. destruct item as [stamp snap]. cbn [fst snd].
  revert st. induction snap as [|[loc dates] snap IH]; intros st;
    cbn [foldl mbind list_bind]; [done|].
  by rewrite IH, foldl_app, consider_location_step.
Qed.

Lemma consider_all_step d :
  (foldl consider_snapshot (None, []) (data d)).1 = foldl step None (candidates d).
Proof.
  unfold candidates. change None with ((None : option info, [] : list line).1) at 2.
  generalize (None : option info, [] : list line) as st.
  induction (data d) as [|[stamp snap] items IH]; intros st;
    cbn [foldl mbind list_bind]; [done|].
  by rewrite IH, foldl_app, consider_snapshot_step.
Qed.

(** The comparisons leave the first of the smallest. *)
Lemma foldl_step_first_min cs :
  match foldl step None cs with
  | None => cs = []
  | Some i =>
      ∃ pre post, cs = pre ++ i :: post
        ∧ (∀ c, c ∈ pre → dt_lt (i_datetime i) (i_datetime c) = true)
        ∧ (∀ c, c ∈ post → dt_lt (i_datetime c) (i_datetime i) = false)
  end.
Proof.
  induction cs as [|c cs IH] using rev_ind; [done|].
  rewrite foldl_app. cbn [foldl]. destruct (foldl step None cs) as [i|]; cbn [step].
  - destruct IH as (pre & post & -> & Hpre & Hpost).
    destruct (dt_lt (i_datetime c) (i_datetime i)) eqn:Hc.
    + exists (pre ++ i :: post), []. split_and!; [done| |by intros ? ?%elem_of_nil].
      intros x [?|[->|?]%elem_of_cons]%elem_of_app.
      * eapply dt_lt_trans; [done|]. by apply Hpre.
      * done.
      * eapply dt_lt_le_trans; [done|]. apply dt_lt_false. by apply Hpost.
    + exists pre, (post ++ [c]). split_and!; [by rewrite <-app_assoc|done|].
      intros x [?| ->%list_elem_of_singleton]%elem_of_app; [by apply Hpost|done].
  - subst cs. exists [], []. split_and!; [done|by intros ? ?%elem_of_nil..].
Qed.

Lemma elem_of_candidates d i :
  i ∈ candidates d →
  ∃ snap dates times,
    (i_timestamp i, snap) ∈ data d ∧ (i_location i, dates) ∈ snap
    ∧ (i_date i, i_time i :: times) ∈ dates.
Proof.
  unfold candidates. intros ([stamp snap] & Hin & ?)%list_elem_of_bind.
  apply list_elem_of_bind in Hin as ([loc dates] & Hin & ?).
  apply list_elem_of_bind in Hin as ([date times] & Hin & ?).
  unfold candidate in Hin. cbn [fst snd] in Hin. destruct times as [|time times].
  { by apply elem_of_nil in Hin. }
  destruct (strptime_Y_m_d date), (strptime_H_M time);
    try by apply elem_of_nil in Hin.
  apply list_elem_of_singleton in Hin as ->. by exists snap, dates, times.
Qed.

(** *** The loader *)

Lemma load_files_spec files stamps d out :
  ∃ d', foldl load_file (stamps, d, out) files
        = (stamps ++ (fst <$> filter loads files), d',
           out ++ (ErrorLoadingFile <$> (fst <$> filter (λ f, ¬ loads f) files)))
    ∧ (NoDup (PyDict.keys d) → NoDup (PyDict.keys d')).
Proof.
  revert stamps d out. induction files as [|[stem [content|]] files IH];
    intros stamps d out; cbn [foldl load_file fst snd].
  - exists d. by rewrite !app_nil_r.
  - destruct (IH (stamps ++ [stem]) (PyDict.set stem content d) out) as (d' & -> & Hnd).
    exists d'. rewrite filter_cons_True by (by eexists).
    rewrite filter_cons_False by (intros H; apply H; by eexists).
    cbn [fmap list_fmap fst]. rewrite <-app_assoc. split; [done|].
    intros ?. by apply Hnd, NoDup_keys_set.
  - destruct (IH stamps d (out ++ [ErrorLoadingFile stem])) as (d' & -> & Hnd).
    exists d'. rewrite filter_cons_False by (by intros [? [=]]).
    rewrite filter_cons_True by (by intros [? [=]]).
    cbn [fmap list_fmap fst]. by rewrite <-app_assoc.
Qed.

End analyze.
(** ** What [analyze.py] reports *)

Section analysis.
Import Analyze Analyzed.

(** X15. Filtering by the blacklist leaves the timestamps and the
    snapshots where they are and takes out of every snapshot exactly the
    blacklisted locations: the locations that stay keep their order and
    their dates. *)
Theorem filter_blacklisted_locations_spec d bl :
  NoDup (PyDict.keys (data d)) →
  timestamps (filter_blacklisted_locations d bl) = timestamps d
  ∧ PyDict.keys (data (filter_blacklisted_locations d bl)) = PyDict.keys (data d)
  ∧ ∀ stamp snap, (stamp, snap) ∈ data d →
      ∃ snap', PyDict.get stamp (data (filter_blacklisted_locations d bl)) = Some snap'
        ∧ PyDict.keys snap' = filter (λ loc, loc ∉ bl) (PyDict.keys snap)
        ∧ ∀ loc dates, (loc, dates) ∈ snap' ↔ (loc, dates) ∈ snap ∧ loc ∉ bl.
Proof.
  intros Hnd. unfold filter_blacklisted_locations. cbn [timestamps data].
  rewrite filter_data_entries by done. rewrite app_nil_l.
  assert (∀ l : list (string * list (string * PyDict.dict (list string))),
            PyDict.keys ((λ item, (item.1, keep_locations bl item.2)) <$> l)
            = PyDict.keys l) as Hkeys.
  { intros l. unfold PyDict.keys. rewrite <-list_fmap_compose. by apply list_fmap_ext. }
  split_and!; [done|apply Hkeys|]. intros stamp snap Hin.
  exists (keep_locations bl snap). split_and!.
  - apply elem_get.
    { unfold PyDict.keys. rewrite <-list_fmap_compose. exact Hnd. }
    apply list_elem_of_fmap. by exists (stamp, snap).
  - unfold keep_locations, PyDict.keys. clear.
    induction snap as [|[loc dates] snap IH]; [done|]. cbn [fmap list_fmap fst].
    destruct (decide (loc ∉ bl)).
    + rewrite !filter_cons_True by done. cbn [fmap list_fmap fst]. f_equal. apply IH.
    + rewrite !filter_cons_False by done. apply IH.
  - intros loc dates. apply elem_of_keep_locations.
Qed.

Lemma filter_blacklisted_locations_spec_witness :
  timestamps (filter_blacklisted_locations two_files {["Lowell"]}) = timestamps two_files
  ∧ PyDict.keys (data (filter_blacklisted_locations two_files {["Lowell"]}))
    = PyDict.keys (data two_files)
  ∧ ∀ stamp snap, (stamp, snap) ∈ data two_files →
      ∃ snap',
        PyDict.get stamp (data (filter_blacklisted_locations two_files {["Lowell"]}))
        = Some snap'
        ∧ PyDict.keys snap' = filter (λ loc, loc ∉ ({["Lowell"]} : gset string))
                                (PyDict.keys snap)
        ∧ ∀ loc dates, (loc, dates) ∈ snap'
                       ↔ (loc, dates) ∈ snap ∧ loc ∉ ({["Lowell"]} : gset string).
Proof.
  exact (filter_blacklisted_locations_spec two_files {["Lowell"]}
           ltac:(by apply (bool_decide_unpack _))).
Defined.

(** X16. The analysis lists every location and every date that occurs
    in any snapshot, each once and in ascending order; a date counts
    also when its list of times is empty or when it does not parse. *)
Theorem analyze_data_listing d :
  Sorted String.le (a_locations (analyze_data d).1)
  ∧ NoDup (a_locations (analyze_data d).1)
  ∧ (∀ loc, loc ∈ a_locations (analyze_data d).1
            ↔ ∃ stamp snap dates, (stamp, snap) ∈ data d ∧ (loc, dates) ∈ snap)
  ∧ Sorted String.le (a_dates (analyze_data d).1)
  ∧ NoDup (a_dates (analyze_data d).1)
  ∧ (∀ date, date ∈ a_dates (analyze_data d).1
             ↔ ∃ stamp snap loc dates ts,
                 (stamp, snap) ∈ data d ∧ (loc, dates) ∈ snap ∧ (date, ts) ∈ dates).
Proof.
  rewrite analyze_data_fst. cbn [a_locations a_dates].
  destruct (sorted_elements (collect d).1) as (? & ? & Hl).
  destruct (sorted_elements (collect d).2) as (? & ? & Hd).
  split_and!; [done|done| |done|done|].
  - intros loc. rewrite Hl. apply collect_spec.
  - intros date. rewrite Hd. apply collect_spec.
Qed.

(** X17. The earliest appointment is taken among the first times of
    the time lists only (the other times of a list are never looked at):
    every date with a non-empty list whose date and first time parse
    gives one candidate, and the analysis reports the first candidate,
    in the order of the snapshots, that no other candidate is strictly
    before. It reports none exactly when there is no candidate. *)
Theorem analyze_data_earliest d :
  match earliest_appointment (analyze_data d).1 with
  | None => candidates d = []
  | Some i =>
      ∃ pre post, candidates d = pre ++ i :: post
        ∧ (∀ c, c ∈ pre → dt_lt (i_datetime i) (i_datetime c) = true)
        ∧ (∀ c, c ∈ post → dt_lt (i_datetime c) (i_datetime i) = false)
  end.
Proof.
  rewrite analyze_data_fst. cbn [earliest_appointment]. rewrite consider_all_step.
  apply foldl_step_first_min.
Qed.

Lemma loaded_timestamps files :
  ∃ d out, foldl load_file ([], [], []) files = (fst <$> filter loads files, d, out)
    ∧ NoDup (PyDict.keys d).
Proof.
  destruct (load_files_spec files [] [] []) as (d & Heq & Hnd).
  exists d, ([] ++ (ErrorLoadingFile <$> (fst <$> filter (λ f, ¬ loads f) files))).
  split; [done|]. apply Hnd. constructor.
Qed.

Lemma no_file_loads files :
  fst <$> filter loads files = [] ↔ ∀ f, f ∈ files → f.2 = None.
Proof.
  assert (fst <$> filter loads files = [] ↔ filter loads files = []) as ->.
  { split; [apply fmap_nil_inv|by intros ->]. }
  induction files as [|f files IH].
  { split; [by intros _ ? ?%elem_of_nil|done]. }
  destruct f as [stem [content|]].
  - rewrite filter_cons_True by by eexists. split; [done|].
    intros H. by specialize (H (stem, Some content) ltac:(by left)).
  - rewrite filter_cons_False by (by intros [? [=]]). rewrite IH. split.
    + intros H f [->|?]%elem_of_cons; [done|by apply H].
    + intros H f ?. apply H. by right.
Qed.

(** X18. [main] stops with the [KeyError] of [data['timestamps']]
    exactly when the data directory is missing or holds no JSON file (the
    loader has returned an empty dict then); it prints that no data was
    loaded and returns exactly when the directory has JSON files and none
    of them loads. *)
Theorem main_without_data w :
  ((∃ out, main w = RaisesKeyError out) ↔ w_dir w = None ∨ w_dir w = Some [])
  ∧ ((∃ out, main w = Returns out)
     ↔ ∃ files, w_dir w = Some files ∧ files ≠ [] ∧ ∀ f, f ∈ files → f.2 = None).
Proof.
  unfold main. destruct (w_dir w) as [[|f files]|]; cbn [load_data_files].
  - split; split.
    + by right.
    + by eexists.
    + by intros [? [=]].
    + by intros (? & [= <-] & ? & _).
  - destruct (loaded_timestamps (f :: files)) as (d & out & -> & _).
    cbn [timestamps]. destruct (sorted _) as [|stamp stamps] eqn:Hs.
    + apply (proj1 (sorted_nil _)) in Hs. pose proof (proj1 (no_file_loads _) Hs) as Hall.
      split; split.
      * by intros [? [=]].
      * by intros [[=]|[=]].
      * intros _. by exists (f :: files).
      * by eexists.
    + assert (¬ ∀ f', f' ∈ f :: files → f'.2 = None) as Hno.
      { intros H. apply (proj2 (no_file_loads _)) in H.
        apply (proj2 (sorted_nil _)) in H. congruence. }
      destruct (analyze_data _) as [a warnings]. split; split.
      * by intros [? [=]].
      * by intros [[=]|[=]].
      * by intros [? [=]].
      * by intros (? & [= <-] & _ & ?).
  - split; split.
    + by left.
    + by eexists.
    + by intros [? [=]].
    + by intros (? & [=] & _).
Qed.

(** X19. When [main] gets to the shell, the analysis it prints is the
    one of the data it hands over, the timestamps are in ascending
    order, and no blacklisted location is in the analysis, neither among
    the locations nor as the place of the earliest appointment. *)
Theorem main_hides_blacklisted w out d a :
  main w = EntersShell out d a →
  a = (analyze_data d).1
  ∧ Results a ∈ out
  ∧ Sorted String.le (timestamps d)
  ∧ timestamps d ≠ []
  ∧ (∀ loc, loc ∈ a_locations a → loc ∉ load_list (w_blacklist w))
  ∧ (∀ i, earliest_appointment a = Some i → i_location i ∉ load_list (w_blacklist w)).
Proof.
  unfold main. set (bl := load_list (w_blacklist w)).
  destruct (w_dir w) as [[|f files]|]; cbn [load_data_files]; [done| |done].
  destruct (loaded_timestamps (f :: files)) as (d0 & out0 & -> & Hnd).
  cbn [timestamps]. destruct (sorted _) as [|stamp stamps] eqn:Hs; [done|].
  set (d' := if bool_decide (bl ≠ ∅) then _ else _).
  destruct (analyze_data d') as [a' warnings] eqn:Ha. intros [= <- <- <-].
  assert (timestamps d' = stamp :: stamps) as Hst.
  { unfold d'. by case_bool_decide. }
  assert (∀ st snap loc dates, (st, snap) ∈ data d' → (loc, dates) ∈ snap → loc ∉ bl)
    as Hbl.
  { intros st snap loc dates. unfold d'. case_bool_decide as Hl.
    - unfold filter_blacklisted_locations. cbn [data].
      intros [[]%elem_of_nil|(snap0 & _ & ->)]%filter_data_elem.
      by intros [_ ?]%elem_of_keep_locations.
    - rewrite Hl. intros _ _. apply not_elem_of_empty. }
  split_and!.
  - by rewrite Ha.
  - apply elem_of_app. right. apply elem_of_app. right. by left.
  - rewrite Hst, <-Hs. apply sorted_spec.
  - by rewrite Hst.
  - intros loc. replace a' with (analyze_data d').1 by by rewrite Ha.
    rewrite analyze_data_fst. cbn [a_locations].
    destruct (sorted_elements (collect d').1) as (_ & _ & ->).
    intros (st & snap & dates & ? & ?)%collect_spec. by eapply Hbl.
  - intros i. replace a' with (analyze_data d').1 by by rewrite Ha.
    rewrite analyze_data_fst. cbn [earliest_appointment]. rewrite consider_all_step.
    intros Hi. pose proof (foldl_step_first_min (candidates d')) as Hmin.
    rewrite Hi in Hmin. destruct Hmin as (pre & post & Hc & _).
    assert (i ∈ candidates d') as Hin.
    { rewrite Hc. apply elem_of_app. right. by left. }
    apply elem_of_candidates in Hin as (snap & dates & times & ? & ? & _).
    by eapply Hbl.
Qed.

Lemma main_hides_blacklisted_witness :
  sample_analysis = (analyze_data sample_data).1
  ∧ Results sample_analysis ∈ sample_out
  ∧ Sorted String.le (timestamps sample_data)
  ∧ timestamps sample_data ≠ []
  ∧ (∀ loc, loc ∈ a_locations sample_analysis
            → loc ∉ load_list (w_blacklist sample_world))
  ∧ (∀ i, earliest_appointment sample_analysis = Some i
          → i_location i ∉ load_list (w_blacklist sample_world)).
Proof.
  exact (main_hides_blacklisted sample_world sample_out sample_data sample_analysis
           ltac:(vm_compute; reflexivity)).
Defined.

End analysis.
(** ** The order of the times in an alert *)

Section chronological.
Import Browse Alert Snapshot.

Lemma ascii_compare_digit x y :
  0 ≤ x < 10 → 0 ≤ y < 10 → Ascii.compare (digit_char x) (digit_char y) = (x ?= y).
Proof. intros Hx Hy. enum_digit x; enum_digit y; reflexivity. Qed.

Lemma clock_minutes_clock H M :
  0 ≤ H ≤ 23 → 0 ≤ M ≤ 59 → clock_minutes (pad2 H +:+ ":" +:+ pad2 M) = 60 * H + M.
Proof.
  intros HH HM. unfold pad2. app_cons. cbn [clock_minutes].
  rewrite !digit_val_digit_char by (apply Z.mod_pos_bound; lia).
  Z.div_mod_to_equations. lia.
Qed.

(** Zero-padded clock texts compare as the times they stand for. *)
Lemma clock_compare H M H' M' :
  0 ≤ H ≤ 23 → 0 ≤ M ≤ 59 → 0 ≤ H' ≤ 23 → 0 ≤ M' ≤ 59 →
  String.compare (pad2 H +:+ ":" +:+ pad2 M) (pad2 H' +:+ ":" +:+ pad2 M')
  = (60 * H + M ?= 60 * H' + M').
Proof.
  intros HH HM HH' HM'. unfold pad2. app_cons. cbn [String.compare].
  rewrite !ascii_compare_digit by (apply Z.mod_pos_bound; lia).
  change (Ascii.compare ":" ":") with Eq. symmetry.
  destruct (Z.compare_spec (H / 10 mod 10) (H' / 10 mod 10));
    [destruct (Z.compare_spec (H mod 10) (H' mod 10));
       [destruct (Z.compare_spec (M / 10 mod 10) (M' / 10 mod 10));
          [destruct (Z.compare_spec (M mod 10) (M' mod 10))|..]|..]|..];
    first [apply Z.compare_eq_iff | apply Z.compare_lt_iff | apply Z.compare_gt_iff];
    Z.div_mod_to_equations; lia.
Qed.

Lemma clock_le s t :
  clock_time s → clock_time t → String.le s t → clock_minutes s ≤ clock_minutes t.
Proof.
  intros (H & M & ? & ? & ->) (H' & M' & ? & ? & ->).
  unfold String.le, String.leb. rewrite clock_compare, !clock_minutes_clock by done.
  destruct (Z.compare_spec (60 * H + M) (60 * H' + M')); [lia|lia|done].
Qed.

Lemma Sorted_chronological l :
  Sorted String.le l → (∀ t, t ∈ l → clock_time t) → chronological l.
Proof.
  unfold chronological. induction 1 as [|t l _ IH Hhd]; intros Hc; [constructor|].
  constructor.
  - apply IH. intros t' ?. apply Hc. by right.
  - destruct Hhd as [|t' l' Hle]; constructor.
    apply clock_le; [apply Hc; by left|apply Hc; right; by left|done].
Qed.

Lemma sorted_chronological ts :
  (∀ t, t ∈ ts → clock_time t) → chronological (sorted ts).
Proof.
  intros Hclock. destruct (sorted_spec ts) as [Hs Hp].
  apply Sorted_chronological; [done|]. intros t Ht. apply Hclock. by rewrite <-Hp.
Qed.

(** X20. The times of an alert recorded on a snapshot of [browse.py]
    are those of the snapshot entry, repetitions included, put in the
    order of the clock: the [HH:MM] texts are zero-padded, so sorting
    them as strings sorts them as times, whatever the order in which the
    pages showed them. *)
Theorem alert_times_chronological a w rep al :
  w_data w = Some (transform_data a) →
  analyze_appointments w = Returned rep →
  al ∈ alerts rep →
  chronological (times al)
  ∧ ∃ dates ts, (location al, dates) ∈ transform_data a ∧ (date al, ts) ∈ dates
      ∧ times al ≡ₚ ts.
Proof.
  intros Hdata (content & _ & H)%analyze_returned Hal. cbn zeta in H.
  rewrite Hdata in H. destruct H as (Heq & _). rewrite Heq in Hal.
  apply elem_of_snapshot_alerts in Hal as (loc & dates & d & ts & Hloc & Hd & _ & _ & ->).
  cbn [times location date]. split.
  - apply sorted_chronological. intros t. by apply (transform_data_clock_times a loc dates d).
  - exists dates, ts. split_and!; [done..|apply sorted_spec].
Qed.

Lemma alert_times_chronological_witness :
  chronological (times SampleRun.two_pages_alert)
  ∧ ∃ dates ts,
      (location SampleRun.two_pages_alert, dates) ∈ transform_data Normal.two_pages_data
      ∧ (date SampleRun.two_pages_alert, ts) ∈ dates
      ∧ times SampleRun.two_pages_alert ≡ₚ ts.
Proof.
  exact (alert_times_chronological Normal.two_pages_data
           (World Sample.fs (Some (transform_data Normal.two_pages_data)) FirefoxOk)
           SampleRun.two_pages_alerts SampleRun.two_pages_alert
           eq_refl ltac:(vm_compute; reflexivity) ltac:(left)).
Defined.

End chronological.
(** ** The loader of [analyze.py] *)

Section loader.
Import Analyze Analyzed.

Lemma set_fresh {V} k (v : V) d : k ∉ PyDict.keys d → PyDict.set k v d = d ++ [(k, v)].
Proof.
  induction d as [|[k0 v0] d IH]; cbn; [done|]. intros Hk.
  destruct (String.eqb_spec k0 k) as [->|Hne].
  - destruct Hk. by left.
  - f_equal. apply IH. intros ?. apply Hk. by right.
Qed.

(** With distinct stems every file that loads adds one entry. *)
Lemma load_files_data files stamps (d : PyDict.dict Alert.snapshot) out stamps' d' out' :
  NoDup (PyDict.keys d ++ (fst <$> files)) →
  foldl load_file (stamps, d, out) files = (stamps', d', out') →
  d' = d ++ omap (λ f, pair f.1 <$> f.2) files.
Proof.
  revert stamps d out. induction files as [|[stem [content|]] files IH];
    intros stamps d out Hnd; cbn [foldl load_file fst snd].
  - intros [= _ <- _]. by rewrite app_nil_r.
  - assert (stem ∉ PyDict.keys d) as Hk.
    { apply NoDup_app in Hnd as (_ & Hd & _). intros Hin. apply (Hd _ Hin). by left. }
    rewrite (set_fresh _ _ _ Hk). intros ->%IH.
    + by rewrite <-app_assoc.
    + unfold PyDict.keys in *. rewrite fmap_app, <-app_assoc. exact Hnd.
  - intros ->%IH; [done|]. apply NoDup_app in Hnd as (Hd1 & Hd & Hd2). apply NoDup_app.
    split_and!; [done| |by apply NoDup_cons in Hd2 as [_ ?]].
    intros x Hx ?. apply (Hd x Hx). by right.
Qed.

(** X21. From a directory with JSON files the loader returns both
    keys: the data hold exactly the files that load, under their stems
    and in the order of the directory, the timestamps are these stems in
    ascending string order, and every file that does not load is
    reported and left out. *)
Theorem load_data_files_spec files :
  files ≠ [] → NoDup (fst <$> files) →
  ∃ d, (load_data_files (Some files)).1 = Loaded d
    ∧ Sorted String.le (timestamps d)
    ∧ timestamps d ≡ₚ PyDict.keys (data d)
    ∧ NoDup (PyDict.keys (data d))
    ∧ (∀ stem content, (stem, content) ∈ data d ↔ (stem, Some content) ∈ files)
    ∧ (∀ stem, ErrorLoadingFile stem ∈ (load_data_files (Some files)).2
               ↔ (stem, None) ∈ files).
Proof.
  intros Hne Hnd. destruct files as [|f files]; [done|]. cbn [load_data_files].
  set (fs := f :: files) in *. clearbody fs. clear f files Hne.
  destruct (load_files_spec fs [] [] []) as (d & Heq & Hnd').
  pose proof (load_files_data fs [] [] [] _ _ _ Hnd Heq) as Hdata.
  rewrite app_nil_l in Hdata. subst d.
  destruct (foldl load_file _ _) as [[stamps d1] out]. injection Heq as -> -> ->.
  eexists. split; [done|]. cbn [timestamps data fst snd]. rewrite ?app_nil_l.
  assert (PyDict.keys (omap (λ f, pair f.1 <$> f.2) fs) = fst <$> filter loads fs) as Hk.
  { clear. induction fs as [|[stem [content|]] fs IH]; [done|..].
    - rewrite filter_cons_True by by eexists. cbn. f_equal. apply IH.
    - rewrite filter_cons_False by (by intros [? [=]]). apply IH. }
  split_and!.
  - apply sorted_spec.
  - rewrite Hk. apply sorted_spec.
  - apply Hnd'. constructor.
  - intros stem content. rewrite list_elem_of_omap. split.
    + intros ([stem' [content'|]] & ? & [=]). by subst.
    + intros ?. by exists (stem, Some content).
  - intros stem. rewrite list_elem_of_fmap. split.
    + intros (stem' & [= <-] & Hin). apply list_elem_of_fmap in Hin as ([s [c|]] & -> & Hin).
      * apply list_elem_of_filter in Hin as [Hno _]. destruct Hno. by eexists.
      * by apply list_elem_of_filter in Hin as [_ ?].
    + intros Hin. exists stem. split; [done|]. apply list_elem_of_fmap.
      exists (stem, None). split; [done|]. apply list_elem_of_filter. split; [|done].
      by intros [? [=]].
Qed.

Lemma load_data_files_spec_witness :
  ∃ d, (load_data_files (w_dir sample_world)).1 = Loaded d
    ∧ Sorted String.le (timestamps d)
    ∧ timestamps d ≡ₚ PyDict.keys (data d)
    ∧ NoDup (PyDict.keys (data d))
    ∧ (∀ stem content,
         (stem, content) ∈ data d
         ↔ (stem, Some content)
             ∈ [("1743000600", Some Sample.mixed); ("notes", None);
                ("1743000000", Some Sample.busy)])
    ∧ (∀ stem, ErrorLoadingFile stem ∈ (load_data_files (w_dir sample_world)).2
               ↔ (stem, None)
                   ∈ [("1743000600", Some Sample.mixed); ("notes", None);
                      ("1743000000", Some Sample.busy)]).
Proof.
  exact (load_data_files_spec
           [("1743000600", Some Sample.mixed); ("notes", None);
            ("1743000000", Some Sample.busy)]
           ltac:(done) ltac:(by apply (bool_decide_unpack _))).
Defined.

End loader.
